(** * IoT environment sensor: the Adafruit IO network client (aio.py)

    A shallow embedding of [IoT_Environment_Sensor/aio.py]: the start-up
    configuration check, [AIO.__init__], [AIO.connect], [AIO.post] and
    [AIO.refresh_local_time], together with the properties of the
    connection-and-retry discipline.

    The vendor libraries (ESP32 SPI radio, HTTP client, RTC) are an
    interface, [Platform]; every operation of the client is a function of
    an arbitrary implementation of it.  A run yields an outcome, the final
    platform state and the list of the interactions it performed, in
    program order. *)

From Stdlib Require Import ZArith List String Ascii Lia Bool.
From Stdlib Require HexString.
From stdpp Require Import base gmap strings list.

Local Open Scope string_scope.
Local Open Scope Z_scope.
Local Open Scope list_scope.

(** ** Python values the client handles *)

(** The exception classes that can reach the client.  [except RuntimeError]
    and [except KeyError] select on the class. *)
Inductive exn_class : Type :=
  | RuntimeError
  | KeyError
  | IndexError
  | ValueError
  | OSError.

Record exn : Type := Exn { exn_cls : exn_class; exn_msg : string }.

Definition is_RuntimeError (e : exn) : bool :=
  match exn_cls e with RuntimeError => true | _ => false end.

Definition is_KeyError (e : exn) : bool :=
  match exn_cls e with KeyError => true | _ => false end.

(** What a call into a vendor library gives back: a value or an exception. *)
Inductive reply (A : Type) : Type :=
  | Ok (a : A)
  | Err (e : exn).
Arguments Ok {A} a.
Arguments Err {A} e.

(** What a run of client code gives back.  [OutOfFuel] is a run cut off
    while a [while] loop was still iterating. *)
Inductive outcome (A : Type) : Type :=
  | Ret (a : A)
  | Raise (e : exn)
  | OutOfFuel.
Arguments Ret {A} a.
Arguments Raise {A} e.
Arguments OutOfFuel {A}.

(** The response object of the HTTP client.  Its body is read from the
    socket on demand by [json()] and [text], which are platform calls. *)
Record Response : Type := { status_code : Z; headers : list (string * string) }.

(** The caller's payload: a mapping the client passes on untouched. *)
Definition Payload : Type := list (string * string).

(** [time.struct_time]; [tm_isdst] is [None] in this client. *)
Record struct_time : Type := {
  tm_year : Z; tm_mon : Z; tm_mday : Z;
  tm_hour : Z; tm_min : Z; tm_sec : Z;
  tm_wday : Z; tm_yday : Z;
  tm_isdst : option Z
}.

Inductive level : Type := DEBUG | INFO | ERROR.

(** The interactions of a run.  A logger call is recorded with its level
    and format string. *)
Inductive event : Type :=
  | EvLog (lvl : level) (fmt : string)
  | EvIsConnected (b : bool)
  | EvConnectAP (ssid password : string) (r : reply unit)
  | EvReset
  | EvPost (url : string) (hdrs : list (string * string)) (json : Payload)
           (r : reply Response)
  | EvGet (url : string) (r : reply Response)
  | EvJson (resp : Response) (r : reply string)
  | EvText (resp : Response) (r : reply string)
  | EvClose (resp : Response)
  | EvRtc (now : struct_time)
  | EvGcCollect.

(** ** The vendor libraries *)

(** [W] is the state of everything outside the client: radio, network,
    servers.  [esp_is_connected] is the status property of the radio, a
    read; every other call may change the state. *)
Class Platform (W : Type) : Type := {
  esp_is_connected : W -> bool;
  esp_connect_AP : string -> string -> W -> reply unit * W;
  esp_reset : W -> W;
  requests_post : string -> list (string * string) -> Payload -> W -> reply Response * W;
  requests_get : string -> W -> reply Response * W;
  response_json : Response -> W -> reply string * W;
  response_text : Response -> W -> reply string * W;
  response_close : Response -> W -> W;
  rtc_set_datetime : struct_time -> W -> W
}.

(** ** Start-up configuration (module level of aio.py) *)

(** settings.toml, as [os.getenv] sees it: a missing key reads as [None].
    The values are taken to be strings. *)
Definition getenv (env : gmap string string) (key : string) : option string :=
  env !! key.

(** The four module globals once the import has succeeded. *)
Record credentials : Type := {
  ssid : string;
  password : string;
  aio_username : string;
  aio_key : string
}.

Definition is_None {A : Type} (o : option A) : bool :=
  match o with None => true | Some _ => false end.

Definition settings_error : exn :=
  Exn RuntimeError
    ("WiFi and Adafruit IO settings are kept in settings.toml, " +:+
     "please add them there. The settings file must contain " +:+
     "'CIRCUITPY_WIFI_SSID', 'CIRCUITPY_WIFI_PASSWORD', " +:+
     "'ADAFRUIT_AIO_USERNAME' and 'ADAFRUIT_AIO_KEY' at a minimum.").

(** Importing the module: the class [AIO] is defined after the check, so
    a client exists only when this returns [Ok]. *)
Definition import_aio (env : gmap string string) : reply credentials :=
  let ssid := getenv env "CIRCUITPY_WIFI_SSID" in
  let password := getenv env "CIRCUITPY_WIFI_PASSWORD" in
  let aio_username := getenv env "ADAFRUIT_AIO_USERNAME" in
  let aio_key := getenv env "ADAFRUIT_AIO_KEY" in
  if existsb is_None [ssid; password; aio_username; aio_key] then
    Err settings_error
  else
    match ssid, password, aio_username, aio_key with
    | Some s, Some p, Some u, Some k =>
        Ok {| ssid := s; password := p; aio_username := u; aio_key := k |}
    | _, _, _, _ => Err settings_error
    end.

(** ** Python built-ins used by the time parser *)

(** [s.split(sep)] for a one-character separator: every occurrence cuts,
    so the result is never empty and [''.split(' ')] is [['']]. *)
Fixpoint py_split (sep : ascii) (s : string) : list string :=
  match s with
  | EmptyString => [EmptyString]
  | String c rest =>
      if Ascii.eqb c sep then EmptyString :: py_split sep rest
      else
        match py_split sep rest with
        | [] => [String c EmptyString]
        | h :: t => String c h :: t
        end
  end.

(** [l[i]] on a list. *)
Definition py_index (l : list string) (i : nat) : reply string :=
  match l !! i with
  | Some x => Ok x
  | None => Err (Exn IndexError "list index out of range")
  end.

Definition is_space (c : ascii) : bool :=
  let n := nat_of_ascii c in
  (Nat.eqb n 32 || (Nat.leb 9 n && Nat.leb n 13))%bool.

Fixpoint lstrip (cs : list ascii) : list ascii :=
  match cs with
  | c :: cs' => if is_space c then lstrip cs' else cs
  | [] => []
  end.

Definition strip (cs : list ascii) : list ascii :=
  rev (lstrip (rev (lstrip cs))).

Definition digit_of (c : ascii) : option Z :=
  let n := Z.of_nat (nat_of_ascii c) in
  if ((48 <=? n) && (n <=? 57))%bool then Some (n - 48) else None.

Fixpoint digits (cs : list ascii) (acc : Z) : option Z :=
  match cs with
  | [] => Some acc
  | c :: cs' =>
      match digit_of c with
      | Some d => digits cs' (10 * acc + d)
      | None => None
      end
  end.

Definition int_error : exn :=
  Exn ValueError "invalid literal for int() with base 10".

(** [int(s)] on a string, base 10: surrounding ASCII whitespace, an
    optional sign, then one or more ASCII digits.  Digit-group underscores
    and blanks or digits outside ASCII are left out of this model of the
    built-in (they give [ValueError] here), and the message of the error
    does not quote the literal. *)
Definition py_int (s : string) : reply Z :=
  let cs := strip (list_ascii_of_string s) in
  let '(neg, ds) :=
    match cs with
    | "-"%char :: r => (true, r)
    | "+"%char :: r => (false, r)
    | _ => (false, cs)
    end in
  match ds with
  | [] => Err int_error
  | _ =>
      match digits ds 0 with
      | Some n => Ok (if neg : bool then - n else n)
      | None => Err int_error
      end
  end.

(** [[int(x) for x in l]]: left to right, the first failure is raised. *)
Fixpoint int_list (l : list string) : reply (list Z) :=
  match l with
  | [] => Ok []
  | x :: l' =>
      match py_int x with
      | Err e => Err e
      | Ok n =>
          match int_list l' with
          | Err e => Err e
          | Ok ns => Ok (n :: ns)
          end
      end
  end.

(** [a, b, c = l]: unpacking into exactly three names. *)
Definition unpack3 (l : list Z) : reply (Z * Z * Z) :=
  match l with
  | [a; b; c] => Ok (a, b, c)
  | a :: b :: c :: _ :: _ => Err (Exn ValueError "too many values to unpack")
  | _ => Err (Exn ValueError "not enough values to unpack")
  end.

(** ** Runs: state, exceptions and the interaction list *)

Section Client.

Context {W : Type} `{Platform W}.

Definition M (A : Type) : Type := W -> outcome A * W * list event.

Definition ret {A : Type} (a : A) : M A := fun w => (Ret a, w, []).

Definition raise {A : Type} (e : exn) : M A := fun w => (Raise e, w, []).

Definition out_of_fuel {A : Type} : M A := fun w => (OutOfFuel, w, []).

Definition bind {A B : Type} (m : M A) (f : A -> M B) : M B :=
  fun w =>
    match m w with
    | (Ret a, w1, t1) => let '(o, w2, t2) := f a w1 in (o, w2, t1 ++ t2)
    | (Raise e, w1, t1) => (Raise e, w1, t1)
    | (OutOfFuel, w1, t1) => (OutOfFuel, w1, t1)
    end.

(** [try: m  except C as e: h e], where [catches] tells the class [C]. *)
Definition try_except {A : Type} (m : M A) (catches : exn -> bool)
    (h : exn -> M A) : M A :=
  fun w =>
    match m w with
    | (Raise e, w1, t1) =>
        if catches e
        then let '(o, w2, t2) := h e w1 in (o, w2, t1 ++ t2)
        else (Raise e, w1, t1)
    | r => r
    end.

Notation "x <- m ;; k" := (bind m (fun x => k))
  (at level 100, m at next level, right associativity).
Notation "m ;;; k" := (bind m (fun _ => k))
  (at level 100, right associativity).

(** A call into a vendor library, recorded with its reply. *)
Definition call {A : Type} (prim : W -> reply A * W) (ev : reply A -> event)
    : M A :=
  fun w =>
    match prim w with
    | (Ok a, w1) => (Ret a, w1, [ev (Ok a)])
    | (Err e, w1) => (Raise e, w1, [ev (Err e)])
    end.

Definition emit (ev : event) (step : W -> W) : M unit :=
  fun w => (Ret tt, step w, [ev]).

Definition logger (lvl : level) (fmt : string) : M unit :=
  emit (EvLog lvl fmt) (fun w => w).

Definition is_connected : M bool :=
  fun w => (Ret (esp_is_connected w), w, [EvIsConnected (esp_is_connected w)]).

Definition connect_AP (s p : string) : M unit :=
  call (esp_connect_AP s p) (EvConnectAP s p).

Definition reset : M unit := emit EvReset esp_reset.

Definition http_post (url : string) (hdrs : list (string * string))
    (json : Payload) : M Response :=
  call (requests_post url hdrs json) (EvPost url hdrs json).

Definition http_get (url : string) : M Response :=
  call (requests_get url) (EvGet url).

Definition json (r : Response) : M string :=
  call (response_json r) (EvJson r).

Definition text (r : Response) : M string :=
  call (response_text r) (EvText r).

Definition close (r : Response) : M unit :=
  emit (EvClose r) (response_close r).

(** ** AIO.connect *)

Variable cfg : credentials.

(** The [while not self._esp.is_connected] loop; [fuel] bounds the number
    of iterations a run is followed for. *)
Fixpoint connect_loop (fuel : nat) : M unit :=
  match fuel with
  | O => out_of_fuel
  | S fuel' =>
      c <- is_connected ;;
      if negb c then
        try_except (connect_AP (ssid cfg) (password cfg)) is_RuntimeError
          (fun _ => logger ERROR "could not connect to AP, retrying: %s") ;;;
        connect_loop fuel'
      else ret tt
  end.

Definition connect (fuel : nat) : M unit :=
  logger DEBUG "Connecting..." ;;;
  connect_loop fuel.

(** ** AIO.post *)

Definition feed_url (feed : string) : string :=
  "https://io.adafruit.com/api/v2/" +:+ aio_username cfg +:+ "/feeds/" +:+
  feed +:+ "/data".

Definition auth_header : list (string * string) :=
  [("X-AIO-KEY", aio_key cfg)].

(** One pass through the [try] statement of the loop: [Some r] when the
    [break] is reached with the response [r], [None] when a
    [RuntimeError] was caught and handled.  [cfuel] is the fuel of the
    [connect] of the handler. *)
Definition post_attempt (cfuel : nat) (api_url : string) (payload : Payload)
    : M (option Response) :=
  try_except
    (r <- http_post api_url auth_header payload ;;
     logger INFO "Status: %d" ;;;
     (if status_code r =? 200 then
        logger DEBUG "Headers: %s" ;;;
        json r ;;;
        logger DEBUG "Text: %s"
      else
        json r ;;;
        logger DEBUG "Text: %s") ;;;
     ret (Some r))
    is_RuntimeError
    (fun _ =>
       logger ERROR "Error posting: %s" ;;;
       logger INFO "Resetting and reconnecting" ;;;
       reset ;;;
       connect cfuel ;;;
       ret None).

(** The [while True] loop with its counter [tries]; after the [break],
    [r.close()] and the comparison of the status code. *)
Fixpoint post_loop (cfuel : nat) (api_url : string) (payload : Payload)
    (fuel : nat) (tries : Z) : M bool :=
  match fuel with
  | O => out_of_fuel
  | S fuel' =>
      if tries =? 5 then ret false
      else
        let tries := tries + 1 in
        a <- post_attempt cfuel api_url payload ;;
        match a with
        | Some r => close r ;;; ret (status_code r =? 200)
        | None => post_loop cfuel api_url payload fuel' tries
        end
  end.

Definition post (fuel : nat) (feed : string) (payload : Payload) : M bool :=
  let api_url := feed_url feed in
  logger INFO "POSTing to %s" ;;;
  logger INFO "payload: %s" ;;;
  connect fuel ;;;
  post_loop fuel api_url payload fuel 0.

(** ** AIO.refresh_local_time *)

Definition TIME_SERVICE (user key : string) : string :=
  "https://io.adafruit.com/api/v2/" +:+ user +:+
  "/integrations/time/strftime?x-aio-key=" +:+ key.

Definition TIME_SERVICE_STRFTIME : string :=
  "&fmt=%25Y-%25m-%25d+%25H%3A%25M%3A%25S.%25L+%25j+%25u+%25z+%25Z".

Definition lookup_error : exn :=
  Exn KeyError
    ("Was unable to lookup the time, try setting timezone in your " +:+
     "settings.toml according to http://worldtimeapi.org/timezones").

Definition lift {A : Type} (r : reply A) : M A :=
  fun w =>
    match r with
    | Ok a => (Ret a, w, [])
    | Err e => (Raise e, w, [])
    end.

(** The URL of the time service: with [&tz=] when the setting [timezone]
    is a non-empty string. *)
Definition time_url (env : gmap string string) : string :=
  match getenv env "timezone" with
  | Some (String c l) =>
      TIME_SERVICE (aio_username cfg) (aio_key cfg) +:+ "&tz=" +:+ String c l
      +:+ TIME_SERVICE_STRFTIME
  | _ => TIME_SERVICE (aio_username cfg) (aio_key cfg) +:+ TIME_SERVICE_STRFTIME
  end.

(** The body of the [try] statement: connect, GET, and the four fields. *)
Definition fetch_time (fuel : nat) (api_url : string)
    : M (Response * string * string * Z * Z) :=
  connect fuel ;;;
  response <- http_get api_url ;;
  shown <- text response ;;
  logger DEBUG "Time reply: %s" ;;;
  body <- text response ;;
  let times := py_split " " body in
  the_date <- lift (py_index times 0) ;;
  the_time <- lift (py_index times 1) ;;
  f2 <- lift (py_index times 2) ;;
  year_day <- lift (py_int f2) ;;
  f3 <- lift (py_index times 3) ;;
  week_day <- lift (py_int f3) ;;
  ret (response, the_date, the_time, year_day, week_day).

Definition refresh_local_time (fuel : nat) (env : gmap string string)
    : M struct_time :=
  (match getenv env "timezone" with
   | Some (String _ _) => logger DEBUG "Getting time for timezone %s"
   | _ => logger DEBUG "Getting time from IP address"
   end) ;;;
  let api_url := time_url env in
  logger DEBUG "Requesting time from %s" ;;;
  fetched <- try_except (fetch_time fuel api_url) is_KeyError
               (fun _ => raise lookup_error) ;;
  let '(response, the_date, the_time, year_day, week_day) := fetched in
  ymd <- lift (int_list (py_split "-" the_date)) ;;
  ymd3 <- lift (unpack3 ymd) ;;
  let '(year, month, mday) := ymd3 in
  the_time0 <- lift (py_index (py_split "." the_time) 0) ;;
  hms <- lift (int_list (py_split ":" the_time0)) ;;
  hms3 <- lift (unpack3 hms) ;;
  let '(hours, minutes, seconds) := hms3 in
  let now := {| tm_year := year; tm_mon := month; tm_mday := mday;
                tm_hour := hours; tm_min := minutes; tm_sec := seconds;
                tm_wday := week_day; tm_yday := year_day;
                tm_isdst := None |} in
  emit (EvRtc now) (rtc_set_datetime now) ;;;
  logger DEBUG "Fetched time: %s" ;;;
  close response ;;;
  emit EvGcCollect (fun w => w) ;;;
  ret now.

End Client.

(** ** A scripted platform

    A platform whose replies are read from scripts: the outcomes of the
    next [connect_AP] calls, of the next POSTs and of the next [json()]
    calls.  Once a script is used up, association succeeds, a POST fails
    with a transport error and [json()] decodes an empty object. *)
Module Sim.

Record world : Type := {
  associated : bool;
  aps : list (reply unit);
  posts : list (reply Response);
  jsons : list (reply string);
  get_reply : reply Response;
  body : reply string;
  rtc : option struct_time;
  closed : list Response
}.

Definition transport_error : exn := Exn RuntimeError "Failed to send request".

Definition connect_AP (w : world) : reply unit * world :=
  match aps w with
  | [] => (Ok tt, {| associated := true; aps := []; posts := posts w;
                     jsons := jsons w; get_reply := get_reply w;
                     body := body w; rtc := rtc w; closed := closed w |})
  | r :: rest =>
      (r, {| associated := match r with Ok _ => true | Err _ => false end;
             aps := rest; posts := posts w; jsons := jsons w;
             get_reply := get_reply w; body := body w; rtc := rtc w;
             closed := closed w |})
  end.

Definition reset (w : world) : world :=
  {| associated := false; aps := aps w; posts := posts w; jsons := jsons w;
     get_reply := get_reply w; body := body w; rtc := rtc w;
     closed := closed w |}.

Definition post (w : world) : reply Response * world :=
  match posts w with
  | [] => (Err transport_error, w)
  | r :: rest =>
      (r, {| associated := associated w; aps := aps w; posts := rest;
             jsons := jsons w; get_reply := get_reply w; body := body w;
             rtc := rtc w; closed := closed w |})
  end.

Definition json (w : world) : reply string * world :=
  match jsons w with
  | [] => (Ok "{}", w)
  | r :: rest =>
      (r, {| associated := associated w; aps := aps w; posts := posts w;
             jsons := rest; get_reply := get_reply w; body := body w;
             rtc := rtc w; closed := closed w |})
  end.

Definition close (r : Response) (w : world) : world :=
  {| associated := associated w; aps := aps w; posts := posts w;
     jsons := jsons w; get_reply := get_reply w; body := body w;
     rtc := rtc w; closed := r :: closed w |}.

Definition set_rtc (now : struct_time) (w : world) : world :=
  {| associated := associated w; aps := aps w; posts := posts w;
     jsons := jsons w; get_reply := get_reply w; body := body w;
     rtc := Some now; closed := closed w |}.

#[global] Instance platform : Platform world := {
  esp_is_connected := associated;
  esp_connect_AP := fun _ _ => connect_AP;
  esp_reset := reset;
  requests_post := fun _ _ _ => post;
  requests_get := fun _ w => (get_reply w, w);
  response_json := fun _ => json;
  response_text := fun _ w => (body w, w);
  response_close := close;
  rtc_set_datetime := set_rtc
}.

(** A radio that is down, with the given scripts. *)
Definition boot (a : list (reply unit)) (p : list (reply Response))
    (j : list (reply string)) : world :=
  {| associated := false; aps := a; posts := p; jsons := j;
     get_reply := Err transport_error; body := Err transport_error;
     rtc := None; closed := [] |}.

(** An associated radio and a time service that answers [txt]. *)
Definition time_server (txt : string) : world :=
  {| associated := true; aps := []; posts := []; jsons := [];
     get_reply := Ok {| status_code := 200; headers := [] |};
     body := Ok txt; rtc := None; closed := [] |}.

Definition creds : credentials :=
  {| ssid := "net"; password := "secret"; aio_username := "user";
     aio_key := "key" |}.

Definition resp (code : Z) : Response := {| status_code := code; headers := [] |}.

Definition decode_error : exn := Exn ValueError "syntax error in JSON".

(** No POST gets through. *)
Definition offline : world := boot [] [] [].

(** The first POST is answered with status 200 and a body that decodes. *)
Definition healthy : world := boot [] [Ok (resp 200)] [].

(** The first POST is answered with status 200 and a body that is not
    JSON. *)
Definition bad_body : world := boot [] [Ok (resp 200)] [Err decode_error].

(** The first POST is answered with status 500, but reading the body of
    that response fails with a transport error; the second POST is
    answered with status 200. *)
Definition flaky_body : world :=
  boot [] [Ok (resp 500); Ok (resp 200)] [Err transport_error].

(** What [connect] does on a radio that is down and associates at the
    first attempt. *)
Definition joined : list event :=
  [EvIsConnected false; EvConnectAP "net" "secret" (Ok tt);
   EvIsConnected true].

End Sim.

(** ** Observations on interaction lists *)

(** The number of transport attempts: calls of the HTTP POST primitive. *)
Fixpoint attempts (evs : list event) : nat :=
  match evs with
  | [] => O
  | EvPost _ _ _ _ :: evs' => S (attempts evs')
  | _ :: evs' => attempts evs'
  end.

(** The number of association attempts: calls of [connect_AP]. *)
Fixpoint associations (evs : list event) : nat :=
  match evs with
  | [] => O
  | EvConnectAP _ _ _ :: evs' => S (associations evs')
  | _ :: evs' => associations evs'
  end.

Definition retry_log : event :=
  EvLog ERROR "could not connect to AP, retrying: %s".

Definition connecting_log : event := EvLog DEBUG "Connecting...".

(** What the loop of [connect] can do: read the status, try to associate,
    log a failed association.  In particular no reset, no HTTP request and
    no second entry into [connect]. *)
Definition assoc_event (ev : event) : Prop :=
  match ev with
  | EvIsConnected _ => True
  | EvConnectAP _ _ _ => True
  | EvLog ERROR "could not connect to AP, retrying: %s" => True
  | _ => False
  end.

(** The error replies of a run are all [RuntimeError]s. *)
Definition error_of (ev : event) : option exn :=
  match ev with
  | EvConnectAP _ _ (Err e) => Some e
  | EvPost _ _ _ (Err e) => Some e
  | EvGet _ (Err e) => Some e
  | EvJson _ (Err e) => Some e
  | EvText _ (Err e) => Some e
  | _ => None
  end.

Definition only_RuntimeErrors (evs : list event) : Prop :=
  forall ev e, In ev evs -> error_of ev = Some e -> is_RuntimeError e = true.

Section Radio.

Context {W : Type} `{Platform W}.
Variable cfg : credentials.

(** The radio stays down for the next [n] rounds of the loop of
    [connect]: it reports not-associated, and the association attempt
    returns or fails with a [RuntimeError] without bringing it up. *)
Fixpoint radio_down (n : nat) (w : W) : Prop :=
  match n with
  | O => True
  | S n' =>
      esp_is_connected w = false /\
      match esp_connect_AP (ssid cfg) (password cfg) w with
      | (Ok _, w1) => radio_down n' w1
      | (Err e, w1) => is_RuntimeError e = true /\ radio_down n' w1
      end
  end.

(** The radio comes up after exactly [n] rounds of the loop of [connect],
    in the state [wf]: it is down for [n] rounds, as above, and then
    reports that it is associated. *)
Fixpoint comes_up (n : nat) (w wf : W) : Prop :=
  match n with
  | O => esp_is_connected w = true /\ wf = w
  | S n' =>
      esp_is_connected w = false /\
      match esp_connect_AP (ssid cfg) (password cfg) w with
      | (Ok _, w1) => comes_up n' w1 wf
      | (Err e, w1) => is_RuntimeError e = true /\ comes_up n' w1 wf
      end
  end.

End Radio.

(** The settings the module insists on. *)
Definition required_settings : list string :=
  ["CIRCUITPY_WIFI_SSID"; "CIRCUITPY_WIFI_PASSWORD";
   "ADAFRUIT_AIO_USERNAME"; "ADAFRUIT_AIO_KEY"].

(** The reply of the time service in the example of the specification,
    and the calendar tuple it stands for. *)
Definition sample_reply : string := "2023-05-01 14:30:00.123 121 1 +0000 UTC".

(** The first log line of [refresh_local_time]. *)
Definition timezone_log (env : gmap string string) : event :=
  match getenv env "timezone" with
  | Some (String _ _) => EvLog DEBUG "Getting time for timezone %s"
  | _ => EvLog DEBUG "Getting time from IP address"
  end.

Definition sample_time : struct_time :=
  {| tm_year := 2023; tm_mon := 5; tm_mday := 1;
     tm_hour := 14; tm_min := 30; tm_sec := 0;
     tm_wday := 1; tm_yday := 121; tm_isdst := None |}.

(** ** The shape of the runs of [post] *)

(** The interactions of the [except RuntimeError] handler of [post] up to
    the entry into [connect]: two log lines, the reset, and the log line
    [connect] starts with. *)
Definition recovery : list event :=
  [EvLog ERROR "Error posting: %s"; EvLog INFO "Resetting and reconnecting";
   EvReset; connecting_log].

(** The log lines between the receipt of a response and [r.json()]. *)
Definition status_logs (r : Response) : list event :=
  if status_code r =? 200
  then [EvLog INFO "Status: %d"; EvLog DEBUG "Headers: %s"]
  else [EvLog INFO "Status: %d"].

Definition text_log : event := EvLog DEBUG "Text: %s".

(** The first interactions of [post]: two log lines and the entry into
    [connect]. *)
Definition post_header : list event :=
  [EvLog INFO "POSTing to %s"; EvLog INFO "payload: %s"; connecting_log].

(** A [connect] that does not return: the run is cut off inside it, or an
    association attempt raises something that is not a [RuntimeError]. *)
Inductive stopped {A : Type} : outcome A -> list event -> Prop :=
  | stopped_cut body : stopped OutOfFuel body
  | stopped_raise e s p pre :
      is_RuntimeError e = false ->
      stopped (Raise e) (pre ++ [EvConnectAP s p (Err e)]).

Section Shape.

Variables (url : string) (hdrs : list (string * string)) (payload : Payload).

(** An attempt that the handler catches: the POST or the decoding of the
    body raises a [RuntimeError]. *)
Inductive failed_attempt : list event -> Prop :=
  | failed_post e :
      is_RuntimeError e = true ->
      failed_attempt [EvPost url hdrs payload (Err e)]
  | failed_json r e :
      is_RuntimeError e = true ->
      failed_attempt
        (EvPost url hdrs payload (Ok r) :: status_logs r ++ [EvJson r (Err e)]).

(** The runs of the retry loop entered with the counter at [tries]. *)
Inductive loop_run : Z -> outcome bool -> list event -> Prop :=
  | run_cut tries : loop_run tries OutOfFuel []
  | run_give_up : loop_run 5 (Ret false) []
  | run_break tries r j :
      tries <> 5 ->
      loop_run tries (Ret (status_code r =? 200))
        (EvPost url hdrs payload (Ok r)
           :: status_logs r ++ [EvJson r (Ok j); text_log; EvClose r])
  | run_post_raises tries e :
      tries <> 5 -> is_RuntimeError e = false ->
      loop_run tries (Raise e) [EvPost url hdrs payload (Err e)]
  | run_json_raises tries r e :
      tries <> 5 -> is_RuntimeError e = false ->
      loop_run tries (Raise e)
        (EvPost url hdrs payload (Ok r) :: status_logs r ++ [EvJson r (Err e)])
  | run_retry tries failed body out rest :
      tries <> 5 -> failed_attempt failed -> Forall assoc_event body ->
      loop_run (tries + 1) out rest ->
      loop_run tries out (failed ++ recovery ++ body ++ rest)
  | run_stopped tries failed body out :
      tries <> 5 -> failed_attempt failed -> Forall assoc_event body ->
      stopped out body ->
      loop_run tries out (failed ++ recovery ++ body).

(** The runs of [post]. *)
Inductive post_run : outcome bool -> list event -> Prop :=
  | post_connected body out rest :
      Forall assoc_event body -> loop_run 0 out rest ->
      post_run out (post_header ++ body ++ rest)
  | post_stopped body out :
      Forall assoc_event body -> stopped out body ->
      post_run out (post_header ++ body).

End Shape.

Section Recover.

Context {W : Type} `{Platform W}.
Variable cfg : credentials.

(** The handler of [post] and the rest of the loop, after the
    interactions [failed] of the attempt that raised. *)
Definition recover (cfuel : nat) (api_url : string) (payload : Payload)
    (fuel : nat) (tries : Z) (failed : list event) (w : W)
    : outcome bool * W * list event :=
  let '(o, w2, body) := connect_loop cfg cfuel (esp_reset w) in
  match o with
  | Ret _ =>
      let '(o', w3, rest) :=
        post_loop cfg cfuel api_url payload fuel (tries + 1) w2 in
      (o', w3, failed ++ recovery ++ body ++ rest)
  | Raise e => (Raise e, w2, failed ++ recovery ++ body)
  | OutOfFuel => (OutOfFuel, w2, failed ++ recovery ++ body)
  end.

End Recover.

(** HTTP interactions, as opposed to log lines and radio calls. *)
Definition is_http (ev : event) : bool :=
  match ev with
  | EvPost _ _ _ _ | EvJson _ _ => true
  | _ => false
  end.

Definition quiet (evs : list event) : Prop :=
  Forall (fun ev => is_http ev = false) evs.

(** ** More observations, and the pure core of the time parser *)

(** The number of radio resets, of closed responses, of GET requests and
    of status reads that answer "not associated". *)
Fixpoint resets (evs : list event) : nat :=
  match evs with
  | [] => O
  | EvReset :: evs' => S (resets evs')
  | _ :: evs' => resets evs'
  end.

Fixpoint closes (evs : list event) : nat :=
  match evs with
  | [] => O
  | EvClose _ :: evs' => S (closes evs')
  | _ :: evs' => closes evs'
  end.

Fixpoint gets (evs : list event) : nat :=
  match evs with
  | [] => O
  | EvGet _ _ :: evs' => S (gets evs')
  | _ :: evs' => gets evs'
  end.

Fixpoint down_reads (evs : list event) : nat :=
  match evs with
  | [] => O
  | EvIsConnected false :: evs' => S (down_reads evs')
  | _ :: evs' => down_reads evs'
  end.

(** The number of responses received for a POST, and of failed
    decodings of a body. *)
Fixpoint received (evs : list event) : nat :=
  match evs with
  | [] => O
  | EvPost _ _ _ (Ok _) :: evs' => S (received evs')
  | _ :: evs' => received evs'
  end.

Fixpoint undecoded (evs : list event) : nat :=
  match evs with
  | [] => O
  | EvJson _ (Err _) :: evs' => S (undecoded evs')
  | _ :: evs' => undecoded evs'
  end.

(** What [except KeyError as exc: raise KeyError(...) from exc] makes of
    an exception raised in the [try] block of [refresh_local_time]. *)
Definition reraise (e : exn) : exn :=
  if is_KeyError e then lookup_error else e.

Definition and_then {A B : Type} (r : reply A) (f : A -> reply B) : reply B :=
  match r with
  | Ok a => f a
  | Err e => Err e
  end.

(** The computation [refresh_local_time] makes on the body of the reply
    (lines 145 to 157), in the order of the source: the four fields, then
    the date, then the time of day. *)
Definition parse_reply (body : string) : reply struct_time :=
  let times := py_split " " body in
  and_then (py_index times 0) (fun the_date =>
  and_then (py_index times 1) (fun the_time =>
  and_then (py_index times 2) (fun f2 =>
  and_then (py_int f2) (fun year_day =>
  and_then (py_index times 3) (fun f3 =>
  and_then (py_int f3) (fun week_day =>
  and_then (int_list (py_split "-" the_date)) (fun ymd =>
  and_then (unpack3 ymd) (fun ymd3 =>
  let '(year, month, mday) := ymd3 in
  and_then (py_index (py_split "." the_time) 0) (fun the_time0 =>
  and_then (int_list (py_split ":" the_time0)) (fun hms =>
  and_then (unpack3 hms) (fun hms3 =>
  let '(hours, minutes, seconds) := hms3 in
  Ok {| tm_year := year; tm_mon := month; tm_mday := mday;
        tm_hour := hours; tm_min := minutes; tm_sec := seconds;
        tm_wday := week_day; tm_yday := year_day;
        tm_isdst := None |}))))))))))).

(** Decimal numerals: one or more ASCII digits, and their value. *)
Definition is_digit (c : ascii) : bool :=
  match digit_of c with Some _ => true | None => false end.

Definition is_digits (s : string) : bool :=
  match list_ascii_of_string s with
  | [] => false
  | cs => forallb is_digit cs
  end.

Definition number (s : string) : Z :=
  match digits (list_ascii_of_string s) 0 with
  | Some n => n
  | None => 0
  end.

(** [c] does not occur in [s]. *)
Fixpoint lacks (c : ascii) (s : string) : bool :=
  match s with
  | EmptyString => true
  | String c' s' => negb (Ascii.eqb c' c) && lacks c s'
  end.

(** A reply in the layout the client asks the time service for,
    [%Y-%m-%d %H:%M:%S.%L %j %u %z %Z]: eight numerals, the fraction of
    the second and the rest of the line. *)
Definition layout (Y M D h m s frac j u rest : string) : string :=
  Y +:+ "-" +:+ M +:+ "-" +:+ D +:+ " " +:+
  h +:+ ":" +:+ m +:+ ":" +:+ s +:+ "." +:+ frac +:+ " " +:+
  j +:+ " " +:+ u +:+ " " +:+ rest.

(** ** Start-up of the client: AIO.__init__ and the property onboard_esp *)

(** [hex(i)], [s[i:j]] and [sep.join(l)]. *)
Definition hex (i : Z) : string := HexString.of_Z i.

Definition py_slice (s : string) (i j : nat) : string := substring i (j - i) s.

Definition py_join (sep : string) (l : list string) : string :=
  String.concat sep l.

Module Bringup.

(** The exceptions of start-up: [AttributeError], which [board.X] raises
    for a name the board does not define, besides the classes above. *)
Inductive py_exn : Type :=
  | AttributeError (msg : string)
  | Builtin (e : exn).

Definition is_AttributeError (e : py_exn) : bool :=
  match e with AttributeError _ => true | Builtin _ => false end.

Definition no_attribute (name : string) : py_exn :=
  AttributeError ("'module' object has no attribute '" +:+ name +:+ "'").

Inductive result (A : Type) : Type :=
  | Done (a : A)
  | Failed (e : py_exn).
Arguments Done {A} a.
Arguments Failed {A} e.

(** A pin of the microcontroller.  The objects of the vendor libraries
    are identified by what they were built on: a [DigitalInOut] by its
    pin, the SPI bus by its three pins, the radio by its bus and its three
    control lines. *)
Definition Pin : Type := string.

Record SPI : Type := { clock : Pin; MOSI : Pin; MISO : Pin }.

Record ESP_SPIcontrol : Type := {
  esp_spi : SPI; cs_dio : Pin; ready_dio : Pin; reset_dio : Pin
}.

(** The attributes [__init__] sets on [self]. *)
Record AIO : Type := { _onboard_esp : bool; _esp : ESP_SPIcontrol }.

Definition onboard_esp (self : AIO) : bool := _onboard_esp self.

(** The interactions of start-up.  A logger call is recorded with its
    level, its format string and the arguments passed. *)
Inductive event : Type :=
  | EvDigitalInOut (pin : Pin) (r : result unit)
  | EvSPI (bus : SPI) (r : result unit)
  | EvESP (esp : ESP_SPIcontrol) (r : result unit)
  | EvStatus (esp : ESP_SPIcontrol) (r : result Z)
  | EvFirmware (esp : ESP_SPIcontrol) (r : result string)
  | EvMAC (esp : ESP_SPIcontrol) (r : result (list Byte.byte))
  | EvLog (lvl : level) (fmt : string) (args : list string)
  | EvSetInterface (esp : ESP_SPIcontrol) (r : result unit).

(** The board and the vendor libraries at start-up.  [board] gives the
    pin a name of the module [board] stands for, if the board defines it;
    every call may fail and may change the state [B] of the hardware. *)
Class Board (B : Type) : Type := {
  board : string -> option Pin;
  digitalio_DigitalInOut : Pin -> B -> result unit * B;
  busio_SPI : SPI -> B -> result unit * B;
  esp32spi_ESP_SPIcontrol : ESP_SPIcontrol -> B -> result unit * B;
  esp_status : ESP_SPIcontrol -> B -> result Z * B;
  esp_firmware_version : ESP_SPIcontrol -> B -> result string * B;
  esp_MAC_address : ESP_SPIcontrol -> B -> result (list Byte.byte) * B;
  requests_set_interface : ESP_SPIcontrol -> B -> result unit * B;
  WL_IDLE_STATUS : Z
}.
Arguments board {B _} name.
Arguments WL_IDLE_STATUS {B _}.

Section Init.

Context {B : Type} `{Board B}.

Definition M (A : Type) : Type := B -> result A * B * list event.

Definition ret {A : Type} (a : A) : M A := fun b => (Done a, b, []).

Definition raise {A : Type} (e : py_exn) : M A := fun b => (Failed e, b, []).

Definition bind {A C : Type} (m : M A) (f : A -> M C) : M C :=
  fun b =>
    match m b with
    | (Done a, b1, t1) => let '(o, b2, t2) := f a b1 in (o, b2, t1 ++ t2)
    | (Failed e, b1, t1) => (Failed e, b1, t1)
    end.

(** [try: m  except C: h], where [catches] tells the class [C]. *)
Definition try_except {A : Type} (m : M A) (catches : py_exn -> bool)
    (h : M A) : M A :=
  fun b =>
    match m b with
    | (Failed e, b1, t1) =>
        if catches e
        then let '(o, b2, t2) := h b1 in (o, b2, t1 ++ t2)
        else (Failed e, b1, t1)
    | r => r
    end.

Notation "x <- m ;; k" := (bind m (fun x => k))
  (at level 100, m at next level, right associativity).
Notation "m ;;; k" := (bind m (fun _ => k))
  (at level 100, right associativity).

Definition call {A : Type} (prim : B -> result A * B) (ev : result A -> event)
    : M A :=
  fun b => let '(r, b1) := prim b in (r, b1, [ev r]).

Definition logger (lvl : level) (fmt : string) (args : list string) : M unit :=
  fun b => (Done tt, b, [EvLog lvl fmt args]).

(** [board.name]. *)
Definition board_attr (name : string) : M Pin :=
  match board (B := B) name with
  | Some pin => ret pin
  | None => raise (no_attribute name)
  end.

Definition DigitalInOut (pin : Pin) : M Pin :=
  call (digitalio_DigitalInOut pin) (EvDigitalInOut pin) ;;;
  ret pin.

(** The text of the MAC address in the log: [hex(i)[2:4]] for each byte,
    joined with colons. *)
Definition mac_text (mac : list Byte.byte) : string :=
  py_join ":" (map (fun i => py_slice (hex (Z.of_N (Byte.to_N i))) 2 4) mac).

Definition __init__ : M AIO :=
  pins <- try_except
            (pin <- board_attr "ESP_CS" ;;
             esp32_cs <- DigitalInOut pin ;;
             pin <- board_attr "ESP_BUSY" ;;
             esp32_busy <- DigitalInOut pin ;;
             pin <- board_attr "ESP_RESET" ;;
             esp32_reset <- DigitalInOut pin ;;
             ret (esp32_cs, esp32_busy, esp32_reset, true))
            is_AttributeError
            (pin <- board_attr "D10" ;;
             esp32_cs <- DigitalInOut pin ;;
             pin <- board_attr "D9" ;;
             esp32_busy <- DigitalInOut pin ;;
             pin <- board_attr "D6" ;;
             esp32_reset <- DigitalInOut pin ;;
             ret (esp32_cs, esp32_busy, esp32_reset, false)) ;;
  let '(esp32_cs, esp32_busy, esp32_reset, onboard) := pins in
  sck <- board_attr "SCK" ;;
  mosi <- board_attr "MOSI" ;;
  miso <- board_attr "MISO" ;;
  let spi := {| clock := sck; MOSI := mosi; MISO := miso |} in
  call (busio_SPI spi) (EvSPI spi) ;;;
  let esp := {| esp_spi := spi; cs_dio := esp32_cs; ready_dio := esp32_busy;
                reset_dio := esp32_reset |} in
  call (esp32spi_ESP_SPIcontrol esp) (EvESP esp) ;;;
  status <- call (esp_status esp) (EvStatus esp) ;;
  (if status =? WL_IDLE_STATUS (B := B)
   then logger DEBUG "ESP32 found and in idle mode" []
   else ret tt) ;;;
  firmware_version <- call (esp_firmware_version esp) (EvFirmware esp) ;;
  logger INFO "Firmware vers. %s" [firmware_version] ;;;
  mac <- call (esp_MAC_address esp) (EvMAC esp) ;;
  logger INFO "MAC addr: %s" [mac_text mac] ;;;
  call (requests_set_interface esp) (EvSetInterface esp) ;;;
  ret {| _onboard_esp := onboard; _esp := esp |}.

(** The two phases of [__init__]: the three control lines taken from the
    names [a], [b] and [c] of the board, and what follows the choice of
    the lines. *)
Definition claim (a b c : string) (onboard : bool)
    : M (Pin * Pin * Pin * bool) :=
  pin <- board_attr a ;;
  esp32_cs <- DigitalInOut pin ;;
  pin <- board_attr b ;;
  esp32_busy <- DigitalInOut pin ;;
  pin <- board_attr c ;;
  esp32_reset <- DigitalInOut pin ;;
  ret (esp32_cs, esp32_busy, esp32_reset, onboard).

Definition start (pins : Pin * Pin * Pin * bool) : M AIO :=
  let '(esp32_cs, esp32_busy, esp32_reset, onboard) := pins in
  sck <- board_attr "SCK" ;;
  mosi <- board_attr "MOSI" ;;
  miso <- board_attr "MISO" ;;
  let spi := {| clock := sck; MOSI := mosi; MISO := miso |} in
  call (busio_SPI spi) (EvSPI spi) ;;;
  let esp := {| esp_spi := spi; cs_dio := esp32_cs; ready_dio := esp32_busy;
                reset_dio := esp32_reset |} in
  call (esp32spi_ESP_SPIcontrol esp) (EvESP esp) ;;;
  status <- call (esp_status esp) (EvStatus esp) ;;
  (if status =? WL_IDLE_STATUS (B := B)
   then logger DEBUG "ESP32 found and in idle mode" []
   else ret tt) ;;;
  firmware_version <- call (esp_firmware_version esp) (EvFirmware esp) ;;
  logger INFO "Firmware vers. %s" [firmware_version] ;;;
  mac <- call (esp_MAC_address esp) (EvMAC esp) ;;
  logger INFO "MAC addr: %s" [mac_text mac] ;;;
  call (requests_set_interface esp) (EvSetInterface esp) ;;;
  ret {| _onboard_esp := onboard; _esp := esp |}.

End Init.

(** The error a vendor call of start-up answered with. *)
Definition failure_of (ev : event) : option py_exn :=
  match ev with
  | EvDigitalInOut _ (Failed e) | EvSPI _ (Failed e) | EvESP _ (Failed e)
  | EvStatus _ (Failed e) | EvFirmware _ (Failed e) | EvMAC _ (Failed e)
  | EvSetInterface _ (Failed e) => Some e
  | _ => None
  end.

(** The pins claimed with [DigitalInOut], in order. *)
Fixpoint claimed (evs : list event) : list Pin :=
  match evs with
  | [] => []
  | EvDigitalInOut pin (Done _) :: evs' => pin :: claimed evs'
  | _ :: evs' => claimed evs'
  end.

(** A scripted kit: a board that defines the names of [names], pins that
    can be claimed once, and a radio that answers with a fixed status,
    firmware version and MAC address. *)
Record kit : Type := {
  in_use : list Pin;
  bound : option ESP_SPIcontrol
}.

Definition take (pin : Pin) (k : kit) : result unit * kit :=
  if existsb (String.eqb pin) (in_use k)
  then (Failed (Builtin (Exn ValueError (pin +:+ " in use"))), k)
  else (Done tt, {| in_use := pin :: in_use k; bound := bound k |}).

Definition kit_board (names : list (string * Pin)) (mac : list Byte.byte)
    : Board kit := {|
  board := fun name =>
    match find (fun nv => String.eqb name (fst nv)) names with
    | Some nv => Some (snd nv)
    | None => None
    end;
  digitalio_DigitalInOut := take;
  busio_SPI := fun _ k => (Done tt, k);
  esp32spi_ESP_SPIcontrol := fun _ k => (Done tt, k);
  esp_status := fun _ k => (Done 0, k);
  esp_firmware_version := fun _ k => (Done "1.7.4", k);
  esp_MAC_address := fun _ k => (Done mac, k);
  requests_set_interface :=
    fun esp k => (Done tt, {| in_use := in_use k; bound := Some esp |});
  WL_IDLE_STATUS := 0
|}.

(** A board with the radio on board, one that takes the radio on a
    shield, one that defines [ESP_CS] but not the other two radio lines,
    and one without the pins of a shield. *)
Definition airlift_board : list (string * Pin) :=
  [("ESP_CS", "PB14"); ("ESP_BUSY", "PB17"); ("ESP_RESET", "PB15");
   ("D10", "PA18"); ("D9", "PA20"); ("D6", "PA15");
   ("SCK", "PA13"); ("MOSI", "PA12"); ("MISO", "PA14")].

Definition shield_board : list (string * Pin) :=
  [("D10", "PA18"); ("D9", "PA20"); ("D6", "PA15");
   ("SCK", "PA13"); ("MOSI", "PA12"); ("MISO", "PA14")].

Definition partial_board : list (string * Pin) :=
  [("ESP_CS", "PB14");
   ("D10", "PA18"); ("D9", "PA20"); ("D6", "PA15");
   ("SCK", "PA13"); ("MOSI", "PA12"); ("MISO", "PA14")].

Definition bare_board : list (string * Pin) :=
  [("SCK", "PA13"); ("MOSI", "PA12"); ("MISO", "PA14")].

Definition sample_mac : list Byte.byte :=
  [Byte.x24; Byte.x0a; Byte.xc4; Byte.x00; Byte.x5f; Byte.x09].

Definition power_on : kit := {| in_use := []; bound := None |}.

(** The radio object [__init__] builds on the board with the radio on
    board. *)
Definition airlift_radio : ESP_SPIcontrol :=
  {| esp_spi := {| clock := "PA13"; MOSI := "PA12"; MISO := "PA14" |};
     cs_dio := "PB14"; ready_dio := "PB17"; reset_dio := "PB15" |}.

End Bringup.

(** More scripted platforms: an access point that refuses the SSID with
    an error that is not a [RuntimeError]; a radio that never associates
    within six attempts; a time service whose GET fails with a
    [KeyError]. *)
Definition no_such_ssid : exn := Exn OSError "No such ssid".

(** A radio whose first two association attempts fail: the state it
    comes up in, and what [connect] does on it. *)
Definition joined_late : Sim.world :=
  {| Sim.associated := true; Sim.aps := []; Sim.posts := []; Sim.jsons := [];
     Sim.get_reply := Err Sim.transport_error;
     Sim.body := Err Sim.transport_error; Sim.rtc := None; Sim.closed := [] |}.

Definition third_time_lucky : list event :=
  [EvLog DEBUG "Connecting...";
   EvIsConnected false;
   EvConnectAP "net" "secret" (Err Sim.transport_error);
   EvLog ERROR "could not connect to AP, retrying: %s";
   EvIsConnected false;
   EvConnectAP "net" "secret" (Err Sim.transport_error);
   EvLog ERROR "could not connect to AP, retrying: %s";
   EvIsConnected false;
   EvConnectAP "net" "secret" (Ok tt);
   EvIsConnected true].

Definition refused : Sim.world := Sim.boot [Err no_such_ssid] [] [].

Definition stubborn : Sim.world :=
  Sim.boot (repeat (Err Sim.transport_error) 6) [] [].

Definition missing_key : exn := Exn KeyError "content-length".

Definition lookup_failure : Sim.world :=
  {| Sim.associated := true; Sim.aps := []; Sim.posts := []; Sim.jsons := [];
     Sim.get_reply := Err missing_key; Sim.body := Err Sim.transport_error;
     Sim.rtc := None; Sim.closed := [] |}.

(** * Properties *)

(** ** Interaction lists *)

Lemma attempts_app (l1 l2 : list event) :
  attempts (l1 ++ l2) = (attempts l1 + attempts l2)%nat.
Proof.
  induction l1 as [|ev l1 IH]; [reflexivity|].
  destruct ev; cbn; rewrite IH; reflexivity.
Qed.

Lemma quiet_attempts (evs : list event) : quiet evs -> attempts evs = O.
Proof.
  induction 1 as [|ev evs Hev _ IH]; [reflexivity|].
  destruct ev; cbn; auto; discriminate.
Qed.

Lemma quiet_not_in (evs : list event) (ev : event) :
  quiet evs -> is_http ev = true -> ~ In ev evs.
Proof.
  intros Hq Hev Hin. unfold quiet in Hq. rewrite Forall_forall in Hq.
  apply list_elem_of_In, Hq in Hin. congruence.
Qed.

Lemma assoc_quiet (body : list event) : Forall assoc_event body -> quiet body.
Proof.
  unfold quiet. intros Hb. eapply Forall_impl; [exact Hb|].
  intros ev Hev. destruct ev; cbn in *; first [reflexivity | tauto].
Qed.

Lemma quiet_recovery : quiet recovery.
Proof. repeat constructor. Qed.

Lemma quiet_post_header : quiet post_header.
Proof. repeat constructor. Qed.

Lemma quiet_status_logs (r : Response) : quiet (status_logs r).
Proof. unfold status_logs. destruct (status_code r =? 200); repeat constructor. Qed.

Lemma quiet_app (l1 l2 : list event) : quiet l1 -> quiet l2 -> quiet (l1 ++ l2).
Proof. unfold quiet. intros. apply Forall_app. auto. Qed.

(** An HTTP interaction of [l1 ++ l2] lies in [l2] when [l1] is quiet. *)
Lemma skip_quiet (l1 l2 pre suf : list event) (ev : event) :
  quiet l1 -> is_http ev = true ->
  l1 ++ l2 = pre ++ ev :: suf ->
  exists pre', pre = l1 ++ pre' /\ l2 = pre' ++ ev :: suf.
Proof.
  intros Hq Hev. revert pre.
  induction Hq as [|y l1 Hy Hq IH]; intros pre Heq.
  - exists pre. auto.
  - destruct pre as [|z pre]; cbn in Heq.
    + injection Heq as -> _. congruence.
    + injection Heq as -> Heq.
      destruct (IH _ Heq) as (pre' & -> & ->). exists pre'. auto.
Qed.

(** The position of an interaction in [l1 ++ l2]. *)
Lemma split_app (l1 l2 pre suf : list event) (ev : event) :
  l1 ++ l2 = pre ++ ev :: suf ->
  (exists mid, l1 = pre ++ ev :: mid /\ suf = mid ++ l2) \/
  (exists pre', pre = l1 ++ pre' /\ l2 = pre' ++ ev :: suf).
Proof.
  revert pre. induction l1 as [|y l1 IH]; intros pre Heq.
  - right. exists pre. auto.
  - destruct pre as [|z pre]; cbn in Heq.
    + injection Heq as -> <-. left. exists l1. auto.
    + injection Heq as -> Heq.
      destruct (IH _ Heq) as [(mid & -> & ->)|(pre' & -> & ->)].
      * left. exists mid. auto.
      * right. exists pre'. auto.
Qed.

(** ** Start-up configuration *)

(** C8.  Importing the module raises the settings [RuntimeError] exactly
    when one of the four required settings is missing, and yields the
    credentials a client is built from, read from the four settings,
    exactly when all four are present. *)
Theorem import_fails_iff_setting_missing (env : gmap string string) :
  (import_aio env = Err settings_error <->
   exists k, In k required_settings /\ env !! k = None) /\
  ((exists c, import_aio env = Ok c) <->
   forall k, In k required_settings -> exists v, env !! k = Some v) /\
  (forall c, import_aio env = Ok c ->
     env !! "CIRCUITPY_WIFI_SSID" = Some (ssid c) /\
     env !! "CIRCUITPY_WIFI_PASSWORD" = Some (password c) /\
     env !! "ADAFRUIT_AIO_USERNAME" = Some (aio_username c) /\
     env !! "ADAFRUIT_AIO_KEY" = Some (aio_key c)) /\
  is_RuntimeError settings_error = true.
Proof.
  unfold import_aio, getenv, required_settings.
  destruct (env !! "CIRCUITPY_WIFI_SSID") as [s|] eqn:Hs;
  destruct (env !! "CIRCUITPY_WIFI_PASSWORD") as [p|] eqn:Hp;
  destruct (env !! "ADAFRUIT_AIO_USERNAME") as [u|] eqn:Hu;
  destruct (env !! "ADAFRUIT_AIO_KEY") as [k|] eqn:Hk; cbn;
  (split; [split|split; [split|split; [|reflexivity]]]);
  try discriminate; try (intros [? ?]; discriminate);
  try (intros c Hc; injection Hc as <-; cbn; auto; fail);
  try (intros _; eauto 10; fail);
  try (intros (k' & Hin & Hnone);
       repeat (destruct Hin as [<-|Hin]; [congruence|]); destruct Hin);
  try (intros Hall;
       first [ destruct (Hall "CIRCUITPY_WIFI_SSID") as [? ?]; [auto|congruence]
             | destruct (Hall "CIRCUITPY_WIFI_PASSWORD") as [? ?];
               [auto|congruence]
             | destruct (Hall "ADAFRUIT_AIO_USERNAME") as [? ?];
               [auto 10|congruence]
             | destruct (Hall "ADAFRUIT_AIO_KEY") as [? ?];
               [auto 10|congruence] ]).
  intros _ k' Hin.
  repeat (destruct Hin as [<-|Hin]; [eauto|]). destruct Hin.
Qed.

(** ** AIO.connect *)

Section ConnectFacts.

Context {W : Type} `{Platform W}.
Variable cfg : credentials.

Lemma connect_loop_S (fuel : nat) (w : W) :
  connect_loop cfg (S fuel) w =
  if esp_is_connected w then (Ret tt, w, [EvIsConnected true])
  else
    match esp_connect_AP (ssid cfg) (password cfg) w with
    | (Ok u, w1) =>
        let '(o, w2, t) := connect_loop cfg fuel w1 in
        (o, w2, EvIsConnected false
                  :: EvConnectAP (ssid cfg) (password cfg) (Ok u) :: t)
    | (Err e, w1) =>
        if is_RuntimeError e then
          let '(o, w2, t) := connect_loop cfg fuel w1 in
          (o, w2, EvIsConnected false
                    :: EvConnectAP (ssid cfg) (password cfg) (Err e)
                    :: retry_log :: t)
        else
          (Raise e, w1,
           [EvIsConnected false; EvConnectAP (ssid cfg) (password cfg) (Err e)])
    end.
Proof.
  cbn [connect_loop].
  unfold bind, is_connected, try_except, connect_AP, call, logger, emit, ret.
  destruct (esp_is_connected w); cbn; [reflexivity|].
  destruct (esp_connect_AP (ssid cfg) (password cfg) w) as [[u|e] w1]; cbn.
  - destruct (connect_loop cfg fuel w1) as [[o w2] t]; reflexivity.
  - destruct (is_RuntimeError e); cbn; [|reflexivity].
    destruct (connect_loop cfg fuel w1) as [[o w2] t]; reflexivity.
Qed.

Lemma connect_unfold (fuel : nat) (w : W) :
  connect cfg fuel w =
  let '(o, w', t) := connect_loop cfg fuel w in (o, w', connecting_log :: t).
Proof.
  unfold connect, bind, logger, emit. cbn.
  destruct (connect_loop cfg fuel w) as [[o w'] t]; reflexivity.
Qed.

(** Case analysis on one iteration of the loop of [connect]. *)
Ltac connect_step Hrun :=
  rewrite connect_loop_S in Hrun;
  let Hc := fresh "Hc" in
  let Hap := fresh "Hap" in
  let Hrt := fresh "Hrt" in
  let Hl := fresh "Hl" in
  match type of Hrun with
  | context [esp_is_connected ?w] => destruct (esp_is_connected w) eqn:Hc
  end;
  [ | match type of Hrun with
      | context [esp_connect_AP ?s ?p ?w] =>
          destruct (esp_connect_AP s p w) as [[?u|?e] ?w1] eqn:Hap
      end;
      [ | match type of Hrun with
          | context [is_RuntimeError ?e] =>
              destruct (is_RuntimeError e) eqn:Hrt
          end ];
      try match type of Hrun with
          | context [connect_loop ?c ?f ?w] =>
              destruct (connect_loop c f w) as [[?o ?w2] ?t] eqn:Hl
          end ];
  injection Hrun as <- <- <-.

(** The position of an event in the trace of one iteration. *)
Ltac split2 pre := destruct pre as [|? [|? pre]].
Ltac split3 pre := destruct pre as [|? [|? [|? pre]]].

Lemma connect_loop_events (fuel : nat) (w w' : W) out evs :
  connect_loop cfg fuel w = (out, w', evs) -> Forall assoc_event evs.
Proof.
  revert w w' out evs.
  induction fuel as [|fuel IH]; intros w w' out evs Hrun.
  - injection Hrun as <- <- <-. constructor.
  - connect_step Hrun; repeat (constructor; [exact I|]);
      try constructor; eauto.
Qed.

Lemma connect_loop_returns (fuel : nat) (w w' : W) out evs :
  connect_loop cfg fuel w = (out, w', evs) ->
  (out = Ret tt <-> exists pre, evs = pre ++ [EvIsConnected true]) /\
  (out = Ret tt -> esp_is_connected w' = true).
Proof.
  revert w w' out evs.
  induction fuel as [|fuel IH]; intros w w' out evs Hrun.
  - injection Hrun as <- <- <-. split; [split|]; try discriminate.
    intros [[|? ?] Hpre]; discriminate.
  - connect_step Hrun.
    + split; [split|]; auto. intros _. exists []. reflexivity.
    + destruct (IH _ _ _ _ Hl) as [[Hto Hfrom] Hst]. split; [split|]; auto.
      * intros Hret. destruct (Hto Hret) as [pre ->].
        exists (EvIsConnected false
                  :: EvConnectAP (ssid cfg) (password cfg) (Ok u) :: pre).
        reflexivity.
      * intros [pre Hpre]. apply Hfrom.
        destruct pre as [|? [|? pre]]; try discriminate.
        injection Hpre as _ _ ->. eauto.
    + destruct (IH _ _ _ _ Hl) as [[Hto Hfrom] Hst]. split; [split|]; auto.
      * intros Hret. destruct (Hto Hret) as [pre ->].
        exists (EvIsConnected false
                  :: EvConnectAP (ssid cfg) (password cfg) (Err e)
                  :: retry_log :: pre).
        reflexivity.
      * intros [pre Hpre]. apply Hfrom.
        destruct pre as [|? [|? [|? pre]]]; try discriminate.
        injection Hpre as _ _ _ ->. eauto.
    + split; [split|]; try discriminate.
      intros [pre Hpre].
      destruct pre as [|? [|? [|? pre]]]; discriminate.
Qed.

Lemma connect_loop_stops_on_association (fuel : nat) (w w' : W) out evs pre suf :
  connect_loop cfg fuel w = (out, w', evs) ->
  evs = pre ++ EvIsConnected true :: suf -> suf = [].
Proof.
  revert w w' out evs pre.
  induction fuel as [|fuel IH]; intros w w' out evs pre Hrun Hsplit.
  - injection Hrun as <- <- <-. destruct pre; discriminate.
  - connect_step Hrun;
      [split2 pre | split2 pre | split3 pre | split3 pre];
      simplify_eq/=; eauto.
Qed.

Lemma connect_loop_attempts_after_poll (fuel : nat) (w w' : W) out evs pre suf :
  connect_loop cfg fuel w = (out, w', evs) ->
  evs = pre ++ EvIsConnected false :: suf ->
  exists r suf', suf = EvConnectAP (ssid cfg) (password cfg) r :: suf'.
Proof.
  revert w w' out evs pre.
  induction fuel as [|fuel IH]; intros w w' out evs pre Hrun Hsplit.
  - injection Hrun as <- <- <-. destruct pre; discriminate.
  - connect_step Hrun;
      [split2 pre | split2 pre | split3 pre | split3 pre];
      simplify_eq/=; eauto.
Qed.

Lemma connect_loop_retries (fuel : nat) (w w' : W) out evs pre e suf :
  connect_loop cfg fuel w = (out, w', evs) ->
  evs = pre ++ EvConnectAP (ssid cfg) (password cfg) (Err e) :: suf ->
  is_RuntimeError e = true ->
  (suf = [retry_log] /\ out = OutOfFuel) \/
  (exists b suf', suf = retry_log :: EvIsConnected b :: suf').
Proof.
  revert w w' out evs pre.
  induction fuel as [|fuel IH]; intros w w' out evs pre Hrun Hsplit Hrte.
  - injection Hrun as <- <- <-. destruct pre; discriminate.
  - connect_step Hrun;
      [split2 pre | split2 pre | split3 pre | split3 pre];
      simplify_eq/=; eauto; try congruence.
    destruct fuel as [|fuel].
    + injection Hl as <- <- <-. left. split; reflexivity.
    + clear IH. connect_step Hl; right; eauto.
Qed.

Lemma connect_loop_no_limit (n fuel : nat) (w w' : W) out evs :
  connect_loop cfg fuel w = (out, w', evs) ->
  radio_down cfg n w -> (n <= fuel)%nat -> (n <= associations evs)%nat.
Proof.
  revert fuel w w' out evs.
  induction n as [|n IH]; intros fuel w w' out evs Hrun Hdown Hle.
  - lia.
  - destruct fuel as [|fuel]; [lia|].
    destruct Hdown as [Hpoll Hdown].
    connect_step Hrun; try congruence; cbn.
    + apply le_n_S. eapply IH; eauto. lia.
    + destruct Hdown as [_ Hdown]. apply le_n_S. eapply IH; eauto. lia.
    + destruct Hdown as [Hrte _]. congruence.
Qed.

(** An association attempt that returned is followed by the next read
    of the status, unless the run was cut off there. *)
Lemma connect_loop_polls_after_attempt (fuel : nat) (w w' : W) out evs
    pre u suf :
  connect_loop cfg fuel w = (out, w', evs) ->
  evs = pre ++ EvConnectAP (ssid cfg) (password cfg) (Ok u) :: suf ->
  (suf = [] /\ out = OutOfFuel) \/
  (exists b suf', suf = EvIsConnected b :: suf').
Proof.
  revert w w' out evs pre.
  induction fuel as [|fuel IH]; intros w w' out evs pre Hrun Hsplit.
  - injection Hrun as <- <- <-. destruct pre; discriminate.
  - connect_step Hrun;
      [split2 pre | split2 pre | split3 pre | split3 pre];
      simplify_eq/=; eauto.
    destruct fuel as [|fuel].
    + injection Hl as <- <- <-. left. split; reflexivity.
    + clear IH. connect_step Hl; right; eauto.
Qed.

(** Progress: a radio that comes up after [n] rounds makes the loop
    return after [n] association attempts, in the state it came up in. *)
Lemma connect_loop_comes_up (n fuel : nat) (w w' wf : W) out evs :
  connect_loop cfg fuel w = (out, w', evs) ->
  comes_up cfg n w wf -> (n < fuel)%nat ->
  out = Ret tt /\ w' = wf /\ associations evs = n.
Proof.
  revert fuel w w' out evs.
  induction n as [|n IH]; intros fuel w w' out evs Hrun Hup Hlt;
    (destruct fuel as [|fuel]; [lia|]).
  - destruct Hup as [Hc ->].
    rewrite connect_loop_S, Hc in Hrun. injection Hrun as <- <- <-. auto.
  - destruct Hup as [Hpoll Hup].
    connect_step Hrun; try congruence; cbn.
    + destruct (IH _ _ _ _ _ Hl Hup) as (-> & -> & ->); [lia|auto].
    + destruct Hup as [_ Hup].
      destruct (IH _ _ _ _ _ Hl Hup) as (-> & -> & ->); [lia|auto].
    + destruct Hup as [Hrte _]. congruence.
Qed.

(** The converse: a loop that returned met a radio that came up. *)
Lemma connect_loop_returned (fuel : nat) (w w' : W) evs :
  connect_loop cfg fuel w = (Ret tt, w', evs) ->
  exists n, comes_up cfg n w w' /\ (n < fuel)%nat /\ associations evs = n.
Proof.
  revert w w' evs.
  induction fuel as [|fuel IH]; intros w w' evs Hrun; [discriminate|].
  rewrite connect_loop_S in Hrun.
  destruct (esp_is_connected w) eqn:Hc.
  { injection Hrun as <- <-. exists O. cbn. split; [auto|]. split; [lia|auto]. }
  destruct (esp_connect_AP (ssid cfg) (password cfg) w) as [[u|e] w1] eqn:Hap.
  - destruct (connect_loop cfg fuel w1) as [[o w2] t] eqn:Hl.
    injection Hrun as -> <- <-.
    destruct (IH _ _ _ Hl) as (n & Hup & Hlt & Ha).
    exists (S n). cbn. rewrite Hc, Hap. split; [auto|]. split; [lia|].
    rewrite Ha. reflexivity.
  - destruct (is_RuntimeError e) eqn:Hrt; [|discriminate].
    destruct (connect_loop cfg fuel w1) as [[o w2] t] eqn:Hl.
    injection Hrun as -> <- <-.
    destruct (IH _ _ _ Hl) as (n & Hup & Hlt & Ha).
    exists (S n). cbn. rewrite Hc, Hap. split; [auto|]. split; [lia|].
    rewrite Ha. reflexivity.
Qed.

(** While the radio stays down the loop does not return. *)
Lemma connect_loop_stays (fuel : nat) (w w' : W) out evs :
  connect_loop cfg fuel w = (out, w', evs) ->
  radio_down cfg fuel w -> out = OutOfFuel.
Proof.
  revert w w' out evs.
  induction fuel as [|fuel IH]; intros w w' out evs Hrun Hdown.
  - injection Hrun as <- <- <-. reflexivity.
  - destruct Hdown as [Hpoll Hdown].
    connect_step Hrun; try congruence.
    + eapply IH; eauto.
    + destruct Hdown as [_ Hdown]. eapply IH; eauto.
    + destruct Hdown as [Hrte _]. congruence.
Qed.

Lemma connect_loop_raises (fuel : nat) (w w' : W) e evs :
  connect_loop cfg fuel w = (Raise e, w', evs) ->
  is_RuntimeError e = false /\
  exists pre, evs = pre ++ [EvConnectAP (ssid cfg) (password cfg) (Err e)].
Proof.
  revert w w' evs.
  induction fuel as [|fuel IH]; intros w w' evs Hrun; [discriminate|].
  rewrite connect_loop_S in Hrun.
  destruct (esp_is_connected w); [discriminate|].
  destruct (esp_connect_AP (ssid cfg) (password cfg) w) as [[u|e0] w1].
  - destruct (connect_loop cfg fuel w1) as [[o w2] t] eqn:Hl.
    injection Hrun as -> <- <-.
    destruct (IH _ _ _ Hl) as (Hrt & pre & ->). split; [exact Hrt|].
    exists (EvIsConnected false
              :: EvConnectAP (ssid cfg) (password cfg) (Ok u) :: pre).
    reflexivity.
  - destruct (is_RuntimeError e0) eqn:Hrt0.
    + destruct (connect_loop cfg fuel w1) as [[o w2] t] eqn:Hl.
      injection Hrun as -> <- <-.
      destruct (IH _ _ _ Hl) as (Hrt & pre & ->). split; [exact Hrt|].
      exists (EvIsConnected false
                :: EvConnectAP (ssid cfg) (password cfg) (Err e0)
                :: retry_log :: pre).
      reflexivity.
    + injection Hrun as <- <- <-. split; [exact Hrt0|].
      exists [EvIsConnected false]. reflexivity.
Qed.

Lemma connect_inv (fuel : nat) (w w' : W) out evs :
  connect cfg fuel w = (out, w', evs) ->
  exists body, evs = connecting_log :: body /\
               connect_loop cfg fuel w = (out, w', body).
Proof.
  rewrite connect_unfold.
  destruct (connect_loop cfg fuel w) as [[o w2] t].
  intros Hrun. injection Hrun as <- <- <-. eauto.
Qed.

(** C9.  When the radio already reports an associated state, [connect]
    returns at once: its whole run is the log line and one read of the
    status; no association attempt is made and the platform state is the
    one it was called in. *)
Theorem connect_noop_when_associated (fuel : nat) (w : W) :
  esp_is_connected w = true ->
  connect cfg (S fuel) w = (Ret tt, w, [connecting_log; EvIsConnected true]) /\
  associations [connecting_log; EvIsConnected true] = O.
Proof.
  intros Hc. split; [|reflexivity].
  rewrite connect_unfold, connect_loop_S, Hc. reflexivity.
Qed.

(** C6.  [connect] returns exactly when the radio reports association.
    On the platform: if the radio comes up after [n] rounds (it is down
    for [n] rounds, whatever the outcomes of the attempts, and then
    reports that it is associated), a run followed for more than [n]
    rounds returns, after exactly [n] association attempts and in the
    state the radio came up in; a run returns only in that way; and while
    the radio stays down the run does not return, and there is no attempt
    limit: a radio down for [n] rounds gets at least [n] attempts.  On
    the interactions: the run returns iff its last interaction is a
    status read that answers "associated", and then the radio is
    associated; nothing follows such a read; a read that answers "not
    associated" is always followed by an association attempt; an attempt
    that returned is followed by the next status read, and a failed one
    ([RuntimeError]) by the log line and the next status read, unless the
    run was cut off there. *)
Theorem connect_returns_exactly_on_association (fuel : nat) (w w' : W) out evs :
  connect cfg fuel w = (out, w', evs) ->
  (out = Ret tt <-> exists pre, evs = pre ++ [EvIsConnected true]) /\
  (out = Ret tt -> esp_is_connected w' = true) /\
  (forall pre suf, evs = pre ++ EvIsConnected true :: suf -> suf = []) /\
  (forall pre suf, evs = pre ++ EvIsConnected false :: suf ->
     exists r suf', suf = EvConnectAP (ssid cfg) (password cfg) r :: suf') /\
  (forall pre e suf,
     evs = pre ++ EvConnectAP (ssid cfg) (password cfg) (Err e) :: suf ->
     is_RuntimeError e = true ->
     (suf = [retry_log] /\ out = OutOfFuel) \/
     (exists b suf', suf = retry_log :: EvIsConnected b :: suf')) /\
  (forall n, radio_down cfg n w -> (n <= fuel)%nat ->
     (n <= associations evs)%nat) /\
  (forall pre u suf,
     evs = pre ++ EvConnectAP (ssid cfg) (password cfg) (Ok u) :: suf ->
     (suf = [] /\ out = OutOfFuel) \/
     (exists b suf', suf = EvIsConnected b :: suf')) /\
  (forall n wf, comes_up cfg n w wf -> (n < fuel)%nat ->
     out = Ret tt /\ w' = wf /\ associations evs = n) /\
  (out = Ret tt ->
   exists n, comes_up cfg n w w' /\ (n < fuel)%nat /\ associations evs = n) /\
  (radio_down cfg fuel w -> out = OutOfFuel).
Proof.
  intros Hrun. destruct (connect_inv _ _ _ _ _ Hrun) as (body & -> & Hloop).
  destruct (connect_loop_returns _ _ _ _ _ Hloop) as [[Hto Hfrom] Hst].
  split; [split|].
  { intros Hret. destruct (Hto Hret) as [pre ->].
    exists (connecting_log :: pre). reflexivity. }
  { intros [pre Hpre]. apply Hfrom.
    destruct pre as [|? pre]; [discriminate|].
    injection Hpre as _ ->. eauto. }
  split; [exact Hst|]. split.
  { intros pre suf Hsplit. destruct pre as [|? pre]; [discriminate|].
    injection Hsplit as _ Hsplit.
    eapply connect_loop_stops_on_association; eauto. }
  split.
  { intros pre suf Hsplit. destruct pre as [|? pre]; [discriminate|].
    injection Hsplit as _ Hsplit.
    eapply connect_loop_attempts_after_poll; eauto. }
  split.
  { intros pre e suf Hsplit Hrte. destruct pre as [|? pre]; [discriminate|].
    injection Hsplit as _ Hsplit.
    eapply connect_loop_retries; eauto. }
  split.
  { intros n Hdown Hle. cbn. eapply connect_loop_no_limit; eauto. }
  split.
  { intros pre u suf Hsplit. destruct pre as [|? pre]; [discriminate|].
    injection Hsplit as _ Hsplit.
    eapply connect_loop_polls_after_attempt; eauto. }
  split.
  { intros n wf Hup Hlt. cbn. eapply connect_loop_comes_up; eauto. }
  split.
  { intros ->. cbn. apply connect_loop_returned. exact Hloop. }
  intros Hdown. eapply connect_loop_stays; eauto.
Qed.

End ConnectFacts.

(** The radio is already up. *)
Lemma connect_noop_when_associated_witness :
  esp_is_connected (Sim.time_server "") = true /\
  connect Sim.creds 1 (Sim.time_server "") =
    (Ret tt, Sim.time_server "", [connecting_log; EvIsConnected true]) /\
  associations [connecting_log; EvIsConnected true] = O.
Proof.
  split; [reflexivity|].
  apply (connect_noop_when_associated Sim.creds 0 (Sim.time_server "")).
  reflexivity.
Defined.

(** Two failed associations, then success: the radio comes up after
    three rounds, and [connect] returns after three attempts. *)
Lemma connect_returns_exactly_on_association_witness :
  comes_up Sim.creds 3
    (Sim.boot [Err Sim.transport_error; Err Sim.transport_error] [] [])
    joined_late /\
  connect Sim.creds 4
    (Sim.boot [Err Sim.transport_error; Err Sim.transport_error] [] []) =
    (Ret tt, joined_late, third_time_lucky) /\
  associations third_time_lucky = 3%nat /\
  (Ret tt = Ret tt <->
   exists pre, third_time_lucky = pre ++ [EvIsConnected true]) /\
  (Ret tt = Ret tt -> esp_is_connected joined_late = true) /\
  (forall pre suf,
     third_time_lucky = pre ++ EvIsConnected true :: suf -> suf = []) /\
  (forall pre suf, third_time_lucky = pre ++ EvIsConnected false :: suf ->
     exists r suf',
       suf = EvConnectAP (ssid Sim.creds) (password Sim.creds) r :: suf') /\
  (forall pre e suf,
     third_time_lucky =
       pre ++ EvConnectAP (ssid Sim.creds) (password Sim.creds) (Err e)
           :: suf ->
     is_RuntimeError e = true ->
     (suf = [retry_log] /\ Ret tt = OutOfFuel) \/
     (exists b suf', suf = retry_log :: EvIsConnected b :: suf')) /\
  (forall n,
     radio_down Sim.creds n
       (Sim.boot [Err Sim.transport_error; Err Sim.transport_error] [] []) ->
     (n <= 4)%nat -> (n <= associations third_time_lucky)%nat) /\
  (forall pre u suf,
     third_time_lucky =
       pre ++ EvConnectAP (ssid Sim.creds) (password Sim.creds) (Ok u)
           :: suf ->
     (suf = [] /\ Ret tt = OutOfFuel) \/
     (exists b suf', suf = EvIsConnected b :: suf')) /\
  (forall n wf,
     comes_up Sim.creds n
       (Sim.boot [Err Sim.transport_error; Err Sim.transport_error] [] [])
       wf ->
     (n < 4)%nat ->
     Ret tt = Ret tt /\ joined_late = wf /\
     associations third_time_lucky = n) /\
  (Ret tt = Ret tt ->
   exists n,
     comes_up Sim.creds n
       (Sim.boot [Err Sim.transport_error; Err Sim.transport_error] [] [])
       joined_late /\
     (n < 4)%nat /\ associations third_time_lucky = n) /\
  (radio_down Sim.creds 4
     (Sim.boot [Err Sim.transport_error; Err Sim.transport_error] [] []) ->
   Ret tt = OutOfFuel).
Proof.
  split; [cbn; repeat split|]. split; [reflexivity|]. split; [reflexivity|].
  apply (connect_returns_exactly_on_association Sim.creds 4
           (Sim.boot [Err Sim.transport_error; Err Sim.transport_error] [] [])).
  reflexivity.
Defined.

(** ** The retry loop of AIO.post *)

Section LoopFacts.

Variables (url : string) (hdrs : list (string * string)) (payload : Payload).

Lemma failed_attempts (failed : list event) :
  failed_attempt url hdrs payload failed -> attempts failed = 1%nat.
Proof.
  intros [e He|r e He]; cbn; [reflexivity|].
  rewrite attempts_app, (quiet_attempts _ (quiet_status_logs r)).
  reflexivity.
Qed.

Lemma decoded_not_in_failed (failed : list event) r j :
  failed_attempt url hdrs payload failed -> ~ In (EvJson r (Ok j)) failed.
Proof.
  intros [e He|r' e He] Hin; cbn in Hin.
  - destruct Hin as [Hin|[]]; discriminate.
  - destruct Hin as [Hin|Hin]; [discriminate|].
    apply in_app_or in Hin. destruct Hin as [Hin|[Hin|[]]]; [|discriminate].
    revert Hin. apply quiet_not_in; [apply quiet_status_logs|reflexivity].
Qed.

(** A decoded response of a retried run belongs to a later attempt. *)
Lemma decoded_in_retry (failed body rest : list event) r j :
  failed_attempt url hdrs payload failed -> Forall assoc_event body ->
  In (EvJson r (Ok j)) (failed ++ recovery ++ body ++ rest) ->
  In (EvJson r (Ok j)) rest.
Proof.
  intros Hf Hb Hin.
  apply in_app_or in Hin. destruct Hin as [Hin|Hin].
  { exfalso. revert Hin. apply decoded_not_in_failed. exact Hf. }
  apply in_app_or in Hin. destruct Hin as [Hin|Hin].
  { exfalso. revert Hin. apply quiet_not_in; [apply quiet_recovery|reflexivity]. }
  apply in_app_or in Hin. destruct Hin as [Hin|Hin]; [|exact Hin].
  exfalso. revert Hin. apply quiet_not_in; [apply assoc_quiet, Hb|reflexivity].
Qed.

Lemma attempts_retry (failed body rest : list event) :
  failed_attempt url hdrs payload failed -> Forall assoc_event body ->
  attempts (failed ++ recovery ++ body ++ rest) = S (attempts rest).
Proof.
  intros Hf Hb.
  rewrite !attempts_app, (failed_attempts _ Hf),
    (quiet_attempts _ quiet_recovery), (quiet_attempts _ (assoc_quiet _ Hb)).
  reflexivity.
Qed.

Lemma attempts_received (r : Response) (tail : list event) :
  attempts (EvPost url hdrs payload (Ok r) :: status_logs r ++ tail) =
  S (attempts tail).
Proof.
  cbn. rewrite attempts_app, (quiet_attempts _ (quiet_status_logs r)).
  reflexivity.
Qed.

Lemma loop_attempts_bound (tries : Z) out evs :
  loop_run url hdrs payload tries out evs ->
  0 <= tries <= 5 -> Z.of_nat (attempts evs) <= 5 - tries.
Proof.
  induction 1 as [tries| |tries r j Ht|tries e Ht He|tries r e Ht He
                 |tries failed body out rest Ht Hf Hb Hrest IH
                 |tries failed body out Ht Hf Hb Hst]; intros Hrange.
  - cbn. lia.
  - cbn. lia.
  - rewrite attempts_received. cbn. lia.
  - cbn. lia.
  - rewrite attempts_received. cbn. lia.
  - rewrite (attempts_retry _ _ _ Hf Hb).
    assert (0 <= tries + 1 <= 5) as Hr by lia. specialize (IH Hr). lia.
  - replace (failed ++ recovery ++ body)
      with (failed ++ recovery ++ body ++ []) by (rewrite app_nil_r; reflexivity).
    rewrite (attempts_retry _ _ _ Hf Hb). cbn. lia.
Qed.

Lemma loop_gives_up_after_five (tries : Z) out evs :
  loop_run url hdrs payload tries out evs ->
  out = Ret false -> 0 <= tries <= 5 ->
  Z.of_nat (attempts evs) = 5 - tries \/
  exists r j, In (EvJson r (Ok j)) evs /\ status_code r <> 200.
Proof.
  induction 1 as [tries| |tries r j Ht|tries e Ht He|tries r e Ht He
                 |tries failed body out rest Ht Hf Hb Hrest IH
                 |tries failed body out Ht Hf Hb Hst];
    intros Hout Hrange; try discriminate.
  - left. cbn. lia.
  - right. exists r, j. split.
    + right. apply in_or_app. right. left. reflexivity.
    + injection Hout as Hout. apply Z.eqb_neq. exact Hout.
  - assert (0 <= tries + 1 <= 5) as Hr by lia.
    destruct (IH Hout Hr) as [Hn|(r & j & Hin & Hs)].
    + left. rewrite (attempts_retry _ _ _ Hf Hb). lia.
    + right. exists r, j. split; [|exact Hs].
      apply in_or_app. right. apply in_or_app. right.
      apply in_or_app. right. exact Hin.
  - subst out. inversion Hst.
Qed.

Lemma loop_true_iff_decoded_200 (tries : Z) out evs :
  loop_run url hdrs payload tries out evs ->
  out = Ret true <->
  exists r j, In (EvJson r (Ok j)) evs /\ status_code r = 200.
Proof.
  induction 1 as [tries| |tries r j Ht|tries e Ht He|tries r e Ht He
                 |tries failed body out rest Ht Hf Hb Hrest IH
                 |tries failed body out Ht Hf Hb Hst].
  - split; [discriminate|]. intros (r & j & [] & _).
  - split; [discriminate|]. intros (r & j & [] & _).
  - split.
    + intros Hout. exists r, j. split.
      * right. apply in_or_app. right. left. reflexivity.
      * injection Hout as Hout. apply Z.eqb_eq. exact Hout.
    + intros (r' & j' & Hin & Hs).
      destruct Hin as [Hin|Hin]; [discriminate|].
      apply in_app_or in Hin. destruct Hin as [Hin|Hin].
      * exfalso. revert Hin.
        apply quiet_not_in; [apply quiet_status_logs|reflexivity].
      * destruct Hin as [Hin|[Hin|[Hin|[]]]]; try discriminate.
        injection Hin as -> _. rewrite Hs. reflexivity.
  - split; [discriminate|].
    intros (r & j & [Hin|[]] & _). discriminate.
  - split; [discriminate|].
    intros (r' & j' & Hin & _).
    destruct Hin as [Hin|Hin]; [discriminate|].
    apply in_app_or in Hin. destruct Hin as [Hin|[Hin|[]]]; [|discriminate].
    destruct (quiet_not_in _ (EvJson r' (Ok j')) (quiet_status_logs r)
                eq_refl Hin).
  - rewrite IH. split; intros (r & j & Hin & Hs); exists r, j; (split; [|exact Hs]).
    + apply in_or_app. right. apply in_or_app. right.
      apply in_or_app. right. exact Hin.
    + eapply decoded_in_retry; eauto.
  - split.
    + intros ->. inversion Hst.
    + intros (r & j & Hin & _). exfalso.
      apply (decoded_in_retry failed body [] r j Hf Hb).
      rewrite app_nil_r. exact Hin.
Qed.

(** Every body that is decoded belongs to a response that was received. *)
Lemma loop_decodes_received (tries : Z) out evs r x :
  loop_run url hdrs payload tries out evs ->
  In (EvJson r x) evs -> In (EvPost url hdrs payload (Ok r)) evs.
Proof.
  assert (Hrecv : forall r' (tail : list event),
            In (EvJson r x) (EvPost url hdrs payload (Ok r')
                               :: status_logs r' ++ tail) ->
            (forall ev, In ev tail -> ev = EvJson r x -> r = r') ->
            In (EvPost url hdrs payload (Ok r))
              (EvPost url hdrs payload (Ok r') :: status_logs r' ++ tail)).
  { intros r' tail Hin Htail.
    destruct Hin as [Hin|Hin]; [discriminate|].
    apply in_app_or in Hin. destruct Hin as [Hin|Hin].
    - exfalso. revert Hin.
      apply quiet_not_in; [apply quiet_status_logs|reflexivity].
    - rewrite (Htail _ Hin eq_refl). left. reflexivity. }
  assert (Hfail : forall failed,
            failed_attempt url hdrs payload failed ->
            In (EvJson r x) failed ->
            In (EvPost url hdrs payload (Ok r)) failed).
  { intros failed [e He|r' e He] Hin.
    - destruct Hin as [Hin|[]]. discriminate.
    - apply Hrecv; [exact Hin|].
      intros ev [<-|[]] Heq. injection Heq as ->. reflexivity. }
  assert (Hretry : forall failed body rest,
            failed_attempt url hdrs payload failed ->
            Forall assoc_event body ->
            In (EvJson r x) (failed ++ recovery ++ body ++ rest) ->
            In (EvJson r x) failed \/ In (EvJson r x) rest).
  { intros failed body rest Hf Hb Hin.
    apply in_app_or in Hin. destruct Hin as [Hin|Hin]; [left; exact Hin|].
    apply in_app_or in Hin. destruct Hin as [Hin|Hin].
    { exfalso. revert Hin.
      apply quiet_not_in; [apply quiet_recovery|reflexivity]. }
    apply in_app_or in Hin. destruct Hin as [Hin|Hin]; [|right; exact Hin].
    exfalso. revert Hin.
    apply quiet_not_in; [apply assoc_quiet; assumption|reflexivity]. }
  induction 1 as [tries| |tries r' j Ht|tries e Ht He|tries r' e Ht He
                 |tries failed body out rest Ht Hf Hb Hrest IH
                 |tries failed body out Ht Hf Hb Hst]; intros Hin.
  - destruct Hin.
  - destruct Hin.
  - apply Hrecv; [exact Hin|].
    intros ev [<-|[<-|[<-|[]]]] Heq; try discriminate.
    injection Heq as -> _. reflexivity.
  - destruct Hin as [Hin|[]]. discriminate.
  - apply Hrecv; [exact Hin|].
    intros ev [<-|[]] Heq. injection Heq as -> _. reflexivity.
  - destruct (Hretry _ _ _ Hf Hb Hin) as [Hin'|Hin'].
    + apply in_or_app. left. apply Hfail; assumption.
    + apply in_or_app. right. apply in_or_app. right.
      apply in_or_app. right. apply IH. exact Hin'.
  - rewrite <- (app_nil_r body) in Hin.
    destruct (Hretry _ _ _ Hf Hb Hin) as [Hin'|[]].
    apply in_or_app. left. apply Hfail; assumption.
Qed.

(** With transport errors only and no response, a run that is followed to
    its end gives up with [False] when the counter reaches 5. *)
Lemma loop_exhausted (tries : Z) out evs :
  loop_run url hdrs payload tries out evs ->
  0 <= tries <= 5 ->
  only_RuntimeErrors evs ->
  (forall r, ~ In (EvPost url hdrs payload (Ok r)) evs) ->
  out <> OutOfFuel ->
  out = Ret false /\ Z.of_nat (attempts evs) = 5 - tries.
Proof.
  induction 1 as [tries| |tries r j Ht|tries e Ht He|tries r e Ht He
                 |tries failed body out rest Ht Hf Hb Hrest IH
                 |tries failed body out Ht Hf Hb Hst];
    intros Hrange Honly Hnone Hend.
  - congruence.
  - split; [reflexivity|]. cbn. lia.
  - exfalso. apply (Hnone r). left. reflexivity.
  - exfalso.
    assert (is_RuntimeError e = true); [|congruence].
    eapply Honly; [left; reflexivity|reflexivity].
  - exfalso. apply (Hnone r). left. reflexivity.
  - assert (0 <= tries + 1 <= 5) as Hr by lia.
    destruct (IH Hr) as [Hout Hn]; auto.
    + intros ev e Hin. apply Honly.
      apply in_or_app. right. apply in_or_app. right.
      apply in_or_app. right. exact Hin.
    + intros r Hin. apply (Hnone r).
      apply in_or_app. right. apply in_or_app. right.
      apply in_or_app. right. exact Hin.
    + split; [exact Hout|]. rewrite (attempts_retry _ _ _ Hf Hb). lia.
  - exfalso. inversion Hst as [|e s p pre He]; subst; [congruence|].
    assert (is_RuntimeError e = true); [|congruence].
    eapply (Honly (EvConnectAP s p (Err e))); [|reflexivity].
    apply in_or_app. right. apply in_or_app. right.
    apply in_or_app. right. left. reflexivity.
Qed.

(** *** Where an HTTP interaction of a run lies *)

Lemma split_received (r : Response) (tail pre suf : list event) (ev : event) :
  EvPost url hdrs payload (Ok r) :: status_logs r ++ tail = pre ++ ev :: suf ->
  is_http ev = true ->
  (pre = [] /\ ev = EvPost url hdrs payload (Ok r) /\
   suf = status_logs r ++ tail) \/
  (exists pre', pre = EvPost url hdrs payload (Ok r) :: status_logs r ++ pre' /\
                tail = pre' ++ ev :: suf).
Proof.
  intros Heq Hev. destruct pre as [|z pre]; cbn in Heq.
  - injection Heq as <- <-. left. auto.
  - injection Heq as <- Heq. right.
    destruct (skip_quiet _ _ _ _ _ (quiet_status_logs r) Hev Heq)
      as (pre' & -> & ->).
    exists pre'. auto.
Qed.

Lemma split_failed (failed tail pre suf : list event) (ev : event) :
  failed_attempt url hdrs payload failed ->
  failed ++ tail = pre ++ ev :: suf -> is_http ev = true ->
  (exists e, is_RuntimeError e = true /\ pre = [] /\
             ev = EvPost url hdrs payload (Err e) /\ suf = tail) \/
  (exists r e, is_RuntimeError e = true /\ pre = [] /\
               ev = EvPost url hdrs payload (Ok r) /\
               suf = status_logs r ++ EvJson r (Err e) :: tail) \/
  (exists r e, is_RuntimeError e = true /\
               pre = EvPost url hdrs payload (Ok r) :: status_logs r /\
               ev = EvJson r (Err e) /\ suf = tail) \/
  (exists pre', pre = failed ++ pre' /\ tail = pre' ++ ev :: suf).
Proof.
  intros [e He|r e He] Heq Hev.
  - destruct pre as [|z pre]; cbn in Heq.
    + injection Heq as <- <-. left. eauto.
    + injection Heq as <- Heq. right. right. right. eauto.
  - cbn in Heq. rewrite <- app_assoc in Heq.
    destruct (split_received _ _ _ _ _ Heq Hev)
      as [(-> & -> & ->)|(pre' & -> & Htail)].
    + right. left. exists r, e. auto.
    + destruct pre' as [|z pre']; cbn in Htail.
      * injection Htail as <- <-. right. right. left.
        exists r, e. rewrite app_nil_r. auto.
      * injection Htail as <- ->. right. right. right.
        exists pre'. cbn. rewrite <- app_assoc. auto.
Qed.

Lemma split_reconnect (body rest pre suf : list event) (ev : event) :
  Forall assoc_event body ->
  recovery ++ body ++ rest = pre ++ ev :: suf -> is_http ev = true ->
  exists pre', pre = recovery ++ body ++ pre' /\ rest = pre' ++ ev :: suf.
Proof.
  intros Hb Heq Hev.
  destruct (skip_quiet _ _ _ _ _ quiet_recovery Hev Heq) as (p1 & -> & Heq1).
  destruct (skip_quiet _ _ _ _ _ (assoc_quiet _ Hb) Hev Heq1)
    as (p2 & -> & ->).
  exists p2. auto.
Qed.


(** C10 on the loop: an exception of [r.json()] that is not a
    [RuntimeError] ends the run, and is its outcome. *)
Lemma loop_json_error_propagates (tries : Z) out evs pre r e suf :
  loop_run url hdrs payload tries out evs ->
  evs = pre ++ EvJson r (Err e) :: suf ->
  is_RuntimeError e = false ->
  out = Raise e /\ suf = [].
Proof.
  intros Hl. revert pre.
  induction Hl as [tries| |tries r0 j Ht|tries e0 Ht He|tries r0 e0 Ht He
                  |tries failed body out rest Ht Hf Hb Hrest IH
                  |tries failed body out Ht Hf Hb Hst]; intros pre Heq Hrt.
  - destruct pre; discriminate.
  - destruct pre; discriminate.
  - destruct (split_received _ _ _ _ _ Heq eq_refl)
      as [(_ & Hev & _)|(pre' & _ & Htail)]; [discriminate|].
    destruct pre' as [|? [|? [|? [|? pre']]]]; discriminate.
  - destruct pre as [|? [|? pre]]; discriminate.
  - destruct (split_received _ _ _ _ _ Heq eq_refl)
      as [(_ & Hev & _)|(pre' & _ & Htail)]; [discriminate|].
    destruct pre' as [|? [|? pre']]; try discriminate.
    injection Htail as -> -> <-. auto.
  - destruct (split_failed _ _ _ _ _ Hf Heq eq_refl)
      as [(e1 & _ & _ & Hev & _)|[(r1 & e1 & _ & _ & Hev & _)
         |[(r1 & e1 & He1 & _ & Hev & _)|(pre' & -> & Htail)]]];
      try discriminate.
    + injection Hev as -> ->. congruence.
    + destruct (split_reconnect _ _ _ _ _ Hb Htail eq_refl)
        as (pre'' & -> & Hrest').
      eapply IH; eauto.
  - rewrite <- (app_nil_r body), !app_assoc, <- !app_assoc in Heq.
    destruct (split_failed _ _ _ _ _ Hf Heq eq_refl)
      as [(e1 & _ & _ & Hev & _)|[(r1 & e1 & _ & _ & Hev & _)
         |[(r1 & e1 & He1 & _ & Hev & _)|(pre' & -> & Htail)]]];
      try discriminate.
    + injection Hev as -> ->. congruence.
    + destruct (split_reconnect _ _ _ _ _ Hb Htail eq_refl)
        as (pre'' & -> & Hrest').
      destruct pre''; discriminate.
Qed.

(** C5 on the loop: the decoding of a body that returns is followed by
    the log line and the close of that response, and the comparison of
    its status is the outcome. *)
Lemma loop_decoded_ends (tries : Z) out evs pre r j suf :
  loop_run url hdrs payload tries out evs ->
  evs = pre ++ EvJson r (Ok j) :: suf ->
  suf = [text_log; EvClose r] /\ out = Ret (status_code r =? 200).
Proof.
  intros Hl. revert pre.
  induction Hl as [tries| |tries r0 j0 Ht|tries e0 Ht He|tries r0 e0 Ht He
                  |tries failed body out rest Ht Hf Hb Hrest IH
                  |tries failed body out Ht Hf Hb Hst]; intros pre Heq.
  - destruct pre; discriminate.
  - destruct pre; discriminate.
  - destruct (split_received _ _ _ _ _ Heq eq_refl)
      as [(_ & Hev & _)|(pre' & _ & Htail)]; [discriminate|].
    destruct pre' as [|? [|? [|? [|? pre']]]]; try discriminate.
    injection Htail as -> -> <-. auto.
  - destruct pre as [|? [|? pre]]; discriminate.
  - destruct (split_received _ _ _ _ _ Heq eq_refl)
      as [(_ & Hev & _)|(pre' & _ & Htail)]; [discriminate|].
    destruct pre' as [|? [|? pre']]; discriminate.
  - destruct (split_failed _ _ _ _ _ Hf Heq eq_refl)
      as [(e1 & _ & _ & Hev & _)|[(r1 & e1 & _ & _ & Hev & _)
         |[(r1 & e1 & He1 & _ & Hev & _)|(pre' & -> & Htail)]]];
      try discriminate.
    destruct (split_reconnect _ _ _ _ _ Hb Htail eq_refl)
      as (pre'' & -> & Hrest').
    eapply IH; eauto.
  - rewrite <- (app_nil_r body), !app_assoc, <- !app_assoc in Heq.
    destruct (split_failed _ _ _ _ _ Hf Heq eq_refl)
      as [(e1 & _ & _ & Hev & _)|[(r1 & e1 & _ & _ & Hev & _)
         |[(r1 & e1 & He1 & _ & Hev & _)|(pre' & -> & Htail)]]];
      try discriminate.
    destruct (split_reconnect _ _ _ _ _ Hb Htail eq_refl)
      as (pre'' & -> & Hrest').
    destruct pre''; discriminate.
Qed.

(** C5 on the loop: an attempt is followed by another one only when the
    POST, or the decoding of the body of its response, raised a
    [RuntimeError]. *)
Lemma loop_retries_only_RuntimeError (tries : Z) out evs pre u h p x suf :
  loop_run url hdrs payload tries out evs ->
  evs = pre ++ EvPost u h p x :: suf ->
  (0 < attempts suf)%nat ->
  (exists e, x = Err e /\ is_RuntimeError e = true) \/
  (exists r e suf',
     x = Ok r /\ suf = status_logs r ++ EvJson r (Err e) :: suf' /\
     is_RuntimeError e = true).
Proof.
  intros Hl. revert pre.
  induction Hl as [tries| |tries r0 j0 Ht|tries e0 Ht He|tries r0 e0 Ht He
                  |tries failed body out rest Ht Hf Hb Hrest IH
                  |tries failed body out Ht Hf Hb Hst]; intros pre Heq Hmore.
  - destruct pre; discriminate.
  - destruct pre; discriminate.
  - exfalso.
    destruct (split_received _ _ _ _ _ Heq eq_refl)
      as [(_ & _ & ->)|(pre' & _ & Htail)].
    + rewrite attempts_app, (quiet_attempts _ (quiet_status_logs r0)) in Hmore.
      cbn in Hmore. lia.
    + destruct pre' as [|? [|? [|? [|? pre']]]]; discriminate.
  - exfalso. destruct pre as [|? [|? pre]]; try discriminate.
    simplify_eq/=. lia.
  - exfalso.
    destruct (split_received _ _ _ _ _ Heq eq_refl)
      as [(_ & _ & ->)|(pre' & _ & Htail)].
    + rewrite attempts_app, (quiet_attempts _ (quiet_status_logs r0)) in Hmore.
      cbn in Hmore. lia.
    + destruct pre' as [|? [|? pre']]; discriminate.
  - destruct (split_failed _ _ _ _ _ Hf Heq eq_refl)
      as [(e1 & He1 & _ & Hev & _)|[(r1 & e1 & He1 & _ & Hev & ->)
         |[(r1 & e1 & He1 & _ & Hev & _)|(pre' & -> & Htail)]]];
      try discriminate.
    + simplify_eq. left. eauto.
    + simplify_eq. right. eauto 6.
    + destruct (split_reconnect _ _ _ _ _ Hb Htail eq_refl)
        as (pre'' & -> & Hrest').
      eapply IH; eauto.
  - rewrite <- (app_nil_r body), !app_assoc, <- !app_assoc in Heq.
    destruct (split_failed _ _ _ _ _ Hf Heq eq_refl)
      as [(e1 & He1 & _ & Hev & _)|[(r1 & e1 & He1 & _ & Hev & ->)
         |[(r1 & e1 & He1 & _ & Hev & _)|(pre' & -> & Htail)]]];
      try discriminate.
    + simplify_eq. left. eauto.
    + simplify_eq. right. eauto 6.
    + destruct (split_reconnect _ _ _ _ _ Hb Htail eq_refl)
        as (pre'' & -> & Hrest').
      destruct pre''; discriminate.
Qed.


End LoopFacts.

(** ** AIO.post *)

Section PostFacts.

Context {W : Type} `{Platform W}.
Variable cfg : credentials.

Lemma post_loop_S (cfuel : nat) (url : string) (payload : Payload)
    (fuel : nat) (tries : Z) (w : W) :
  post_loop cfg cfuel url payload (S fuel) tries w =
  if tries =? 5 then (Ret false, w, [])
  else
    match requests_post url (auth_header cfg) payload w with
    | (Ok r, w1) =>
        match response_json r w1 with
        | (Ok j, w2) =>
            (Ret (status_code r =? 200), response_close r w2,
             EvPost url (auth_header cfg) payload (Ok r)
               :: status_logs r ++ [EvJson r (Ok j); text_log; EvClose r])
        | (Err e, w2) =>
            if is_RuntimeError e then
              recover cfg cfuel url payload fuel tries
                (EvPost url (auth_header cfg) payload (Ok r)
                   :: status_logs r ++ [EvJson r (Err e)]) w2
            else
              (Raise e, w2,
               EvPost url (auth_header cfg) payload (Ok r)
                 :: status_logs r ++ [EvJson r (Err e)])
        end
    | (Err e, w1) =>
        if is_RuntimeError e then
          recover cfg cfuel url payload fuel tries
            [EvPost url (auth_header cfg) payload (Err e)] w1
        else (Raise e, w1, [EvPost url (auth_header cfg) payload (Err e)])
    end.
Proof.
  cbn [post_loop]. destruct (tries =? 5); [reflexivity|].
  unfold post_attempt, try_except, bind, http_post, json, call, logger, emit,
    close, reset, ret, recover, status_logs.
  destruct (requests_post url (auth_header cfg) payload w) as [[r|e] w1].
  - cbn -[connect post_loop connect_loop].
    destruct (status_code r =? 200) eqn:Hs;
      cbn -[connect post_loop connect_loop];
      (destruct (response_json r w1) as [[j|e] w2];
       cbn -[connect post_loop connect_loop];
       [rewrite Hs; reflexivity|]);
      (destruct (is_RuntimeError e);
       cbn -[connect post_loop connect_loop]; [|reflexivity]);
      rewrite connect_unfold;
      (destruct (connect_loop cfg cfuel (esp_reset w2))
         as [[[[]|e'|] w3] body];
       cbn -[connect post_loop connect_loop]; try reflexivity);
      (destruct (post_loop cfg cfuel url payload fuel (tries + 1) w3)
         as [[o' w4] rest]; cbn);
      rewrite app_nil_r; reflexivity.
  - cbn -[connect post_loop connect_loop].
    destruct (is_RuntimeError e);
      cbn -[connect post_loop connect_loop]; [|reflexivity].
    rewrite connect_unfold.
    destruct (connect_loop cfg cfuel (esp_reset w1)) as [[[[]|e'|] w3] body];
      cbn -[connect post_loop connect_loop]; try reflexivity.
    destruct (post_loop cfg cfuel url payload fuel (tries + 1) w3)
      as [[o' w4] rest]; cbn.
    rewrite app_nil_r. reflexivity.
Qed.

Lemma recover_runs (cfuel : nat) (url : string) (payload : Payload)
    (fuel : nat) (tries : Z) (failed : list event) (w w' : W) out evs :
  (forall w w' out evs,
     post_loop cfg cfuel url payload fuel (tries + 1) w = (out, w', evs) ->
     loop_run url (auth_header cfg) payload (tries + 1) out evs) ->
  tries <> 5 ->
  failed_attempt url (auth_header cfg) payload failed ->
  recover cfg cfuel url payload fuel tries failed w = (out, w', evs) ->
  loop_run url (auth_header cfg) payload tries out evs.
Proof.
  intros IH Htries Hfailed. unfold recover.
  destruct (connect_loop cfg cfuel (esp_reset w)) as [[o w2] body] eqn:Hc.
  pose proof (connect_loop_events cfg _ _ _ _ _ Hc) as Hbody.
  destruct o as [[]|e|].
  - destruct (post_loop cfg cfuel url payload fuel (tries + 1) w2)
      as [[o' w3] rest] eqn:Hl.
    intros Hrun. injection Hrun as <- <- <-.
    apply run_retry; eauto.
  - intros Hrun. injection Hrun as <- <- <-.
    destruct (connect_loop_raises cfg _ _ _ _ _ Hc) as (Hrt & pre & ->).
    apply run_stopped; auto. apply stopped_raise. exact Hrt.
  - intros Hrun. injection Hrun as <- <- <-.
    apply run_stopped; auto. apply stopped_cut.
Qed.

Lemma post_loop_runs (cfuel : nat) (url : string) (payload : Payload)
    (fuel : nat) (tries : Z) (w w' : W) out evs :
  post_loop cfg cfuel url payload fuel tries w = (out, w', evs) ->
  loop_run url (auth_header cfg) payload tries out evs.
Proof.
  revert tries w w' out evs.
  induction fuel as [|fuel IH]; intros tries w w' out evs Hrun.
  - injection Hrun as <- <- <-. apply run_cut.
  - rewrite post_loop_S in Hrun.
    destruct (tries =? 5) eqn:Htries.
    { apply Z.eqb_eq in Htries. subst tries.
      injection Hrun as <- <- <-. apply run_give_up. }
    apply Z.eqb_neq in Htries.
    destruct (requests_post url (auth_header cfg) payload w) as [[r|e] w1].
    + destruct (response_json r w1) as [[j|e] w2].
      * injection Hrun as <- <- <-. apply run_break. exact Htries.
      * destruct (is_RuntimeError e) eqn:Hrt.
        -- eapply recover_runs; eauto. apply failed_json. exact Hrt.
        -- injection Hrun as <- <- <-. apply run_json_raises; auto.
    + destruct (is_RuntimeError e) eqn:Hrt.
      * eapply recover_runs; eauto. apply failed_post. exact Hrt.
      * injection Hrun as <- <- <-. apply run_post_raises; auto.
Qed.

Lemma post_runs (fuel : nat) (feed : string) (payload : Payload)
    (w w' : W) out evs :
  post cfg fuel feed payload w = (out, w', evs) ->
  post_run (feed_url cfg feed) (auth_header cfg) payload out evs.
Proof.
  unfold post, bind, logger, emit. cbn -[connect post_loop].
  rewrite connect_unfold.
  destruct (connect_loop cfg fuel w) as [[o w1] body] eqn:Hc.
  pose proof (connect_loop_events cfg _ _ _ _ _ Hc) as Hbody.
  destruct o as [[]|e|]; cbn -[post_loop].
  - destruct (post_loop cfg fuel (feed_url cfg feed) payload fuel 0 w1)
      as [[o' w2] rest] eqn:Hl.
    intros Hrun. injection Hrun as <- <- <-.
    apply (post_connected _ _ _ body o' rest); auto.
    eapply post_loop_runs; eauto.
  - intros Hrun. injection Hrun as <- <- <-.
    destruct (connect_loop_raises cfg _ _ _ _ _ Hc) as (Hrt & pre & ->).
    apply (post_stopped _ _ _ _ (Raise e)); auto.
    apply stopped_raise. exact Hrt.
  - intros Hrun. injection Hrun as <- <- <-.
    apply (post_stopped _ _ _ body OutOfFuel); auto. apply stopped_cut.
Qed.

Lemma attempts_post_run (body rest : list event) :
  Forall assoc_event body ->
  attempts (post_header ++ body ++ rest) = attempts rest.
Proof.
  intros Hb.
  rewrite !attempts_app, (quiet_attempts _ quiet_post_header),
    (quiet_attempts _ (assoc_quiet _ Hb)).
  reflexivity.
Qed.

(** An HTTP interaction of a run of [post] belongs to the retry loop. *)
Lemma http_in_post_run (body rest : list event) (ev : event) :
  Forall assoc_event body -> is_http ev = true ->
  In ev (post_header ++ body ++ rest) -> In ev rest.
Proof.
  intros Hb Hev Hin.
  apply in_app_or in Hin. destruct Hin as [Hin|Hin].
  { destruct (quiet_not_in _ _ quiet_post_header Hev Hin). }
  apply in_app_or in Hin. destruct Hin as [Hin|Hin]; [|exact Hin].
  destruct (quiet_not_in _ _ (assoc_quiet _ Hb) Hev Hin).
Qed.

Lemma in_post_run (body rest : list event) (ev : event) :
  In ev rest -> In ev (post_header ++ body ++ rest).
Proof.
  intros Hin. apply in_or_app. right. apply in_or_app. right. exact Hin.
Qed.

(** C2.  A run of [post], however long it is followed and whatever the
    platform answers, calls the HTTP POST primitive at most 5 times; and
    it returns [False] only with a decoded response whose status is not
    200 or, giving up, after exactly 5 attempts. *)
Theorem post_attempts_at_most_five (fuel : nat) (feed : string)
    (payload : Payload) (w w' : W) out evs :
  post cfg fuel feed payload w = (out, w', evs) ->
  (attempts evs <= 5)%nat /\
  (out = Ret false ->
   attempts evs = 5%nat \/
   exists r j, In (EvJson r (Ok j)) evs /\ status_code r <> 200).
Proof.
  intros Hrun. apply post_runs in Hrun.
  destruct Hrun as [body out rest Hb Hl|body out Hb Hst].
  - rewrite (attempts_post_run _ _ Hb). split.
    + pose proof (loop_attempts_bound _ _ _ _ _ _ Hl). lia.
    + intros Hout.
      destruct (loop_gives_up_after_five _ _ _ _ _ _ Hl Hout)
        as [Hn|(r & j & Hin & Hs)]; [lia|left; lia|].
      right. exists r, j. split; [|exact Hs]. apply in_post_run. exact Hin.
  - rewrite <- (app_nil_r body), (attempts_post_run _ _ Hb). split.
    + cbn. lia.
    + intros ->. inversion Hst.
Qed.

(** C1, as the code has it.  [post] returns [True] exactly when some
    attempt received a response with status 200 and the decoding of its
    body returned.  When no attempt receives a response, every error
    reply is a [RuntimeError] and the run is followed to its end, [post]
    returns [False] after 5 attempts, without raising. *)
Theorem post_true_iff_decoded_200 (fuel : nat) (feed : string)
    (payload : Payload) (w w' : W) out evs :
  post cfg fuel feed payload w = (out, w', evs) ->
  (out = Ret true <->
   exists r j,
     In (EvPost (feed_url cfg feed) (auth_header cfg) payload (Ok r)) evs /\
     In (EvJson r (Ok j)) evs /\ status_code r = 200) /\
  (only_RuntimeErrors evs ->
   (forall r,
      ~ In (EvPost (feed_url cfg feed) (auth_header cfg) payload (Ok r)) evs) ->
   out <> OutOfFuel ->
   out = Ret false /\ attempts evs = 5%nat).
Proof.
  intros Hrun. apply post_runs in Hrun.
  destruct Hrun as [body out rest Hb Hl|body out Hb Hst].
  - split.
    + rewrite (loop_true_iff_decoded_200 _ _ _ _ _ _ Hl). split.
      * intros (r & j & Hin & Hs). exists r, j.
        split; [|split; [|exact Hs]]; apply in_post_run; [|exact Hin].
        eapply loop_decodes_received; eauto.
      * intros (r & j & _ & Hin & Hs). exists r, j. split; [|exact Hs].
        eapply http_in_post_run; eauto.
    + intros Honly Hnone Hend.
      rewrite (attempts_post_run _ _ Hb).
      destruct (loop_exhausted _ _ _ _ _ _ Hl) as [Hout Hn]; auto; try lia.
      * intros ev e Hin. apply Honly, in_post_run, Hin.
      * intros r Hin. apply (Hnone r), in_post_run, Hin.
      * split; [exact Hout|lia].
  - split.
    + split.
      * intros ->. inversion Hst.
      * intros (r & j & _ & Hin & _). exfalso.
        rewrite <- (app_nil_r body) in Hin.
        apply (http_in_post_run body [] (EvJson r (Ok j)) Hb eq_refl) in Hin.
        destruct Hin.
    + intros Honly _ Hend. exfalso.
      inversion Hst as [|e s p pre He]; subst; [congruence|].
      assert (is_RuntimeError e = true); [|congruence].
      eapply (Honly (EvConnectAP s p (Err e))); [|reflexivity].
      apply in_or_app. right. apply in_or_app. right. left. reflexivity.
Qed.

(** An HTTP interaction of a run of [post] lies in the retry loop. *)
Lemma split_post_run (body rest pre suf : list event) (ev : event) :
  Forall assoc_event body ->
  post_header ++ body ++ rest = pre ++ ev :: suf -> is_http ev = true ->
  exists pre', pre = post_header ++ body ++ pre' /\ rest = pre' ++ ev :: suf.
Proof.
  intros Hb Heq Hev.
  destruct (skip_quiet _ _ _ _ _ quiet_post_header Hev Heq)
    as (p1 & -> & Heq1).
  destruct (skip_quiet _ _ _ _ _ (assoc_quiet _ Hb) Hev Heq1)
    as (p2 & -> & ->).
  exists p2. auto.
Qed.

(** The HTTP interactions of a run of [post], with their position in the
    retry loop. *)
Lemma post_run_loop (out : outcome bool) (evs pre suf : list event)
    (ev : event) (url : string) (hdrs : list (string * string))
    (payload : Payload) :
  post_run url hdrs payload out evs ->
  evs = pre ++ ev :: suf -> is_http ev = true ->
  exists body pre' rest,
    Forall assoc_event body /\ loop_run url hdrs payload 0 out rest /\
    evs = post_header ++ body ++ rest /\
    pre = post_header ++ body ++ pre' /\ rest = pre' ++ ev :: suf.
Proof.
  intros [body out' rest Hb Hl|body out' Hb Hst] Heq Hev.
  - destruct (split_post_run _ _ _ _ _ Hb Heq Hev) as (pre' & -> & ->).
    exists body, pre', (pre' ++ ev :: suf). auto.
  - rewrite <- (app_nil_r body) in Heq.
    destruct (split_post_run _ _ _ _ _ Hb Heq Hev) as (pre' & _ & Hnil).
    destruct pre'; discriminate.
Qed.

(** C10.  When the decoding of the body of a received response raises an
    exception that is not a [RuntimeError], whatever the status of the
    response, nothing more happens in [post] (the response is not even
    closed) and that exception is the outcome of [post]. *)
Theorem post_json_error_propagates (fuel : nat) (feed : string)
    (payload : Payload) (w w' : W) out evs pre r e suf :
  post cfg fuel feed payload w = (out, w', evs) ->
  evs = pre ++ EvJson r (Err e) :: suf ->
  is_RuntimeError e = false ->
  out = Raise e /\ suf = [].
Proof.
  intros Hrun Heq Hrt. apply post_runs in Hrun.
  destruct (post_run_loop _ _ _ _ _ _ _ _ Hrun Heq eq_refl)
    as (body & pre' & rest & Hb & Hl & _ & _ & Hrest).
  eapply loop_json_error_propagates; eauto.
Qed.

(** C5, as the code has it.  A response whose body is decoded ends the
    retry loop at once: the response is closed and the comparison of its
    status is the result.  An attempt is followed by another one only
    when the POST raised a [RuntimeError], or when a response was
    received and the decoding of its body raised a [RuntimeError]. *)
Theorem post_stops_on_decoded_response (fuel : nat) (feed : string)
    (payload : Payload) (w w' : W) out evs :
  post cfg fuel feed payload w = (out, w', evs) ->
  (forall pre r j suf,
     evs = pre ++ EvJson r (Ok j) :: suf ->
     suf = [text_log; EvClose r] /\ out = Ret (status_code r =? 200)) /\
  (forall pre u h p x suf,
     evs = pre ++ EvPost u h p x :: suf ->
     (0 < attempts suf)%nat ->
     (exists e, x = Err e /\ is_RuntimeError e = true) \/
     (exists r e suf',
        x = Ok r /\ suf = status_logs r ++ EvJson r (Err e) :: suf' /\
        is_RuntimeError e = true)).
Proof.
  intros Hrun. apply post_runs in Hrun. split.
  - intros pre r j suf Heq.
    destruct (post_run_loop _ _ _ _ _ _ _ _ Hrun Heq eq_refl)
      as (body & pre' & rest & Hb & Hl & _ & _ & Hrest).
    eapply loop_decoded_ends; eauto.
  - intros pre u h p x suf Heq Hmore.
    destruct (post_run_loop _ _ _ _ _ _ _ _ Hrun Heq eq_refl)
      as (body & pre' & rest & Hb & Hl & _ & _ & Hrest).
    eapply loop_retries_only_RuntimeError; eauto.
Qed.


End PostFacts.

(** ** AIO.refresh_local_time *)

Section TimeFacts.

Context {W : Type} `{Platform W}.
Variable cfg : credentials.

Ltac run_refresh Hc Hg Ht1 Ht2 :=
  unfold refresh_local_time, fetch_time, timezone_log, try_except, bind,
    logger, emit, http_get, text, call, lift, close, ret, raise;
  destruct (getenv _ "timezone") as [[|? ?]|];
  cbn -[connect time_url py_split]; rewrite Hc;
  cbn -[connect time_url py_split]; rewrite Hg;
  cbn -[connect time_url py_split]; rewrite Ht1;
  cbn -[connect time_url py_split]; rewrite Ht2.

(** [int] on the literals that occur in the goal. *)
Ltac eval_ints :=
  repeat (cbn -[time_url];
          match goal with
          | |- context [py_int ?s] =>
              let v := eval vm_compute in (py_int s) in
              change (py_int s) with v
          end);
  cbn -[time_url].

(** C7.  When [connect] returns, the GET is answered, and the body of the
    response reads as the sample reply, [refresh_local_time] returns the
    calendar tuple year 2023, month 5, day 1, 14:30:00, weekday 1, day of
    the year 121: it reads the body, writes the tuple to the real-time
    clock, closes the response and collects garbage. *)
Theorem refresh_local_time_sample (fuel : nat) (env : gmap string string)
    (w w1 w2 w3 w4 : W) evs response :
  connect cfg fuel w = (Ret tt, w1, evs) ->
  requests_get (time_url cfg env) w1 = (Ok response, w2) ->
  response_text response w2 = (Ok sample_reply, w3) ->
  response_text response w3 = (Ok sample_reply, w4) ->
  refresh_local_time cfg fuel env w =
    (Ret sample_time,
     response_close response (rtc_set_datetime sample_time w4),
     timezone_log env :: EvLog DEBUG "Requesting time from %s" :: evs ++
     [EvGet (time_url cfg env) (Ok response);
      EvText response (Ok sample_reply);
      EvLog DEBUG "Time reply: %s";
      EvText response (Ok sample_reply);
      EvRtc sample_time; EvLog DEBUG "Fetched time: %s";
      EvClose response; EvGcCollect]).
Proof.
  intros Hc Hg Ht1 Ht2.
  run_refresh Hc Hg Ht1 Ht2; eval_ints; rewrite <- app_assoc; reflexivity.
Qed.

(** C3 (what the code does).  When the body of the response has fewer
    than four space-separated fields, the empty body included,
    [refresh_local_time] raises the [IndexError] of the list indexing or
    the [ValueError] of [int], which [except KeyError] lets through: the
    [KeyError] with the advice on the timezone setting is not raised. *)
Theorem refresh_local_time_missing_fields (fuel : nat)
    (env : gmap string string) (body : string)
    (w w1 w2 w3 w4 : W) evs response :
  connect cfg fuel w = (Ret tt, w1, evs) ->
  requests_get (time_url cfg env) w1 = (Ok response, w2) ->
  response_text response w2 = (Ok body, w3) ->
  response_text response w3 = (Ok body, w4) ->
  (length (py_split " " body) < 4)%nat ->
  exists e,
    refresh_local_time cfg fuel env w =
      (Raise e, w4,
       timezone_log env :: EvLog DEBUG "Requesting time from %s" :: evs ++
       [EvGet (time_url cfg env) (Ok response);
        EvText response (Ok body);
        EvLog DEBUG "Time reply: %s";
        EvText response (Ok body)]) /\
    (exn_cls e = IndexError \/ exn_cls e = ValueError) /\
    e <> lookup_error.
Proof.
  intros Hc Hg Ht1 Ht2 Hlen.
  assert (Hcases :
    exists e,
      (let times := py_split " " body in
       match py_index times 0 with
       | Err e => Some e
       | Ok _ =>
           match py_index times 1 with
           | Err e => Some e
           | Ok _ =>
               match py_index times 2 with
               | Err e => Some e
               | Ok f2 =>
                   match py_int f2 with
                   | Err e => Some e
                   | Ok _ =>
                       match py_index times 3 with
                       | Err e => Some e
                       | Ok _ => None
                       end
                   end
               end
           end
       end) = Some e /\
      (exn_cls e = IndexError \/ exn_cls e = ValueError)).
  { destruct (py_split " " body) as [|a [|b [|c [|d rest]]]]; cbn in *;
      try lia; eauto.
    unfold py_index; cbn. unfold py_int.
    destruct (match strip (list_ascii_of_string c) with
              | [] => _ | _ => _ end) as [neg ds].
    destruct ds; [cbn; eauto|].
    destruct (digits _ 0); cbn; eauto. }
  destruct Hcases as (e & Hsome & Hcls).
  exists e. split; [|split; [exact Hcls|]].
  2:{ intros ->. destruct Hcls as [Hcls|Hcls]; discriminate. }
  assert (Hk : is_KeyError e = false).
  { unfold is_KeyError. destruct Hcls as [-> | ->]; reflexivity. }
  run_refresh Hc Hg Ht1 Ht2;
    cbn -[time_url py_split py_index py_int] in *;
    repeat match type of Hsome with
           | context [match ?x with Ok _ => _ | Err _ => _ end] =>
               destruct x; cbn -[time_url py_split py_index py_int] in *
           end;
    simplify_eq; rewrite ?Hk; rewrite ?app_nil_r; reflexivity.
Qed.

End TimeFacts.

(** An associated radio and a time service that sends the sample reply. *)
Lemma refresh_local_time_sample_witness :
  connect Sim.creds 1 (Sim.time_server sample_reply) =
    (Ret tt, Sim.time_server sample_reply,
     [connecting_log; EvIsConnected true]) /\
  requests_get (time_url Sim.creds ∅) (Sim.time_server sample_reply) =
    (Ok (Sim.resp 200), Sim.time_server sample_reply) /\
  response_text (Sim.resp 200) (Sim.time_server sample_reply) =
    (Ok sample_reply, Sim.time_server sample_reply) /\
  refresh_local_time Sim.creds 1 ∅ (Sim.time_server sample_reply) =
    (Ret sample_time,
     response_close (Sim.resp 200)
       (rtc_set_datetime sample_time (Sim.time_server sample_reply)),
     timezone_log ∅ :: EvLog DEBUG "Requesting time from %s"
       :: [connecting_log; EvIsConnected true] ++
     [EvGet (time_url Sim.creds ∅) (Ok (Sim.resp 200));
      EvText (Sim.resp 200) (Ok sample_reply);
      EvLog DEBUG "Time reply: %s";
      EvText (Sim.resp 200) (Ok sample_reply);
      EvRtc sample_time; EvLog DEBUG "Fetched time: %s";
      EvClose (Sim.resp 200); EvGcCollect]).
Proof.
  split; [reflexivity|]. split; [reflexivity|]. split; [reflexivity|].
  apply (refresh_local_time_sample Sim.creds 1 ∅
           (Sim.time_server sample_reply) (Sim.time_server sample_reply)
           (Sim.time_server sample_reply) (Sim.time_server sample_reply)
           (Sim.time_server sample_reply)
           [connecting_log; EvIsConnected true] (Sim.resp 200));
    reflexivity.
Defined.

(** An associated radio and a time service that sends an empty body. *)
Lemma refresh_local_time_missing_fields_witness :
  connect Sim.creds 1 (Sim.time_server "") =
    (Ret tt, Sim.time_server "", [connecting_log; EvIsConnected true]) /\
  requests_get (time_url Sim.creds ∅) (Sim.time_server "") =
    (Ok (Sim.resp 200), Sim.time_server "") /\
  response_text (Sim.resp 200) (Sim.time_server "") =
    (Ok "", Sim.time_server "") /\
  (length (py_split " " "") < 4)%nat /\
  exists e,
    refresh_local_time Sim.creds 1 ∅ (Sim.time_server "") =
      (Raise e, Sim.time_server "",
       timezone_log ∅ :: EvLog DEBUG "Requesting time from %s"
         :: [connecting_log; EvIsConnected true] ++
       [EvGet (time_url Sim.creds ∅) (Ok (Sim.resp 200));
        EvText (Sim.resp 200) (Ok "");
        EvLog DEBUG "Time reply: %s";
        EvText (Sim.resp 200) (Ok "")]) /\
    (exn_cls e = IndexError \/ exn_cls e = ValueError) /\
    e <> lookup_error.
Proof.
  split; [reflexivity|]. split; [reflexivity|]. split; [reflexivity|].
  split; [cbn; lia|].
  apply (refresh_local_time_missing_fields Sim.creds 1 ∅ ""
           (Sim.time_server "") (Sim.time_server "") (Sim.time_server "")
           (Sim.time_server "") (Sim.time_server "")
           [connecting_log; EvIsConnected true] (Sim.resp 200));
    first [reflexivity | cbn; lia].
Defined.

(** ** Runs on the scripted platform *)

(** The value of a closed run, by evaluation. *)
Ltac evaluate run Hrun :=
  let v := eval vm_compute in run in
  assert (Hrun : run = v) by (vm_compute; reflexivity).

(** The first POST is answered with 200 and a body that decodes. *)
Lemma post_true_iff_decoded_200_witness :
  exists w' evs,
    post Sim.creds 6 "temperature" [] Sim.healthy = (Ret true, w', evs) /\
    (Ret true = Ret true <->
     exists r j,
       In (EvPost (feed_url Sim.creds "temperature") (auth_header Sim.creds)
             [] (Ok r)) evs /\
       In (EvJson r (Ok j)) evs /\ status_code r = 200) /\
    (only_RuntimeErrors evs ->
     (forall r,
        ~ In (EvPost (feed_url Sim.creds "temperature")
                (auth_header Sim.creds) [] (Ok r)) evs) ->
     Ret true <> OutOfFuel ->
     Ret true = Ret false /\ attempts evs = 5%nat).
Proof.
  evaluate (post Sim.creds 6 "temperature" [] Sim.healthy) Hrun.
  eexists _, _. split; [exact Hrun|].
  exact (post_true_iff_decoded_200 Sim.creds 6 "temperature" [] Sim.healthy
           _ _ _ Hrun).
Defined.

(** C1, as stated, fails: the only attempt receives a response with
    status 200, its body is not JSON, and [post] raises the [ValueError]
    of the decoding instead of returning [True]. *)
Lemma post_raises_despite_200 :
  exists w' evs,
    post Sim.creds 6 "temperature" [] Sim.bad_body =
      (Raise Sim.decode_error, w', evs) /\
    In (EvPost (feed_url Sim.creds "temperature") (auth_header Sim.creds) []
          (Ok (Sim.resp 200))) evs /\
    status_code (Sim.resp 200) = 200.
Proof.
  evaluate (post Sim.creds 6 "temperature" [] Sim.bad_body) Hrun.
  eexists _, _. split; [exact Hrun|]. split; [|reflexivity].
  do 6 right. left. reflexivity.
Qed.

(** No POST gets through: five attempts, then [False]. *)
Lemma post_attempts_at_most_five_witness :
  exists w' evs,
    post Sim.creds 6 "temperature" [] Sim.offline = (Ret false, w', evs) /\
    (attempts evs <= 5)%nat /\
    (Ret false = Ret false ->
     attempts evs = 5%nat \/
     exists r j, In (EvJson r (Ok j)) evs /\ status_code r <> 200).
Proof.
  evaluate (post Sim.creds 6 "temperature" [] Sim.offline) Hrun.
  eexists _, _. split; [exact Hrun|].
  exact (post_attempts_at_most_five Sim.creds 6 "temperature" [] Sim.offline
           _ _ _ Hrun).
Defined.


(** C5, as stated, fails: the first attempt receives a response (status
    500), reading its body fails with a transport error, and a second
    attempt is made. *)
Lemma post_retries_after_response :
  exists w' suf,
    post Sim.creds 6 "temperature" [] Sim.flaky_body =
      (Ret true, w',
       (post_header ++ Sim.joined) ++
       EvPost (feed_url Sim.creds "temperature") (auth_header Sim.creds) []
         (Ok (Sim.resp 500)) :: suf) /\
    In (EvPost (feed_url Sim.creds "temperature") (auth_header Sim.creds) []
          (Ok (Sim.resp 200))) suf.
Proof.
  evaluate (post Sim.creds 6 "temperature" [] Sim.flaky_body) Hrun.
  eexists _, _. split; [exact Hrun|].
  do 9 right. left. reflexivity.
Qed.

(** A response whose body cannot be read, then one that decodes. *)
Lemma post_stops_on_decoded_response_witness :
  exists w' evs,
    post Sim.creds 6 "temperature" [] Sim.flaky_body = (Ret true, w', evs) /\
    (forall pre r j suf,
       evs = pre ++ EvJson r (Ok j) :: suf ->
       suf = [text_log; EvClose r] /\ Ret true = Ret (status_code r =? 200)) /\
    (forall pre u h p x suf,
       evs = pre ++ EvPost u h p x :: suf ->
       (0 < attempts suf)%nat ->
       (exists e, x = Err e /\ is_RuntimeError e = true) \/
       (exists r e suf',
          x = Ok r /\ suf = status_logs r ++ EvJson r (Err e) :: suf' /\
          is_RuntimeError e = true)).
Proof.
  evaluate (post Sim.creds 6 "temperature" [] Sim.flaky_body) Hrun.
  eexists _, _. split; [exact Hrun|].
  exact (post_stops_on_decoded_response Sim.creds 6 "temperature" []
           Sim.flaky_body _ _ _ Hrun).
Defined.

(** Status 200 and a body that is not JSON. *)
Lemma post_json_error_propagates_witness :
  exists w',
    post Sim.creds 6 "temperature" [] Sim.bad_body =
      (Raise Sim.decode_error, w',
       (post_header ++ Sim.joined ++
        EvPost (feed_url Sim.creds "temperature") (auth_header Sim.creds) []
          (Ok (Sim.resp 200)) :: status_logs (Sim.resp 200)) ++
       EvJson (Sim.resp 200) (Err Sim.decode_error) :: []) /\
    is_RuntimeError Sim.decode_error = false /\
    Raise Sim.decode_error = Raise (A := bool) Sim.decode_error /\
    @nil event = [].
Proof.
  evaluate (post Sim.creds 6 "temperature" [] Sim.bad_body) Hrun.
  eexists _. split; [exact Hrun|]. split; [reflexivity|].
  eapply (post_json_error_propagates Sim.creds 6 "temperature" []
            Sim.bad_body _ _ _
            (post_header ++ Sim.joined ++
             EvPost (feed_url Sim.creds "temperature") (auth_header Sim.creds)
               [] (Ok (Sim.resp 200)) :: status_logs (Sim.resp 200)));
    [exact Hrun | reflexivity | reflexivity].
Defined.

(** A radio whose first two association attempts fail is down for two
    rounds, and a run of [connect] that is followed for two rounds only is
    still retrying when it is cut off. *)
Example radio_down_two_rounds :
  radio_down Sim.creds 2
    (Sim.boot [Err Sim.transport_error; Err Sim.transport_error] [] []) /\
  connect Sim.creds 2
    (Sim.boot [Err Sim.transport_error; Err Sim.transport_error] [] []) =
    (OutOfFuel, Sim.boot [] [] [],
     [connecting_log;
      EvIsConnected false;
      EvConnectAP "net" "secret" (Err Sim.transport_error); retry_log;
      EvIsConnected false;
      EvConnectAP "net" "secret" (Err Sim.transport_error); retry_log]).
Proof.
  split; [cbn; auto|reflexivity].
Qed.

(** * Further properties *)

(** ** AIO.refresh_local_time: every run *)

Lemma py_index_error (l : list string) (i : nat) (e : exn) :
  py_index l i = Err e -> exn_cls e = IndexError.
Proof.
  unfold py_index. destruct (l !! i); intros Heq; [discriminate|].
  injection Heq as <-. reflexivity.
Qed.

Lemma py_int_error (s : string) (e : exn) :
  py_int s = Err e -> exn_cls e = ValueError.
Proof.
  unfold py_int.
  destruct (match strip (list_ascii_of_string s) with
            | [] => _ | _ => _ end) as [neg ds].
  destruct ds; [intros Heq; injection Heq as <-; reflexivity|].
  destruct (digits _ 0); intros Heq; [discriminate|].
  injection Heq as <-. reflexivity.
Qed.

Lemma int_list_error (l : list string) (e : exn) :
  int_list l = Err e -> exn_cls e = ValueError.
Proof.
  induction l as [|x l IH]; cbn; [discriminate|].
  destruct (py_int x) eqn:Hx.
  - destruct (int_list l); [discriminate|].
    intros Heq. injection Heq as <-. auto.
  - intros Heq. injection Heq as <-. eapply py_int_error; eauto.
Qed.

Lemma unpack3_error (l : list Z) (e : exn) :
  unpack3 l = Err e -> exn_cls e = ValueError.
Proof.
  destruct l as [|a [|b [|c [|d l]]]]; cbn; intros Heq; try discriminate;
    injection Heq as <-; reflexivity.
Qed.

(** The errors of the parser are those of list indexing and of [int]. *)
Lemma parse_reply_error (body : string) (e : exn) :
  parse_reply body = Err e ->
  exn_cls e = IndexError \/ exn_cls e = ValueError.
Proof.
  unfold parse_reply, and_then.
  repeat match goal with
         | |- context [let '(_, _) := ?x in _] => destruct x as [[? ?] ?]
         | |- context [match ?x with Ok _ => _ | Err _ => _ end] =>
             let Hx := fresh "Hx" in destruct x eqn:Hx
         end;
    intros Heq; try discriminate; injection Heq as <-;
    eauto using py_index_error, py_int_error, int_list_error, unpack3_error.
Qed.

(** The end of a branch of the parser: the class of the error decides
    what [except KeyError] does with it. *)
Ltac parse_leaf :=
  unfold is_KeyError;
  try (erewrite py_index_error by eassumption);
  try (erewrite py_int_error by eassumption);
  cbn -[time_url]; rewrite ?app_nil_r, <- ?app_assoc; reflexivity.

Section TimeRuns.

Context {W : Type} `{Platform W}.
Variable cfg : credentials.

(** [refresh_local_time], step by step: the platform calls in the order
    of the source, then the pure computation on the body. *)
Lemma refresh_local_time_unfold (fuel : nat) (env : gmap string string) (w : W) :
  refresh_local_time cfg fuel env w =
  match connect cfg fuel w with
  | (Ret _, w1, t) =>
      match requests_get (time_url cfg env) w1 with
      | (Ok response, w2) =>
          match response_text response w2 with
          | (Ok shown, w3) =>
              match response_text response w3 with
              | (Ok body, w4) =>
                  match parse_reply body with
                  | Ok now =>
                      (Ret now,
                       response_close response (rtc_set_datetime now w4),
                       timezone_log env
                         :: EvLog DEBUG "Requesting time from %s" :: t ++
                       [EvGet (time_url cfg env) (Ok response);
                        EvText response (Ok shown);
                        EvLog DEBUG "Time reply: %s";
                        EvText response (Ok body);
                        EvRtc now; EvLog DEBUG "Fetched time: %s";
                        EvClose response; EvGcCollect])
                  | Err e =>
                      (Raise e, w4,
                       timezone_log env
                         :: EvLog DEBUG "Requesting time from %s" :: t ++
                       [EvGet (time_url cfg env) (Ok response);
                        EvText response (Ok shown);
                        EvLog DEBUG "Time reply: %s";
                        EvText response (Ok body)])
                  end
              | (Err e, w4) =>
                  (Raise (reraise e), w4,
                   timezone_log env
                     :: EvLog DEBUG "Requesting time from %s" :: t ++
                   [EvGet (time_url cfg env) (Ok response);
                    EvText response (Ok shown);
                    EvLog DEBUG "Time reply: %s";
                    EvText response (Err e)])
              end
          | (Err e, w3) =>
              (Raise (reraise e), w3,
               timezone_log env
                 :: EvLog DEBUG "Requesting time from %s" :: t ++
               [EvGet (time_url cfg env) (Ok response);
                EvText response (Err e)])
          end
      | (Err e, w2) =>
          (Raise (reraise e), w2,
           timezone_log env :: EvLog DEBUG "Requesting time from %s" :: t ++
           [EvGet (time_url cfg env) (Err e)])
      end
  | (Raise e, w1, t) =>
      (Raise (reraise e), w1,
       timezone_log env :: EvLog DEBUG "Requesting time from %s" :: t)
  | (OutOfFuel, w1, t) =>
      (OutOfFuel, w1,
       timezone_log env :: EvLog DEBUG "Requesting time from %s" :: t)
  end.
Proof.
  unfold refresh_local_time, fetch_time, timezone_log, try_except, bind,
    logger, emit, http_get, text, call, lift, close, ret, raise, reraise.
  destruct (getenv env "timezone") as [[|? ?]|];
    cbn -[connect time_url py_split parse_reply];
    (destruct (connect cfg fuel w) as [[[[]|e|] w1] t];
     cbn -[connect time_url py_split parse_reply];
     [|destruct (is_KeyError e); rewrite ?app_nil_r; reflexivity
      |reflexivity]).
  all: destruct (requests_get (time_url cfg env) w1) as [[response|e] w2];
    cbn -[connect time_url py_split parse_reply];
    [|destruct (is_KeyError e); rewrite ?app_nil_r; reflexivity].
  all: destruct (response_text response w2) as [[shown|e] w3];
    cbn -[connect time_url py_split parse_reply];
    [|destruct (is_KeyError e); rewrite ?app_nil_r; reflexivity].
  all: destruct (response_text response w3) as [[body|e] w4];
    cbn -[connect time_url py_split parse_reply];
    [|destruct (is_KeyError e); rewrite ?app_nil_r; reflexivity].
  all: unfold parse_reply, and_then.
  all: set (times := py_split " " body).
  all: destruct (py_index times 0) as [the_date|e0] eqn:H0;
    cbn -[time_url py_split py_index py_int]; [|parse_leaf].
  all: destruct (py_index times 1) as [the_time|e1] eqn:H1;
    cbn -[time_url py_split py_index py_int]; [|parse_leaf].
  all: destruct (py_index times 2) as [f2|e2] eqn:H2;
    cbn -[time_url py_split py_index py_int]; [|parse_leaf].
  all: destruct (py_int f2) as [year_day|e3] eqn:H3;
    cbn -[time_url py_split py_index py_int]; [|parse_leaf].
  all: destruct (py_index times 3) as [f3|e4] eqn:H4;
    cbn -[time_url py_split py_index py_int]; [|parse_leaf].
  all: destruct (py_int f3) as [week_day|e5] eqn:H5;
    cbn -[time_url py_split py_index py_int]; [|parse_leaf].
  all: destruct (int_list (py_split "-" the_date)) as [ymd|e6];
    cbn -[time_url py_split py_index py_int]; [|parse_leaf].
  all: destruct (unpack3 ymd) as [[[year month] mday]|e7];
    cbn -[time_url py_split py_index py_int]; [|parse_leaf].
  all: destruct (py_index (py_split "." the_time) 0) as [the_time0|e8];
    cbn -[time_url py_split py_index py_int]; [|parse_leaf].
  all: destruct (int_list (py_split ":" the_time0)) as [hms|e9];
    cbn -[time_url py_split py_index py_int]; [|parse_leaf].
  all: destruct (unpack3 hms) as [[[hours minutes] seconds]|e10];
    cbn -[time_url py_split py_index py_int]; parse_leaf.
Qed.

End TimeRuns.

(** ** AIO.connect: errors and counts *)

(** Lists of status reads, association attempts and retry log lines hold
    nothing else. *)
Lemma assoc_counts (body : list event) :
  Forall assoc_event body ->
  resets body = O /\ closes body = O /\ gets body = O /\ attempts body = O.
Proof.
  induction 1 as [|ev body Hev _ IH]; [repeat split; reflexivity|].
  destruct ev; cbn in *; tauto.
Qed.

Lemma assoc_not_in (body : list event) (ev : event) :
  Forall assoc_event body -> ~ assoc_event ev -> ~ In ev body.
Proof.
  intros Hb Hev Hin. rewrite Forall_forall in Hb.
  apply Hev, Hb, list_elem_of_In, Hin.
Qed.

Lemma resets_app (l1 l2 : list event) :
  resets (l1 ++ l2) = (resets l1 + resets l2)%nat.
Proof.
  induction l1 as [|ev l1 IH]; [reflexivity|].
  destruct ev; cbn; rewrite IH; reflexivity.
Qed.

Lemma closes_app (l1 l2 : list event) :
  closes (l1 ++ l2) = (closes l1 + closes l2)%nat.
Proof.
  induction l1 as [|ev l1 IH]; [reflexivity|].
  destruct ev; cbn; rewrite IH; reflexivity.
Qed.

Lemma gets_app (l1 l2 : list event) :
  gets (l1 ++ l2) = (gets l1 + gets l2)%nat.
Proof.
  induction l1 as [|ev l1 IH]; [reflexivity|].
  destruct ev; cbn; rewrite IH; reflexivity.
Qed.

Lemma associations_app (l1 l2 : list event) :
  associations (l1 ++ l2) = (associations l1 + associations l2)%nat.
Proof.
  induction l1 as [|ev l1 IH]; [reflexivity|].
  destruct ev; cbn; rewrite IH; reflexivity.
Qed.

(** One iteration of the loop of [connect], by cases on the platform. *)
Ltac connect_case Hrun :=
  rewrite connect_loop_S in Hrun;
  let Hc := fresh "Hc" in
  let Hap := fresh "Hap" in
  let Hrt := fresh "Hrt" in
  let Hl := fresh "Hl" in
  match type of Hrun with
  | context [esp_is_connected ?w] => destruct (esp_is_connected w) eqn:Hc
  end;
  [ | match type of Hrun with
      | context [esp_connect_AP ?s ?p ?w] =>
          destruct (esp_connect_AP s p w) as [[?u|?e] ?w1] eqn:Hap
      end;
      [ | match type of Hrun with
          | context [is_RuntimeError ?e] =>
              destruct (is_RuntimeError e) eqn:Hrt
          end ];
      try match type of Hrun with
          | context [connect_loop ?c ?f ?w] =>
              destruct (connect_loop c f w) as [[?o ?w2] ?t] eqn:Hl
          end ];
  injection Hrun as <- <- <-.

Section ConnectMore.

Context {W : Type} `{Platform W}.
Variable cfg : credentials.

Lemma connect_loop_counts (fuel : nat) (w w' : W) out evs :
  connect_loop cfg fuel w = (out, w', evs) ->
  associations evs = down_reads evs /\
  (out = OutOfFuel -> associations evs = fuel).
Proof.
  revert w w' out evs.
  induction fuel as [|fuel IH]; intros w w' out evs Hrun.
  - injection Hrun as <- <- <-. auto.
  - connect_case Hrun; cbn.
    + split; [reflexivity|discriminate].
    + destruct (IH _ _ _ _ Hl) as [Heq Hcut]. split; [lia|].
      intros Hout. rewrite (Hcut Hout). reflexivity.
    + destruct (IH _ _ _ _ Hl) as [Heq Hcut]. split; [lia|].
      intros Hout. rewrite (Hcut Hout). reflexivity.
    + split; [reflexivity|discriminate].
Qed.

(** An error reply in a run of the loop was a [RuntimeError], which the
    loop swallowed, or it is the exception the loop raised. *)
Lemma connect_loop_errors (fuel : nat) (w w' : W) out evs ev e :
  connect_loop cfg fuel w = (out, w', evs) ->
  In ev evs -> error_of ev = Some e ->
  is_RuntimeError e = true \/ out = Raise e.
Proof.
  revert w w' out evs.
  induction fuel as [|fuel IH]; intros w w' out evs Hrun Hin Herr.
  - injection Hrun as <- <- <-. destruct Hin.
  - connect_case Hrun.
    + destruct Hin as [<-|[]]. discriminate.
    + destruct Hin as [<-|[<-|Hin]]; try discriminate. eauto.
    + destruct Hin as [<-|[<-|[<-|Hin]]]; try discriminate; [|eauto].
      injection Herr as <-. auto.
    + destruct Hin as [<-|[<-|[]]]; try discriminate.
      injection Herr as <-. auto.
Qed.

Lemma connect_loop_credentials (fuel : nat) (w w' : W) out evs name pw r :
  connect_loop cfg fuel w = (out, w', evs) ->
  In (EvConnectAP name pw r) evs -> name = ssid cfg /\ pw = password cfg.
Proof.
  revert w w' out evs.
  induction fuel as [|fuel IH]; intros w w' out evs Hrun Hin.
  - injection Hrun as <- <- <-. destruct Hin.
  - connect_case Hrun; cbn in Hin;
      repeat (destruct Hin as [Hin|Hin]; [simplify_eq; auto|]);
      try destruct Hin; eauto.
Qed.

(** X1.  [connect] raises exactly the exceptions of [connect_AP] that are
    not [RuntimeError]s: it raises [e] iff [e] is not a [RuntimeError]
    and the last interaction of the run is an association attempt that
    failed with [e]. *)
Theorem connect_raises_what_connect_AP_raises (fuel : nat) (w w' : W)
    out evs (e : exn) :
  connect cfg fuel w = (out, w', evs) ->
  out = Raise e <->
  is_RuntimeError e = false /\
  exists pre, evs = pre ++ [EvConnectAP (ssid cfg) (password cfg) (Err e)].
Proof.
  intros Hrun. destruct (connect_inv _ _ _ _ _ _ Hrun) as (body & -> & Hloop).
  split.
  - intros ->.
    destruct (connect_loop_raises _ _ _ _ _ _ Hloop) as (Hrt & pre & ->).
    split; [exact Hrt|]. exists (connecting_log :: pre). reflexivity.
  - intros (Hrt & pre & Heq).
    assert (Hin : In (EvConnectAP (ssid cfg) (password cfg) (Err e)) body).
    { destruct pre as [|? pre]; [discriminate|].
      injection Heq as _ ->. apply in_or_app. right. left. reflexivity. }
    destruct (connect_loop_errors _ _ _ _ _ _ _ Hloop Hin eq_refl);
      [congruence|assumption].
Qed.

(** X2.  In a run of [connect], every status read that answers
    "not associated" is matched by one association attempt, made with the
    configured SSID and password; a run cut off after [fuel] rounds has
    made [fuel] attempts; and [connect] never resets the radio and never
    sends an HTTP request. *)
Theorem connect_one_attempt_per_read (fuel : nat) (w w' : W) out evs :
  connect cfg fuel w = (out, w', evs) ->
  associations evs = down_reads evs /\
  (out = OutOfFuel -> associations evs = fuel) /\
  (forall s p r, In (EvConnectAP s p r) evs ->
     s = ssid cfg /\ p = password cfg) /\
  resets evs = O /\ attempts evs = O /\ gets evs = O.
Proof.
  intros Hrun. destruct (connect_inv _ _ _ _ _ _ Hrun) as (body & -> & Hloop).
  destruct (connect_loop_counts _ _ _ _ _ Hloop) as [Heq Hcut].
  destruct (assoc_counts _ (connect_loop_events _ _ _ _ _ _ Hloop))
    as (Hr & _ & Hg & Ha).
  cbn. split; [exact Heq|]. split; [exact Hcut|]. split; [|auto].
  intros s p r [Hin|Hin]; [discriminate|].
  eapply connect_loop_credentials; eauto.
Qed.

End ConnectMore.

(** ** AIO.refresh_local_time: what a run does and does not do *)

Lemma reraise_guidance (e : exn) :
  reraise e = lookup_error <-> is_KeyError e = true.
Proof.
  unfold reraise. destruct (is_KeyError e) eqn:Hk; split; auto.
  - intros ->. discriminate Hk.
  - discriminate.
Qed.

Lemma KeyError_not_RuntimeError (e : exn) :
  is_KeyError e = true -> is_RuntimeError e = false.
Proof.
  unfold is_KeyError, is_RuntimeError.
  destruct (exn_cls e); (discriminate || reflexivity).
Qed.

Lemma timezone_log_is_log (env : gmap string string) :
  exists fmt, timezone_log env = EvLog DEBUG fmt.
Proof.
  unfold timezone_log. destruct (getenv env "timezone") as [[|? ?]|]; eauto.
Qed.

(** Membership in a trace written with [::] and [++]. *)
Ltac in_trace := cbn [In app]; rewrite ?in_app_iff; cbn [In]; tauto.

Section TimeMore.

Context {W : Type} `{Platform W}.
Variable cfg : credentials.

(** The interactions of the [connect] of a run of [refresh_local_time]. *)
Lemma connect_trace (fuel : nat) (w w1 : W) oc t :
  connect cfg fuel w = (oc, w1, t) ->
  exists body,
    t = connecting_log :: body /\ Forall assoc_event body /\
    (forall ev e, In ev body -> error_of ev = Some e ->
       is_RuntimeError e = true \/ oc = Raise e) /\
    (forall e, oc = Raise e ->
       In (EvConnectAP (ssid cfg) (password cfg) (Err e)) body) /\
    (oc = OutOfFuel -> associations body = fuel).
Proof.
  intros Hc. destruct (connect_inv _ _ _ _ _ _ Hc) as (body & -> & Hloop).
  exists body. split; [reflexivity|].
  split; [eapply connect_loop_events; eauto|].
  split; [intros ev e; eapply connect_loop_errors; eauto|]. split.
  - intros e ->.
    destruct (connect_loop_raises _ _ _ _ _ _ Hloop) as (_ & pre & ->).
    apply in_or_app. right. left. reflexivity.
  - apply (connect_loop_counts _ _ _ _ _ _ Hloop).
Qed.

(** The runs of [refresh_local_time], by the step they end at. *)
Ltac refresh_cases Hrun :=
  rewrite refresh_local_time_unfold in Hrun;
  match type of Hrun with
  | context [connect ?c ?f ?w] =>
      let Hc := fresh "Hc" in
      destruct (connect c f w) as [[[[]|?e|] ?w1] ?t] eqn:Hc;
      destruct (connect_trace _ _ _ _ _ Hc)
        as (?body & -> & ?Hbody & ?Herrs & ?Hraised & ?Hcut)
  end;
  [ match type of Hrun with
    | context [requests_get ?u ?w] =>
        destruct (requests_get u w) as [[?response|?e] ?w2]
    end;
    [ match type of Hrun with
      | context [response_text ?r ?w] =>
          destruct (response_text r w) as [[?shown|?e] ?w3]
      end;
      [ match type of Hrun with
        | context [response_text ?r ?w] =>
            destruct (response_text r w) as [[?body|?e] ?w4]
        end;
        [ match type of Hrun with
          | context [parse_reply ?b] =>
              let Hp := fresh "Hparse" in
              destruct (parse_reply b) as [?now|?e] eqn:Hp
          end | ] | ] | ] | | ];
  injection Hrun as <- <- <-.

(** X3.  [refresh_local_time] raises the [KeyError] with the advice on
    the timezone setting exactly when a call into the vendor libraries
    ([connect_AP], the GET, a read of the body) raised a [KeyError]; the
    content of the reply never leads to it. *)
Theorem refresh_guidance_iff_library_KeyError (fuel : nat)
    (env : gmap string string) (w w' : W) out evs :
  refresh_local_time cfg fuel env w = (out, w', evs) ->
  out = Raise lookup_error <->
  exists ev e, In ev evs /\ error_of ev = Some e /\ is_KeyError e = true.
Proof.
  intros Hrun.
  destruct (timezone_log_is_log env) as [fmt Htz].
  assert (Hquiet : forall body ev e tail,
            Forall assoc_event body ->
            (forall ev e, In ev body -> error_of ev = Some e ->
               is_RuntimeError e = true \/ False) ->
            In ev (timezone_log env :: EvLog DEBUG "Requesting time from %s"
                     :: (connecting_log :: body) ++ tail) ->
            error_of ev = Some e -> is_KeyError e = true ->
            In ev tail).
  { intros body ev e tail Hb Herrs Hin Herr Hk. rewrite Htz in Hin.
    destruct Hin as [<-|[<-|Hin]]; try discriminate.
    apply in_app_or in Hin. destruct Hin as [[<-|Hin]|Hin];
      [discriminate| |exact Hin].
    destruct (Herrs _ _ Hin Herr) as [Hrt|[]].
    rewrite (KeyError_not_RuntimeError _ Hk) in Hrt. discriminate. }
  refresh_cases Hrun.
  - (* returns *)
    split; [discriminate|]. intros (ev & e & Hin & Herr & Hk). exfalso.
    eapply Hquiet in Hin; eauto.
    + repeat (destruct Hin as [<-|Hin]; [discriminate|]). destruct Hin.
    + intros ev' e' Hin' Herr'.
      destruct (Herrs _ _ Hin' Herr'); [auto|discriminate].
  - (* the parser raises *)
    split.
    + intros Heq. injection Heq as ->.
      destruct (parse_reply_error _ _ Hparse) as [Hcls|Hcls]; discriminate.
    + intros (ev & e' & Hin & Herr & Hk). exfalso.
      eapply Hquiet in Hin; eauto.
      * repeat (destruct Hin as [<-|Hin]; [discriminate|]). destruct Hin.
      * intros ev' e'' Hin' Herr'.
        destruct (Herrs _ _ Hin' Herr'); [auto|discriminate].
  - (* the second read of the body raises *)
    split.
    + intros Heq. injection Heq as Heq. apply reraise_guidance in Heq.
      exists (EvText response (Err e)), e. split; [|auto].
      in_trace.
    + intros (ev & e' & Hin & Herr & Hk). f_equal. apply reraise_guidance.
      eapply Hquiet in Hin; eauto.
      * repeat (destruct Hin as [<-|Hin]; [try discriminate|]);
          try destruct Hin. injection Herr as ->. exact Hk.
      * intros ev' e'' Hin' Herr'.
        destruct (Herrs _ _ Hin' Herr'); [auto|discriminate].
  - (* the first read of the body raises *)
    split.
    + intros Heq. injection Heq as Heq. apply reraise_guidance in Heq.
      exists (EvText response (Err e)), e. split; [|auto].
      in_trace.
    + intros (ev & e' & Hin & Herr & Hk). f_equal. apply reraise_guidance.
      eapply Hquiet in Hin; eauto.
      * repeat (destruct Hin as [<-|Hin]; [try discriminate|]);
          try destruct Hin. injection Herr as ->. exact Hk.
      * intros ev' e'' Hin' Herr'.
        destruct (Herrs _ _ Hin' Herr'); [auto|discriminate].
  - (* the GET raises *)
    split.
    + intros Heq. injection Heq as Heq. apply reraise_guidance in Heq.
      exists (EvGet (time_url cfg env) (Err e)), e. split; [|auto].
      in_trace.
    + intros (ev & e' & Hin & Herr & Hk). f_equal. apply reraise_guidance.
      eapply Hquiet in Hin; eauto.
      * repeat (destruct Hin as [<-|Hin]; [try discriminate|]);
          try destruct Hin. injection Herr as ->. exact Hk.
      * intros ev' e'' Hin' Herr'.
        destruct (Herrs _ _ Hin' Herr'); [auto|discriminate].
  - (* connect raises *)
    split.
    + intros Heq. injection Heq as Heq. apply reraise_guidance in Heq.
      exists (EvConnectAP (ssid cfg) (password cfg) (Err e)), e.
      split; [|auto]. right. right. right. apply Hraised. reflexivity.
    + intros (ev & e' & Hin & Herr & Hk). f_equal. apply reraise_guidance.
      rewrite Htz in Hin.
      destruct Hin as [<-|[<-|[<-|Hin]]]; try discriminate.
      destruct (Herrs _ _ Hin Herr) as [Hrt|Heq].
      * rewrite (KeyError_not_RuntimeError _ Hk) in Hrt. discriminate.
      * injection Heq as ->. exact Hk.
  - (* cut off in connect *)
    split; [discriminate|]. intros (ev & e' & Hin & Herr & Hk). exfalso.
    rewrite Htz in Hin.
    destruct Hin as [<-|[<-|[<-|Hin]]]; try discriminate.
    destruct (Herrs _ _ Hin Herr) as [Hrt|Heq]; [|discriminate].
    rewrite (KeyError_not_RuntimeError _ Hk) in Hrt. discriminate.
Qed.

(** Counting in the trace of a run of [refresh_local_time]. *)
Ltac count_trace Htz Hbody :=
  rewrite Htz; unfold connecting_log;
  cbn [app gets closes resets attempts associations];
  rewrite ?gets_app, ?closes_app, ?resets_app, ?attempts_app,
    ?associations_app;
  let Hr := fresh "Hr" in
  let Hcl := fresh "Hcl" in
  let Hg := fresh "Hg" in
  let Ha := fresh "Ha" in
  destruct (assoc_counts _ Hbody) as (Hr & Hcl & Hg & Ha);
  rewrite ?Hr, ?Hcl, ?Hg, ?Ha;
  cbn [app gets closes resets attempts associations].

(** An interaction of a run that is neither a log line nor one of
    [connect] belongs to what follows [connect]. *)
Lemma in_after_connect (env : gmap string string) (body tail : list event)
    (ev : event) :
  Forall assoc_event body -> ~ assoc_event ev ->
  (forall lvl fmt, ev <> EvLog lvl fmt) ->
  In ev (timezone_log env :: EvLog DEBUG "Requesting time from %s"
           :: (connecting_log :: body) ++ tail) ->
  In ev tail.
Proof.
  intros Hb Hev Hlog Hin.
  destruct (timezone_log_is_log env) as [fmt Htz]. rewrite Htz in Hin.
  destruct Hin as [<-|[<-|Hin]]; [destruct (Hlog _ _ eq_refl)..|].
  apply in_app_or in Hin. destruct Hin as [[<-|Hin]|Hin]; [| |exact Hin].
  - destruct (Hlog _ _ eq_refl).
  - destruct (assoc_not_in _ _ Hb Hev Hin).
Qed.

(** X4.  [refresh_local_time] sets the real-time clock exactly when it
    returns, and to the value it returns: a run that raises, at whatever
    step, has not touched the clock. *)
Theorem refresh_sets_clock_iff_returns (fuel : nat)
    (env : gmap string string) (w w' : W) out evs (now : struct_time) :
  refresh_local_time cfg fuel env w = (out, w', evs) ->
  In (EvRtc now) evs <-> out = Ret now.
Proof.
  intros Hrun.
  assert (Hafter : forall body tail,
            Forall assoc_event body ->
            In (EvRtc now)
               (timezone_log env :: EvLog DEBUG "Requesting time from %s"
                  :: (connecting_log :: body) ++ tail) ->
            In (EvRtc now) tail).
  { intros body tail Hb. apply in_after_connect; auto; discriminate. }
  refresh_cases Hrun.
  - split.
    + intros Hin. apply Hafter in Hin; [|exact Hbody].
      repeat (destruct Hin as [Hin|Hin]; [try discriminate|]);
        [|destruct Hin].
      injection Hin as ->. reflexivity.
    + intros Heq. injection Heq as ->. in_trace.
  - split; [|discriminate]. intros Hin. apply Hafter in Hin; [|exact Hbody].
    repeat (destruct Hin as [Hin|Hin]; [discriminate|]). destruct Hin.
  - split; [|discriminate]. intros Hin. apply Hafter in Hin; [|exact Hbody].
    repeat (destruct Hin as [Hin|Hin]; [discriminate|]). destruct Hin.
  - split; [|discriminate]. intros Hin. apply Hafter in Hin; [|exact Hbody].
    repeat (destruct Hin as [Hin|Hin]; [discriminate|]). destruct Hin.
  - split; [|discriminate]. intros Hin. apply Hafter in Hin; [|exact Hbody].
    repeat (destruct Hin as [Hin|Hin]; [discriminate|]). destruct Hin.
  - split; [|discriminate]. intros Hin.
    rewrite <- (app_nil_r (connecting_log :: body)) in Hin.
    apply Hafter in Hin; [destruct Hin|exact Hbody].
  - split; [|discriminate]. intros Hin.
    rewrite <- (app_nil_r (connecting_log :: body)) in Hin.
    apply Hafter in Hin; [destruct Hin|exact Hbody].
Qed.

(** X5.  A response that [refresh_local_time] received is closed when the
    run returns, once, and is left open when the run raises: a failed read
    of the body or a reply that does not parse skips [response.close()]. *)
Theorem refresh_closes_response_only_on_return (fuel : nat)
    (env : gmap string string) (w w' : W) out evs url response :
  refresh_local_time cfg fuel env w = (out, w', evs) ->
  In (EvGet url (Ok response)) evs ->
  match out with
  | Ret _ => closes evs = 1%nat /\ In (EvClose response) evs
  | Raise _ => closes evs = O
  | OutOfFuel => False
  end.
Proof.
  intros Hrun Hin.
  destruct (timezone_log_is_log env) as [fmt Htz].
  assert (Hafter : forall body tail,
            Forall assoc_event body ->
            In (EvGet url (Ok response))
               (timezone_log env :: EvLog DEBUG "Requesting time from %s"
                  :: (connecting_log :: body) ++ tail) ->
            In (EvGet url (Ok response)) tail).
  { intros body tail Hb. apply in_after_connect; auto; discriminate. }
  refresh_cases Hrun.
  - apply Hafter in Hin; [|exact Hbody].
    destruct Hin as [Hin|Hin];
      [|repeat (destruct Hin as [Hin|Hin]; [discriminate|]); destruct Hin].
    injection Hin as _ <-. split; [|in_trace].
    count_trace Htz Hbody. reflexivity.
  - count_trace Htz Hbody. reflexivity.
  - count_trace Htz Hbody. reflexivity.
  - count_trace Htz Hbody. reflexivity.
  - count_trace Htz Hbody. reflexivity.
  - rewrite <- (app_nil_r (connecting_log :: body)) in Hin.
    apply Hafter in Hin; [destruct Hin|exact Hbody].
  - rewrite <- (app_nil_r (connecting_log :: body)) in Hin.
    apply Hafter in Hin; [destruct Hin|exact Hbody].
Qed.

(** X6.  A run of [refresh_local_time] sends at most one GET, to the URL
    of the time service, and only after [connect] has returned; it sends
    no POST and never resets the radio.  It goes on for ever only inside
    [connect]: a run cut off has made [fuel] association attempts and no
    request. *)
Theorem refresh_single_request (fuel : nat)
    (env : gmap string string) (w w' : W) out evs :
  refresh_local_time cfg fuel env w = (out, w', evs) ->
  (gets evs <= 1)%nat /\ attempts evs = O /\ resets evs = O /\
  (forall url r pre suf, evs = pre ++ EvGet url r :: suf ->
     url = time_url cfg env /\
     exists pre', pre = pre' ++ [EvIsConnected true]) /\
  (out = OutOfFuel -> associations evs = fuel /\ gets evs = O%nat).
Proof.
  intros Hrun.
  destruct (timezone_log_is_log env) as [fmt Htz].
  assert (Hsplit : forall body tail url r pre suf,
            Forall assoc_event body ->
            timezone_log env :: EvLog DEBUG "Requesting time from %s"
              :: (connecting_log :: body) ++ tail = pre ++ EvGet url r :: suf ->
            exists pre',
              pre = timezone_log env :: EvLog DEBUG "Requesting time from %s"
                      :: (connecting_log :: body) ++ pre' /\
              tail = pre' ++ EvGet url r :: suf).
  { intros body tail url r pre suf Hb Heq. rewrite Htz in Heq |- *.
    destruct pre as [|a [|b pre]]; try discriminate.
    injection Heq as <- <- Heq.
    apply (split_app (connecting_log :: body)) in Heq.
    destruct Heq as [(mid & Heq & _)|(pre' & -> & ->)].
    - exfalso. assert (Hin : In (EvGet url r) (connecting_log :: body)).
      { rewrite Heq. apply in_or_app. right. left. reflexivity. }
      destruct Hin as [Hin|Hin]; [discriminate|].
      apply (assoc_not_in _ _ Hb) in Hin; auto.
    - eexists. split; reflexivity. }
  assert (Hlast : forall fuel w w1 body,
            connect cfg fuel w = (Ret tt, w1, connecting_log :: body) ->
            exists pre', connecting_log :: body = pre' ++ [EvIsConnected true]).
  { intros fuel0 w0 w1 body Hc.
    destruct (connect_inv _ _ _ _ _ _ Hc) as (body' & Heq & Hloop).
    injection Heq as <-.
    destruct (connect_loop_returns _ _ _ _ _ _ Hloop) as [[Hret _] _].
    destruct (Hret eq_refl) as (pre & ->).
    exists (connecting_log :: pre). reflexivity. }
  refresh_cases Hrun.
  all: try (destruct (Hlast _ _ _ _ Hc) as (last & Hlast')).
  all: (split; [count_trace Htz Hbody; lia|]);
    (split; [count_trace Htz Hbody; reflexivity|]);
    (split; [count_trace Htz Hbody; reflexivity|]).
  all: split; [|first [discriminate|idtac]].
  all: try (intros url r pre suf Heq;
            apply Hsplit in Heq; [|exact Hbody];
            destruct Heq as (pre' & -> & Heq);
            destruct pre' as [|a pre'];
            [injection Heq as <- _ _; split; [reflexivity|];
             rewrite app_nil_r, Hlast';
             exists (timezone_log env
                       :: EvLog DEBUG "Requesting time from %s" :: last);
             reflexivity
            |exfalso; injection Heq as _ Heq;
             repeat (destruct pre' as [|? pre'];
                     [discriminate|injection Heq as _ Heq]);
             destruct pre'; discriminate]).
  - intros url r pre suf Heq.
    rewrite <- (app_nil_r (connecting_log :: body)) in Heq.
    apply Hsplit in Heq; [|exact Hbody].
    destruct Heq as (pre' & _ & Heq). destruct pre'; discriminate.
  - intros url r pre suf Heq.
    rewrite <- (app_nil_r (connecting_log :: body)) in Heq.
    apply Hsplit in Heq; [|exact Hbody].
    destruct Heq as (pre' & _ & Heq). destruct pre'; discriminate.
  - intros _. count_trace Htz Hbody. split; [|reflexivity].
    rewrite (Hcut eq_refl). lia.
Qed.

End TimeMore.

(** ** AIO.post: requests, resets and responses *)

Lemma received_app (l1 l2 : list event) :
  received (l1 ++ l2) = (received l1 + received l2)%nat.
Proof.
  induction l1 as [|ev l1 IH]; [reflexivity|].
  destruct ev as [| | | |? ? ? []| | | | | |]; cbn; rewrite IH; reflexivity.
Qed.

Lemma undecoded_app (l1 l2 : list event) :
  undecoded (l1 ++ l2) = (undecoded l1 + undecoded l2)%nat.
Proof.
  induction l1 as [|ev l1 IH]; [reflexivity|].
  destruct ev as [| | | | | |? []| | | |]; cbn; rewrite IH; reflexivity.
Qed.

Lemma assoc_counts_http (body : list event) :
  Forall assoc_event body -> received body = O /\ undecoded body = O.
Proof.
  induction 1 as [|ev body Hev _ IH]; [split; reflexivity|].
  destruct ev; cbn in *; tauto.
Qed.

(** The counts of the log lines after the status of a response. *)
Lemma status_logs_counts (r : Response) :
  attempts (status_logs r) = O /\ resets (status_logs r) = O /\
  closes (status_logs r) = O /\ received (status_logs r) = O /\
  undecoded (status_logs r) = O /\ gets (status_logs r) = O.
Proof.
  unfold status_logs. destruct (status_code r =? 200); repeat split.
Qed.

(** Counting in a trace written with [::] and [++]. *)
Ltac tally :=
  repeat (cbn [attempts resets closes received undecoded gets app];
          rewrite ?attempts_app, ?resets_app, ?closes_app, ?received_app,
            ?undecoded_app, ?gets_app);
  cbn [attempts resets closes received undecoded gets app Nat.add].

Ltac tally_quiet Hb :=
  let Hr := fresh "Hr" in
  let Hcl := fresh "Hcl" in
  let Hg := fresh "Hg" in
  let Ha := fresh "Ha" in
  let Hv := fresh "Hv" in
  let Hu := fresh "Hu" in
  destruct (assoc_counts _ Hb) as (Hr & Hcl & Hg & Ha);
  destruct (assoc_counts_http _ Hb) as (Hv & Hu);
  rewrite ?Hr, ?Hcl, ?Hg, ?Ha, ?Hv, ?Hu.

Ltac tally_status r :=
  let Hr := fresh "Hr" in
  let Hcl := fresh "Hcl" in
  let Hg := fresh "Hg" in
  let Ha := fresh "Ha" in
  let Hv := fresh "Hv" in
  let Hu := fresh "Hu" in
  destruct (status_logs_counts r) as (Ha & Hr & Hcl & Hv & Hu & Hg);
  rewrite ?Hr, ?Hcl, ?Hg, ?Ha, ?Hv, ?Hu.

Section LoopMore.

Variables (url : string) (hdrs : list (string * string)) (payload : Payload).

(** An attempt the handler catches: one POST, no reset or close, and a
    response received only when its decoding raised. *)
Lemma tally_failed (failed : list event) :
  failed_attempt url hdrs payload failed ->
  attempts failed = 1%nat /\ resets failed = O /\ closes failed = O /\
  gets failed = O /\ received failed = undecoded failed.
Proof.
  intros [e He|r e He].
  - cbn. auto.
  - tally. tally_status r. cbn. auto.
Qed.

(** The counts of a run of the retry loop entered with the counter at
    [tries]. *)
Lemma loop_tally (tries : Z) out evs :
  loop_run url hdrs payload tries out evs ->
  0 <= tries <= 5 ->
  (resets evs <= attempts evs <= S (resets evs))%nat /\
  Z.of_nat (resets evs) <= 5 - tries /\
  (closes evs <= 1)%nat /\
  received evs = (closes evs + undecoded evs)%nat /\
  gets evs = O /\
  (out = Ret true -> attempts evs = S (resets evs) /\ closes evs = 1%nat) /\
  (out = Ret false -> closes evs = O ->
   Z.of_nat (resets evs) = 5 - tries /\ attempts evs = resets evs) /\
  (attempts evs = S (resets evs) -> out <> OutOfFuel).
Proof.
  induction 1 as [tries| |tries r j Ht|tries e Ht He|tries r e Ht He
                 |tries failed body out rest Ht Hf Hb Hrun IH
                 |tries failed body out Ht Hf Hb Hs]; intros Hrange.
  - cbn. repeat split; try lia; try discriminate.
  - cbn. repeat split; try lia; try discriminate.
  - tally. tally_status r. cbn.
    repeat split; try lia; try discriminate.
  - cbn. repeat split; try lia; try discriminate.
  - tally. tally_status r. cbn.
    repeat split; try lia; try discriminate.
  - destruct IH as (Hra & Hrb & Hc & Hv & Hg & Htrue & Hfalse & Hcut);
      [lia|].
    destruct (tally_failed _ Hf) as (Fa & Fr & Fc & Fg & Fv).
    tally. tally_quiet Hb. rewrite Fa, Fr, Fc, Fg, Fv. cbn.
    do 5 (split; [lia|]). split; [|split].
    + intros Hout. destruct (Htrue Hout). lia.
    + intros Hout Hcl'. destruct Hfalse as [? ?]; [exact Hout|lia|lia].
    + intros Heq. apply Hcut. lia.
  - destruct (tally_failed _ Hf) as (Fa & Fr & Fc & Fg & Fv).
    tally. tally_quiet Hb. rewrite Fa, Fr, Fc, Fg, Fv. cbn.
    do 5 (split; [lia|]). split; [|split].
    + intros Hout. inversion Hs; congruence.
    + intros Hout. inversion Hs; congruence.
    + intros Heq. lia.
Qed.

Lemma no_close_in (l : list event) (r : Response) :
  closes l = O -> ~ In (EvClose r) l.
Proof.
  induction l as [|ev l IH]; intros Hc Hin; [destruct Hin|].
  destruct Hin as [->|Hin]; [discriminate Hc|].
  destruct ev; cbn in Hc; try discriminate Hc; exact (IH Hc Hin).
Qed.

Lemma no_post_in (l : list event) u h p x :
  attempts l = O -> ~ In (EvPost u h p x) l.
Proof.
  induction l as [|ev l IH]; intros Hc Hin; [destruct Hin|].
  destruct Hin as [->|Hin]; [discriminate Hc|].
  destruct ev; cbn in Hc; try discriminate Hc; exact (IH Hc Hin).
Qed.

Lemma post_in_failed (failed : list event) u h p x :
  failed_attempt url hdrs payload failed ->
  In (EvPost u h p x) failed -> u = url /\ h = hdrs /\ p = payload.
Proof.
  intros [e He|r e He] Hin.
  - destruct Hin as [Hin|[]]. injection Hin as <- <- <- _. auto.
  - destruct Hin as [Hin|Hin]; [injection Hin as <- <- <- _; auto|].
    exfalso. revert Hin. apply no_post_in.
    tally. tally_status r. reflexivity.
Qed.

(** Every POST of the retry loop is the same request. *)
Lemma loop_posts (tries : Z) out evs u h p x :
  loop_run url hdrs payload tries out evs ->
  In (EvPost u h p x) evs -> u = url /\ h = hdrs /\ p = payload.
Proof.
  induction 1 as [tries| |tries r j Ht|tries e Ht He|tries r e Ht He
                 |tries failed body out rest Ht Hf Hb Hrun IH
                 |tries failed body out Ht Hf Hb Hs]; intros Hin.
  - destruct Hin.
  - destruct Hin.
  - destruct Hin as [Hin|Hin]; [injection Hin as <- <- <- _; auto|].
    exfalso. revert Hin. apply no_post_in.
    tally. tally_status r. reflexivity.
  - destruct Hin as [Hin|[]]. injection Hin as <- <- <- _. auto.
  - destruct Hin as [Hin|Hin]; [injection Hin as <- <- <- _; auto|].
    exfalso. revert Hin. apply no_post_in.
    tally. tally_status r. reflexivity.
  - apply in_app_or in Hin. destruct Hin as [Hin|Hin];
      [eapply post_in_failed; eauto|].
    apply in_app_or in Hin. destruct Hin as [Hin|Hin];
      [exfalso; revert Hin; apply no_post_in; reflexivity|].
    apply in_app_or in Hin. destruct Hin as [Hin|Hin]; [|auto].
    exfalso. revert Hin. apply no_post_in.
    apply (assoc_counts _ Hb).
  - apply in_app_or in Hin. destruct Hin as [Hin|Hin];
      [eapply post_in_failed; eauto|].
    apply in_app_or in Hin. destruct Hin as [Hin|Hin];
      [exfalso; revert Hin; apply no_post_in; reflexivity|].
    exfalso. revert Hin. apply no_post_in.
    apply (assoc_counts _ Hb).
Qed.

(** A response is closed as the last step of the loop, right after its
    body was decoded and logged. *)
Lemma loop_close_last (tries : Z) out evs r :
  loop_run url hdrs payload tries out evs ->
  In (EvClose r) evs ->
  exists pre j, evs = pre ++ [EvJson r (Ok j); text_log; EvClose r].
Proof.
  induction 1 as [tries| |tries r' j Ht|tries e Ht He|tries r' e Ht He
                 |tries failed body out rest Ht Hf Hb Hrun IH
                 |tries failed body out Ht Hf Hb Hs]; intros Hin.
  - destruct Hin.
  - destruct Hin.
  - destruct Hin as [Hin|Hin]; [discriminate|].
    apply in_app_or in Hin. destruct Hin as [Hin|Hin].
    { exfalso. revert Hin. apply no_close_in. apply status_logs_counts. }
    destruct Hin as [Hin|[Hin|[Hin|[]]]]; try discriminate.
    injection Hin as <-.
    exists (EvPost url hdrs payload (Ok r') :: status_logs r'), j.
    rewrite <- app_comm_cons. reflexivity.
  - destruct Hin as [Hin|[]]. discriminate.
  - exfalso. revert Hin. apply no_close_in.
    tally. tally_status r'. reflexivity.
  - destruct (tally_failed _ Hf) as (_ & _ & Fc & _).
    apply in_app_or in Hin. destruct Hin as [Hin|Hin];
      [exfalso; revert Hin; apply no_close_in; exact Fc|].
    apply in_app_or in Hin. destruct Hin as [Hin|Hin];
      [exfalso; revert Hin; apply no_close_in; reflexivity|].
    apply in_app_or in Hin. destruct Hin as [Hin|Hin];
      [exfalso; revert Hin; apply no_close_in; apply (assoc_counts _ Hb)|].
    destruct (IH Hin) as (pre & j & ->).
    exists (failed ++ recovery ++ body ++ pre), j.
    rewrite <- !app_assoc. reflexivity.
  - destruct (tally_failed _ Hf) as (_ & _ & Fc & _).
    exfalso. revert Hin. apply no_close_in.
    tally. tally_quiet Hb. rewrite Fc. reflexivity.
Qed.

End LoopMore.

Section PostMore.

Context {W : Type} `{Platform W}.
Variable cfg : credentials.

(** The counts of a run of [post] are those of its retry loop. *)
Lemma post_run_tally (url : string) (hdrs : list (string * string))
    (payload : Payload) out evs :
  post_run url hdrs payload out evs ->
  exists rest,
    (loop_run url hdrs payload 0 out rest \/
     (rest = [] /\ forall b, out <> Ret b)) /\
    attempts evs = attempts rest /\ resets evs = resets rest /\
    closes evs = closes rest /\ received evs = received rest /\
    undecoded evs = undecoded rest /\ gets evs = gets rest.
Proof.
  intros [body out' rest Hb Hrun|body out' Hb Hs].
  - exists rest. split; [left; exact Hrun|].
    unfold post_header, connecting_log. tally. tally_quiet Hb.
    repeat split.
  - exists []. split.
    + right. split; [reflexivity|]. intros b Hout. inversion Hs; congruence.
    + unfold post_header, connecting_log. tally. tally_quiet Hb.
      repeat split.
Qed.

(** X7.  Every POST of a run of [post], the first one and each retry, is
    the same request: the data URL of the feed, the key in the
    [X-AIO-KEY] header and the payload of the caller, unchanged.  [post]
    sends no GET. *)
Theorem post_sends_same_request (fuel : nat) (feed : string)
    (payload : Payload) (w w' : W) out evs :
  post cfg fuel feed payload w = (out, w', evs) ->
  (forall u h p x, In (EvPost u h p x) evs ->
     u = "https://io.adafruit.com/api/v2/" +:+ aio_username cfg +:+
         "/feeds/" +:+ feed +:+ "/data" /\
     h = [("X-AIO-KEY", aio_key cfg)] /\ p = payload) /\
  gets evs = O.
Proof.
  intros Hrun. apply post_runs in Hrun. split.
  - intros u h p x Hin.
    destruct Hrun as [body out' rest Hb Hloop|body out' Hb Hs].
    + apply http_in_post_run in Hin; [|exact Hb|reflexivity].
      apply (loop_posts _ _ _ _ _ _ _ _ _ _ Hloop Hin).
    + exfalso. rewrite <- (app_nil_r body) in Hin.
      apply http_in_post_run in Hin; [destruct Hin|exact Hb|reflexivity].
  - destruct (post_run_tally _ _ _ _ _ Hrun)
      as (rest & Hrest & _ & _ & _ & _ & _ & ->).
    destruct Hrest as [Hloop|[-> _]]; [|reflexivity].
    apply (loop_tally _ _ _ _ _ _ Hloop). lia.
Qed.

(** X8.  [post] closes at most one response in a run: the one whose body
    it decoded, as its last step.  A response whose decoding raised is
    never closed: the responses received are the one closed and those
    whose decoding raised. *)
Theorem post_closes_only_decoded_response (fuel : nat) (feed : string)
    (payload : Payload) (w w' : W) out evs :
  post cfg fuel feed payload w = (out, w', evs) ->
  (closes evs <= 1)%nat /\
  received evs = (closes evs + undecoded evs)%nat /\
  (forall r, In (EvClose r) evs ->
     exists pre j, evs = pre ++ [EvJson r (Ok j); text_log; EvClose r]).
Proof.
  intros Hrun. apply post_runs in Hrun.
  destruct (post_run_tally _ _ _ _ _ Hrun)
    as (rest & Hrest & _ & _ & -> & -> & -> & _).
  split; [|split].
  - destruct Hrest as [Hloop|[-> _]]; [|cbn; lia].
    apply (loop_tally _ _ _ _ _ _ Hloop). lia.
  - destruct Hrest as [Hloop|[-> _]]; [|reflexivity].
    apply (loop_tally _ _ _ _ _ _ Hloop). lia.
  - clear rest Hrest. intros r Hin.
    destruct Hrun as [body out' rest Hb Hloop|body out' Hb Hs].
    + apply in_app_or in Hin. destruct Hin as [Hin|Hin];
        [exfalso; revert Hin; apply no_close_in; reflexivity|].
      apply in_app_or in Hin. destruct Hin as [Hin|Hin];
        [exfalso; revert Hin; apply no_close_in; apply (assoc_counts _ Hb)|].
      destruct (loop_close_last _ _ _ _ _ _ _ Hloop Hin) as (pre & j & ->).
      exists (post_header ++ body ++ pre), j.
      rewrite <- !app_assoc. reflexivity.
    + exfalso. revert Hin. apply no_close_in.
      unfold post_header, connecting_log. tally. tally_quiet Hb. reflexivity.
Qed.

(** X9.  [post] resets the radio once for each attempt its handler
    caught, and for nothing else: there are as many resets as attempts, or
    one fewer.  A run that returns [True] made one more attempt than
    resets; a run that gives up without a decoded response has reset the
    radio five times, the fifth time after its last attempt. *)
Theorem post_resets_once_per_caught_failure (fuel : nat) (feed : string)
    (payload : Payload) (w w' : W) out evs :
  post cfg fuel feed payload w = (out, w', evs) ->
  (resets evs <= attempts evs <= S (resets evs))%nat /\
  (resets evs <= 5)%nat /\
  (out = Ret true -> attempts evs = S (resets evs)) /\
  (out = Ret false -> closes evs = O ->
   resets evs = 5%nat /\ attempts evs = 5%nat).
Proof.
  intros Hrun. apply post_runs in Hrun.
  destruct (post_run_tally _ _ _ _ _ Hrun)
    as (rest & Hrest & -> & -> & -> & _).
  destruct Hrest as [Hloop|[-> Hout]].
  - destruct (loop_tally _ _ _ _ _ _ Hloop)
      as (Hra & Hrb & _ & _ & _ & Htrue & Hfalse & _); [lia|].
    split; [exact Hra|]. split; [lia|]. split.
    + intros Heq. apply (Htrue Heq).
    + intros Heq Hcl. destruct (Hfalse Heq Hcl). lia.
  - cbn. split; [lia|]. split; [lia|].
    split; intros Heq; destruct (Hout _ Heq).
Qed.

(** [post], by the outcome of its first [connect]. *)
Lemma post_unfold (fuel : nat) (feed : string) (payload : Payload) (w : W) :
  post cfg fuel feed payload w =
  let '(o, w1, body) := connect_loop cfg fuel w in
  match o with
  | Ret _ =>
      let '(o', w2, rest) :=
        post_loop cfg fuel (feed_url cfg feed) payload fuel 0 w1 in
      (o', w2, post_header ++ body ++ rest)
  | Raise e => (Raise e, w1, post_header ++ body)
  | OutOfFuel => (OutOfFuel, w1, post_header ++ body)
  end.
Proof.
  unfold post, bind, logger, emit. cbn -[connect post_loop].
  rewrite connect_unfold.
  destruct (connect_loop cfg fuel w) as [[[[]|e|] w1] body];
    cbn -[post_loop]; try reflexivity.
  destruct (post_loop cfg fuel (feed_url cfg feed) payload fuel 0 w1)
    as [[o' w2] rest].
  reflexivity.
Qed.

(** The status read that ends a [connect] that returned. *)
Lemma connect_loop_last (fuel : nat) (w w' : W) body :
  connect_loop cfg fuel w = (Ret tt, w', body) ->
  exists pre, body = pre ++ [EvIsConnected true].
Proof.
  intros Hc. destruct (connect_loop_returns _ _ _ _ _ _ Hc) as [[Hret _] _].
  apply Hret. reflexivity.
Qed.

(** A [connect] that is cut off has made [fuel] association attempts and
    has not seen the radio associated. *)
Lemma connect_loop_cut_off (fuel : nat) (w w' : W) body :
  connect_loop cfg fuel w = (OutOfFuel, w', body) ->
  associations body = fuel /\ ~ In (EvIsConnected true) body.
Proof.
  intros Hc. split; [apply (connect_loop_counts _ _ _ _ _ _ Hc); reflexivity|].
  intros Hin. apply in_split in Hin. destruct Hin as (pre & suf & Heq).
  pose proof (connect_loop_stops_on_association _ _ _ _ _ _ _ _ Hc Heq) as ->.
  destruct (connect_loop_returns _ _ _ _ _ _ Hc) as [[_ Hret] _].
  discriminate Hret. exists pre. exact Heq.
Qed.

(** The handler and the rest of the loop: a later POST follows a status
    read that answered "associated". *)
Lemma recover_posts_when_associated (cfuel : nat) (url : string)
    (payload : Payload) (fuel : nat) (tries : Z) (failed : list event)
    (w w' : W) out evs pre u h p x suf :
  (forall w w' out evs pre suf,
     post_loop cfg cfuel url payload fuel (tries + 1) w = (out, w', evs) ->
     evs = pre ++ EvPost u h p x :: suf ->
     pre = [] \/ exists pre', pre = pre' ++ [EvIsConnected true]) ->
  failed_attempt url (auth_header cfg) payload failed ->
  recover cfg cfuel url payload fuel tries failed w = (out, w', evs) ->
  evs = pre ++ EvPost u h p x :: suf ->
  pre = [] \/ exists pre', pre = pre' ++ [EvIsConnected true].
Proof.
  intros IH Hfailed. unfold recover.
  destruct (connect_loop cfg cfuel (esp_reset w)) as [[o w2] body] eqn:Hc.
  pose proof (connect_loop_events cfg _ _ _ _ _ Hc) as Hbody.
  assert (Hskip : forall rest,
            failed ++ recovery ++ body ++ rest = pre ++ EvPost u h p x :: suf ->
            pre = [] \/
            exists pre', pre = failed ++ recovery ++ body ++ pre' /\
                         rest = pre' ++ EvPost u h p x :: suf).
  { intros rest Heq.
    destruct (split_failed _ _ _ _ _ _ _ _ Hfailed Heq eq_refl)
      as [(e & _ & -> & _)|[(r & e & _ & -> & _)
         |[(r & e & _ & _ & Hev & _)|(pre1 & -> & Heq1)]]];
      [auto|auto|discriminate|].
    destruct (split_reconnect _ _ _ _ _ Hbody Heq1 eq_refl)
      as (pre2 & -> & ->).
    right. eexists. split; reflexivity. }
  destruct o as [[]|e|].
  - destruct (post_loop cfg cfuel url payload fuel (tries + 1) w2)
      as [[o' w3] rest] eqn:Hl.
    intros Hrun Heq. injection Hrun as <- <- <-.
    destruct (Hskip _ Heq) as [->|(pre' & -> & Hrest)]; [auto|].
    right. destruct (IH _ _ _ _ _ _ Hl Hrest) as [->|(pre2 & ->)].
    + destruct (connect_loop_last _ _ _ _ Hc) as (b & ->).
      exists (failed ++ recovery ++ b).
      rewrite app_nil_r, <- !app_assoc. reflexivity.
    + exists (failed ++ recovery ++ body ++ pre2).
      rewrite <- !app_assoc. reflexivity.
  - intros Hrun Heq. injection Hrun as <- <- <-.
    rewrite <- (app_nil_r body) in Heq.
    destruct (Hskip _ Heq) as [->|(pre' & _ & Hrest)]; [auto|].
    destruct pre'; discriminate.
  - intros Hrun Heq. injection Hrun as <- <- <-.
    rewrite <- (app_nil_r body) in Heq.
    destruct (Hskip _ Heq) as [->|(pre' & _ & Hrest)]; [auto|].
    destruct pre'; discriminate.
Qed.

Lemma post_loop_posts_when_associated (cfuel : nat) (url : string)
    (payload : Payload) (fuel : nat) (tries : Z) (w w' : W) out evs
    pre u h p x suf :
  post_loop cfg cfuel url payload fuel tries w = (out, w', evs) ->
  evs = pre ++ EvPost u h p x :: suf ->
  pre = [] \/ exists pre', pre = pre' ++ [EvIsConnected true].
Proof.
  revert tries w w' out evs pre suf.
  induction fuel as [|fuel IH]; intros tries w w' out evs pre suf Hrun Heq.
  - injection Hrun as <- <- <-. destruct pre; discriminate.
  - rewrite post_loop_S in Hrun.
    destruct (tries =? 5).
    { injection Hrun as <- <- <-. destruct pre; discriminate. }
    destruct (requests_post url (auth_header cfg) payload w) as [[r|e] w1].
    + destruct (response_json r w1) as [[j|e] w2].
      * injection Hrun as <- <- <-.
        destruct (split_received _ _ _ _ _ _ _ _ Heq eq_refl)
          as [(-> & _)|(pre' & _ & Htail)]; [auto|].
        exfalso. revert Htail. clear.
        destruct pre' as [|? [|? [|? pre']]]; try discriminate.
        intros Htail. injection Htail as _ _ _ Htail.
        destruct pre'; discriminate.
      * destruct (is_RuntimeError e) eqn:Hrt.
        -- eapply recover_posts_when_associated; eauto.
           apply failed_json. exact Hrt.
        -- injection Hrun as <- <- <-.
           destruct (split_received _ _ _ _ _ _ _ _ Heq eq_refl)
             as [(-> & _)|(pre' & _ & Htail)]; [auto|].
           exfalso. revert Htail. clear.
           destruct pre' as [|? pre']; try discriminate.
           intros Htail. injection Htail as _ Htail.
           destruct pre'; discriminate.
    + destruct (is_RuntimeError e) eqn:Hrt.
      * eapply recover_posts_when_associated; eauto.
        apply failed_post. exact Hrt.
      * injection Hrun as <- <- <-.
        destruct pre as [|? pre]; [auto|].
        injection Heq as _ Heq. destruct pre; discriminate.
Qed.

(** X10.  [post] transmits only when the radio has just reported that it
    is associated: in every run, each POST, the first one and each retry,
    comes right after a status read that answered "associated". *)
Theorem post_transmits_only_when_associated (fuel : nat) (feed : string)
    (payload : Payload) (w w' : W) out evs pre u h p x suf :
  post cfg fuel feed payload w = (out, w', evs) ->
  evs = pre ++ EvPost u h p x :: suf ->
  exists pre', pre = pre' ++ [EvIsConnected true].
Proof.
  rewrite post_unfold.
  destruct (connect_loop cfg fuel w) as [[o w1] body] eqn:Hc.
  pose proof (connect_loop_events cfg _ _ _ _ _ Hc) as Hbody.
  destruct o as [[]|e|].
  - destruct (post_loop cfg fuel (feed_url cfg feed) payload fuel 0 w1)
      as [[o' w2] rest] eqn:Hl.
    intros Hrun Heq. injection Hrun as <- <- <-.
    destruct (split_post_run _ _ _ _ _ Hbody Heq eq_refl)
      as (pre' & -> & Hrest).
    destruct (post_loop_posts_when_associated _ _ _ _ _ _ _ _ _ _ _ _ _ _ _
                Hl Hrest) as [->|(pre2 & ->)].
    + destruct (connect_loop_last _ _ _ _ Hc) as (b & ->).
      exists (post_header ++ b).
      rewrite app_nil_r, <- !app_assoc. reflexivity.
    + exists (post_header ++ body ++ pre2).
      rewrite <- !app_assoc. reflexivity.
  - intros Hrun Heq. injection Hrun as <- <- <-.
    rewrite <- (app_nil_r body) in Heq.
    destruct (split_post_run _ _ _ _ _ Hbody Heq eq_refl)
      as (pre' & _ & Hrest).
    destruct pre'; discriminate.
  - intros Hrun Heq. injection Hrun as <- <- <-.
    rewrite <- (app_nil_r body) in Heq.
    destruct (split_post_run _ _ _ _ _ Hbody Heq eq_refl)
      as (pre' & _ & Hrest).
    destruct pre'; discriminate.
Qed.

(** The retry loop itself ends within six rounds: a run of it that is cut
    off was cut off inside the [connect] of its handler. *)
Lemma post_loop_cut_off (cfuel : nat) (url : string) (payload : Payload)
    (fuel : nat) (tries : Z) (w w' : W) evs :
  post_loop cfg cfuel url payload fuel tries w = (OutOfFuel, w', evs) ->
  0 <= tries <= 5 -> 5 - tries < Z.of_nat fuel ->
  exists pre body,
    evs = pre ++ connecting_log :: body /\ Forall assoc_event body /\
    associations body = cfuel /\ ~ In (EvIsConnected true) body.
Proof.
  revert tries w w' evs.
  induction fuel as [|fuel IH]; intros tries w w' evs Hrun Hrange Hfuel;
    [lia|].
  assert (Hrec : forall failed w0,
            recover cfg cfuel url payload fuel tries failed w0 =
              (OutOfFuel, w', evs) ->
            tries <> 5 ->
            exists pre body,
              evs = pre ++ connecting_log :: body /\ Forall assoc_event body /\
              associations body = cfuel /\ ~ In (EvIsConnected true) body).
  { intros failed w0. unfold recover.
    destruct (connect_loop cfg cfuel (esp_reset w0)) as [[o w2] body] eqn:Hc.
    pose proof (connect_loop_events cfg _ _ _ _ _ Hc) as Hbody.
    destruct o as [[]|e|].
    - destruct (post_loop cfg cfuel url payload fuel (tries + 1) w2)
        as [[o' w3] rest] eqn:Hl.
      intros Heq Htries. injection Heq as -> <- <-.
      destruct (IH _ _ _ _ Hl) as (pre & body' & -> & Hb' & Ha' & Hn');
        [lia|lia|].
      exists (failed ++ recovery ++ body ++ pre), body'.
      rewrite <- !app_assoc. auto.
    - discriminate.
    - intros Heq _. injection Heq as <- <-.
      exists (failed ++ [EvLog ERROR "Error posting: %s";
                         EvLog INFO "Resetting and reconnecting"; EvReset]),
        body.
      split; [rewrite <- app_assoc; reflexivity|]. split; [exact Hbody|].
      apply (connect_loop_cut_off _ _ _ _ Hc). }
  rewrite post_loop_S in Hrun.
  destruct (tries =? 5) eqn:Htries; [discriminate|].
  apply Z.eqb_neq in Htries.
  destruct (requests_post url (auth_header cfg) payload w) as [[r|e] w1].
  - destruct (response_json r w1) as [[j|e] w2]; [discriminate|].
    destruct (is_RuntimeError e); [eauto|discriminate].
  - destruct (is_RuntimeError e); [eauto|discriminate].
Qed.

(** X11.  The retry loop of [post] always ends: a run of [post] followed
    for six rounds or more that is still going is inside a [connect] that
    has made [fuel] association attempts without the radio reporting that
    it is associated. *)
Theorem post_cut_off_only_in_connect (fuel : nat) (feed : string)
    (payload : Payload) (w w' : W) evs :
  post cfg fuel feed payload w = (OutOfFuel, w', evs) ->
  (6 <= fuel)%nat ->
  exists pre body,
    evs = pre ++ connecting_log :: body /\ Forall assoc_event body /\
    associations body = fuel /\ ~ In (EvIsConnected true) body.
Proof.
  rewrite post_unfold.
  destruct (connect_loop cfg fuel w) as [[o w1] body] eqn:Hc.
  pose proof (connect_loop_events cfg _ _ _ _ _ Hc) as Hbody.
  destruct o as [[]|e|].
  - destruct (post_loop cfg fuel (feed_url cfg feed) payload fuel 0 w1)
      as [[o' w2] rest] eqn:Hl.
    intros Hrun Hfuel. injection Hrun as -> <- <-.
    destruct (post_loop_cut_off _ _ _ _ _ _ _ _ Hl)
      as (pre & body' & -> & Hb' & Ha' & Hn'); [lia|lia|].
    exists (post_header ++ body ++ pre), body'.
    rewrite <- !app_assoc. auto.
  - discriminate.
  - intros Hrun _. injection Hrun as <- <-.
    exists [EvLog INFO "POSTing to %s"; EvLog INFO "payload: %s"], body.
    split; [reflexivity|]. split; [exact Hbody|].
    apply (connect_loop_cut_off _ _ _ _ Hc).
Qed.

End PostMore.

(** ** The reply of the time service: the layout the client asks for *)

Lemma append_cons (c : ascii) (a b : string) :
  String c a +:+ b = String c (a +:+ b).
Proof. reflexivity. Qed.

Lemma append_nil_l (b : string) : "" +:+ b = b.
Proof. reflexivity. Qed.

Lemma append_assoc (a b c : string) : (a +:+ b) +:+ c = a +:+ b +:+ c.
Proof.
  induction a as [|x a IH]; [reflexivity|].
  rewrite !append_cons, IH. reflexivity.
Qed.

Lemma lacks_app (c : ascii) (a b : string) :
  lacks c (a +:+ b) = (lacks c a && lacks c b)%bool.
Proof.
  induction a as [|x a IH]; [reflexivity|].
  rewrite append_cons. cbn [lacks]. rewrite IH, andb_assoc. reflexivity.
Qed.

(** [split] cuts at the first separator, and nowhere before it. *)
Lemma py_split_app_lacks (sep : ascii) (a b : string) :
  lacks sep a = true ->
  py_split sep (a +:+ String sep b) = a :: py_split sep b.
Proof.
  induction a as [|x a IH]; intros Ha.
  - rewrite append_nil_l. cbn [py_split]. rewrite Ascii.eqb_refl. reflexivity.
  - cbn [lacks] in Ha. apply andb_prop in Ha. destruct Ha as [Hx Ha].
    apply negb_true_iff in Hx.
    rewrite append_cons. cbn [py_split]. rewrite Hx, (IH Ha). reflexivity.
Qed.

Lemma py_split_lacks (sep : ascii) (a : string) :
  lacks sep a = true -> py_split sep a = [a].
Proof.
  induction a as [|x a IH]; cbn; intros Ha; [reflexivity|].
  apply andb_prop in Ha. destruct Ha as [Hx Ha].
  apply negb_true_iff in Hx. rewrite Hx, (IH Ha). reflexivity.
Qed.

Lemma digits_lack (c : ascii) (s : string) :
  forallb is_digit (list_ascii_of_string s) = true -> is_digit c = false ->
  lacks c s = true.
Proof.
  intros Hs Hc. induction s as [|x s IH]; cbn in *; [reflexivity|].
  apply andb_prop in Hs. destruct Hs as [Hx Hs].
  rewrite (IH Hs), andb_true_r. apply negb_true_iff.
  destruct (Ascii.eqb_spec x c) as [->|]; [congruence|reflexivity].
Qed.

Lemma is_digits_all (s : string) :
  is_digits s = true ->
  forallb is_digit (list_ascii_of_string s) = true /\
  list_ascii_of_string s <> [].
Proof.
  unfold is_digits. destruct (list_ascii_of_string s); [discriminate|].
  intros Hs. split; [exact Hs|discriminate].
Qed.

Lemma is_digits_lacks (c : ascii) (s : string) :
  is_digits s = true -> is_digit c = false -> lacks c s = true.
Proof.
  intros Hs. apply digits_lack. apply (is_digits_all _ Hs).
Qed.

Lemma digit_not_space (c : ascii) : is_digit c = true -> is_space c = false.
Proof.
  destruct c as [[] [] [] [] [] [] [] []]; intros Hc;
    first [discriminate Hc | reflexivity].
Qed.

Lemma lstrip_digits (cs : list ascii) :
  forallb is_digit cs = true -> lstrip cs = cs.
Proof.
  destruct cs as [|c cs]; [reflexivity|]. cbn [forallb lstrip]. intros Hc.
  apply andb_prop in Hc. destruct Hc as [Hc _].
  rewrite (digit_not_space _ Hc). reflexivity.
Qed.

Lemma forallb_rev {A : Type} (f : A -> bool) (l : list A) :
  forallb f l = true -> forallb f (rev l) = true.
Proof.
  rewrite !forallb_forall. intros Hl x Hx. apply Hl, in_rev, Hx.
Qed.

Lemma strip_digits (cs : list ascii) :
  forallb is_digit cs = true -> strip cs = cs.
Proof.
  intros Hc. unfold strip.
  rewrite (lstrip_digits _ Hc), (lstrip_digits _ (forallb_rev _ _ Hc)).
  apply rev_involutive.
Qed.

Lemma digits_total (cs : list ascii) (acc : Z) :
  forallb is_digit cs = true -> exists n, digits cs acc = Some n.
Proof.
  revert acc. induction cs as [|c cs IH]; intros acc Hc; cbn; [eauto|].
  cbn in Hc. apply andb_prop in Hc. destruct Hc as [Hd Hc].
  unfold is_digit in Hd. destruct (digit_of c); [|discriminate]. auto.
Qed.

(** [int] on a numeral gives its value. *)
Lemma py_int_digits (s : string) :
  is_digits s = true -> py_int s = Ok (number s).
Proof.
  intros Hs. destruct (is_digits_all _ Hs) as [Hall Hne].
  unfold py_int, number. rewrite (strip_digits _ Hall).
  destruct (digits_total _ 0 Hall) as [n Hn].
  destruct (list_ascii_of_string s) as [|c cs]; [congruence|].
  assert (Hc : is_digit c = true)
    by (cbn [forallb] in Hall; apply andb_prop in Hall; tauto).
  assert (Hsign : match c :: cs with
                  | "-"%char :: r => (true, r)
                  | "+"%char :: r => (false, r)
                  | _ => (false, c :: cs)
                  end = (false, c :: cs)).
  { clear -Hc. destruct c as [[] [] [] [] [] [] [] []];
      first [reflexivity | vm_compute in Hc; discriminate Hc]. }
  rewrite Hsign, Hn. reflexivity.
Qed.

(** The fields of a reply in the layout asked for. *)
Lemma layout_fields (Y M D h m s frac j u rest : string) :
  layout Y M D h m s frac j u rest =
  (Y +:+ "-" +:+ M +:+ "-" +:+ D) +:+
  String " " ((h +:+ ":" +:+ m +:+ ":" +:+ s +:+ "." +:+ frac) +:+
  String " " (j +:+ String " " (u +:+ String " " rest))).
Proof.
  unfold layout.
  repeat rewrite ?append_assoc, ?append_cons, ?append_nil_l. reflexivity.
Qed.

Lemma date_fields (Y M D : string) :
  Y +:+ "-" +:+ M +:+ "-" +:+ D = Y +:+ String "-" (M +:+ String "-" D).
Proof. reflexivity. Qed.

Lemma time_fields (h m s frac : string) :
  h +:+ ":" +:+ m +:+ ":" +:+ s +:+ "." +:+ frac =
  (h +:+ String ":" (m +:+ String ":" s)) +:+ String "." frac.
Proof.
  repeat rewrite ?append_assoc, ?append_cons, ?append_nil_l. reflexivity.
Qed.

(** The parser on a reply in the layout asked for. *)
Lemma parse_reply_layout (Y M D h m s frac j u rest : string) :
  is_digits Y = true -> is_digits M = true -> is_digits D = true ->
  is_digits h = true -> is_digits m = true -> is_digits s = true ->
  is_digits j = true -> is_digits u = true ->
  lacks " " frac = true ->
  parse_reply (layout Y M D h m s frac j u rest) =
  Ok {| tm_year := number Y; tm_mon := number M; tm_mday := number D;
        tm_hour := number h; tm_min := number m; tm_sec := number s;
        tm_wday := number u; tm_yday := number j; tm_isdst := None |}.
Proof.
  intros HY HM HD Hh Hm Hs Hj Hu Hfrac.
  assert (Hsp : forall x, is_digits x = true -> lacks " " x = true)
    by (intros x Hx; apply is_digits_lacks; [exact Hx|reflexivity]).
  assert (Hda : forall x, is_digits x = true -> lacks "-" x = true)
    by (intros x Hx; apply is_digits_lacks; [exact Hx|reflexivity]).
  assert (Hco : forall x, is_digits x = true -> lacks ":" x = true)
    by (intros x Hx; apply is_digits_lacks; [exact Hx|reflexivity]).
  assert (Hdo : forall x, is_digits x = true -> lacks "." x = true)
    by (intros x Hx; apply is_digits_lacks; [exact Hx|reflexivity]).
  unfold parse_reply. rewrite layout_fields.
  rewrite !py_split_app_lacks;
    [|auto|auto
     |repeat (rewrite ?lacks_app; cbn [lacks]); rewrite ?Hsp by assumption;
      rewrite Hfrac; reflexivity
     |repeat (rewrite ?lacks_app; cbn [lacks]); rewrite ?Hsp by assumption;
      reflexivity].
  cbn [py_index lookup list_lookup and_then].
  rewrite (py_int_digits _ Hj), (py_int_digits _ Hu).
  cbn [and_then].
  rewrite date_fields, !py_split_app_lacks, (py_split_lacks _ _ (Hda _ HD))
    by auto.
  cbn [int_list].
  rewrite (py_int_digits _ HY), (py_int_digits _ HM), (py_int_digits _ HD).
  cbn [and_then unpack3].
  rewrite time_fields, py_split_app_lacks;
    [|repeat (rewrite ?lacks_app; cbn [lacks]); rewrite ?Hdo by assumption;
      reflexivity].
  cbn [py_index lookup list_lookup and_then].
  rewrite !py_split_app_lacks, (py_split_lacks _ _ (Hco _ Hs)) by auto.
  cbn [int_list].
  rewrite (py_int_digits _ Hh), (py_int_digits _ Hm), (py_int_digits _ Hs).
  reflexivity.
Qed.

Section TimeLayout.

Context {W : Type} `{Platform W}.
Variable cfg : credentials.

(** X12.  Every reply in the layout the client asks the time service for,
    [%Y-%m-%d %H:%M:%S.%L %j %u] followed by anything, is accepted: the
    call returns and sets the clock to the values of the eight numerals,
    whatever they are; the fraction of the second and the rest of the
    line are ignored. *)
Theorem refresh_reads_requested_layout (fuel : nat)
    (env : gmap string string) (w w1 w2 w3 w4 : W) (t : list event)
    (response : Response) (shown Y M D h m s frac j u rest : string) :
  is_digits Y = true -> is_digits M = true -> is_digits D = true ->
  is_digits h = true -> is_digits m = true -> is_digits s = true ->
  is_digits j = true -> is_digits u = true ->
  lacks " " frac = true ->
  connect cfg fuel w = (Ret tt, w1, t) ->
  requests_get (time_url cfg env) w1 = (Ok response, w2) ->
  response_text response w2 = (Ok shown, w3) ->
  response_text response w3 = (Ok (layout Y M D h m s frac j u rest), w4) ->
  exists evs,
    refresh_local_time cfg fuel env w =
      (Ret {| tm_year := number Y; tm_mon := number M; tm_mday := number D;
              tm_hour := number h; tm_min := number m; tm_sec := number s;
              tm_wday := number u; tm_yday := number j; tm_isdst := None |},
       response_close response
         (rtc_set_datetime
            {| tm_year := number Y; tm_mon := number M; tm_mday := number D;
               tm_hour := number h; tm_min := number m; tm_sec := number s;
               tm_wday := number u; tm_yday := number j; tm_isdst := None |}
            w4),
       evs) /\
    In (EvRtc {| tm_year := number Y; tm_mon := number M; tm_mday := number D;
                 tm_hour := number h; tm_min := number m; tm_sec := number s;
                 tm_wday := number u; tm_yday := number j;
                 tm_isdst := None |}) evs.
Proof.
  intros HY HM HD Hh Hm Hs Hj Hu Hfrac Hc Hg Ht1 Ht2.
  rewrite refresh_local_time_unfold, Hc, Hg, Ht1, Ht2,
    parse_reply_layout by assumption.
  eexists. split; [reflexivity|]. in_trace.
Qed.

End TimeLayout.

(** ** More runs on the scripted platform *)

(** The access point refuses the SSID with an [OSError]. *)
Lemma connect_raises_what_connect_AP_raises_witness :
  exists w' evs,
    connect Sim.creds 3 refused = (Raise no_such_ssid, w', evs) /\
    (Raise no_such_ssid = Raise (A := unit) no_such_ssid <->
     is_RuntimeError no_such_ssid = false /\
     exists pre,
       evs = pre ++ [EvConnectAP (ssid Sim.creds) (password Sim.creds)
                       (Err no_such_ssid)]).
Proof.
  evaluate (connect Sim.creds 3 refused) Hrun.
  eexists _, _. split; [exact Hrun|].
  exact (connect_raises_what_connect_AP_raises Sim.creds 3 refused _ _ _
           no_such_ssid Hrun).
Defined.

(** Two failed association attempts, then one that succeeds. *)
Lemma connect_one_attempt_per_read_witness :
  exists w' evs,
    connect Sim.creds 4
      (Sim.boot [Err Sim.transport_error; Err Sim.transport_error] [] []) =
      (Ret tt, w', evs) /\
    associations evs = down_reads evs /\
    (Ret tt = OutOfFuel -> associations evs = 4%nat) /\
    (forall s p r, In (EvConnectAP s p r) evs ->
       s = ssid Sim.creds /\ p = password Sim.creds) /\
    resets evs = O /\ attempts evs = O /\ gets evs = O.
Proof.
  evaluate (connect Sim.creds 4
              (Sim.boot [Err Sim.transport_error; Err Sim.transport_error]
                 [] [])) Hrun.
  eexists _, _. split; [exact Hrun|].
  exact (connect_one_attempt_per_read Sim.creds 4 _ _ _ _ Hrun).
Defined.

(** The GET of the time service fails with a [KeyError]. *)
Lemma refresh_guidance_iff_library_KeyError_witness :
  exists w' evs,
    refresh_local_time Sim.creds 1 ∅ lookup_failure =
      (Raise lookup_error, w', evs) /\
    (Raise lookup_error = Raise (A := struct_time) lookup_error <->
     exists ev e, In ev evs /\ error_of ev = Some e /\ is_KeyError e = true).
Proof.
  evaluate (refresh_local_time Sim.creds 1 ∅ lookup_failure) Hrun.
  eexists _, _. split; [exact Hrun|].
  exact (refresh_guidance_iff_library_KeyError Sim.creds 1 ∅ lookup_failure
           _ _ _ Hrun).
Defined.

(** The time service sends the sample reply. *)
Lemma refresh_sets_clock_iff_returns_witness :
  exists w' evs,
    refresh_local_time Sim.creds 1 ∅ (Sim.time_server sample_reply) =
      (Ret sample_time, w', evs) /\
    (In (EvRtc sample_time) evs <-> Ret sample_time = Ret sample_time).
Proof.
  evaluate (refresh_local_time Sim.creds 1 ∅ (Sim.time_server sample_reply))
    Hrun.
  eexists _, _. split; [exact Hrun|].
  exact (refresh_sets_clock_iff_returns Sim.creds 1 ∅
           (Sim.time_server sample_reply) _ _ _ sample_time Hrun).
Defined.

(** The time service sends an empty body: the response stays open. *)
Lemma refresh_closes_response_only_on_return_witness :
  exists e w' evs,
    refresh_local_time Sim.creds 1 ∅ (Sim.time_server "") =
      (Raise e, w', evs) /\
    In (EvGet (time_url Sim.creds ∅) (Ok (Sim.resp 200))) evs /\
    closes evs = O.
Proof.
  evaluate (refresh_local_time Sim.creds 1 ∅ (Sim.time_server "")) Hrun.
  eexists _, _, _. split; [exact Hrun|].
  assert (Hin : In (EvGet (time_url Sim.creds ∅) (Ok (Sim.resp 200)))
                  [timezone_log ∅; EvLog DEBUG "Requesting time from %s";
                   connecting_log; EvIsConnected true;
                   EvGet (time_url Sim.creds ∅) (Ok (Sim.resp 200));
                   EvText (Sim.resp 200) (Ok "");
                   EvLog DEBUG "Time reply: %s";
                   EvText (Sim.resp 200) (Ok "")])
    by (do 4 right; left; reflexivity).
  split; [exact Hin|].
  exact (refresh_closes_response_only_on_return Sim.creds 1 ∅
           (Sim.time_server "") _ _ _ _ _ Hrun Hin).
Defined.

Lemma refresh_single_request_witness :
  exists w' evs,
    refresh_local_time Sim.creds 1 ∅ (Sim.time_server sample_reply) =
      (Ret sample_time, w', evs) /\
    (gets evs <= 1)%nat /\ attempts evs = O /\ resets evs = O /\
    (forall url r pre suf, evs = pre ++ EvGet url r :: suf ->
       url = time_url Sim.creds ∅ /\
       exists pre', pre = pre' ++ [EvIsConnected true]) /\
    (Ret sample_time = OutOfFuel -> associations evs = 1%nat /\ gets evs = O).
Proof.
  evaluate (refresh_local_time Sim.creds 1 ∅ (Sim.time_server sample_reply))
    Hrun.
  eexists _, _. split; [exact Hrun|].
  exact (refresh_single_request Sim.creds 1 ∅
           (Sim.time_server sample_reply) _ _ _ Hrun).
Defined.

(** A response whose body cannot be read, then one that decodes. *)
Lemma post_sends_same_request_witness :
  exists w' evs,
    post Sim.creds 6 "temperature" [("value", "21.5")] Sim.flaky_body =
      (Ret true, w', evs) /\
    (forall u h p x, In (EvPost u h p x) evs ->
       u = "https://io.adafruit.com/api/v2/" +:+ aio_username Sim.creds +:+
           "/feeds/" +:+ "temperature" +:+ "/data" /\
       h = [("X-AIO-KEY", aio_key Sim.creds)] /\ p = [("value", "21.5")]) /\
    gets evs = O.
Proof.
  evaluate (post Sim.creds 6 "temperature" [("value", "21.5")] Sim.flaky_body)
    Hrun.
  eexists _, _. split; [exact Hrun|].
  exact (post_sends_same_request Sim.creds 6 "temperature" [("value", "21.5")]
           Sim.flaky_body _ _ _ Hrun).
Defined.

Lemma post_closes_only_decoded_response_witness :
  exists w' evs,
    post Sim.creds 6 "temperature" [] Sim.flaky_body = (Ret true, w', evs) /\
    (closes evs <= 1)%nat /\
    received evs = (closes evs + undecoded evs)%nat /\
    (forall r, In (EvClose r) evs ->
       exists pre j, evs = pre ++ [EvJson r (Ok j); text_log; EvClose r]).
Proof.
  evaluate (post Sim.creds 6 "temperature" [] Sim.flaky_body) Hrun.
  eexists _, _. split; [exact Hrun|].
  exact (post_closes_only_decoded_response Sim.creds 6 "temperature" []
           Sim.flaky_body _ _ _ Hrun).
Defined.

(** No POST gets through: five attempts and five resets. *)
Lemma post_resets_once_per_caught_failure_witness :
  exists w' evs,
    post Sim.creds 6 "temperature" [] Sim.offline = (Ret false, w', evs) /\
    (resets evs <= attempts evs <= S (resets evs))%nat /\
    (resets evs <= 5)%nat /\
    (Ret false = Ret true -> attempts evs = S (resets evs)) /\
    (Ret false = Ret false -> closes evs = O ->
     resets evs = 5%nat /\ attempts evs = 5%nat).
Proof.
  evaluate (post Sim.creds 6 "temperature" [] Sim.offline) Hrun.
  eexists _, _. split; [exact Hrun|].
  exact (post_resets_once_per_caught_failure Sim.creds 6 "temperature" []
           Sim.offline _ _ _ Hrun).
Defined.

(** The first POST of a run with no network. *)
Lemma post_transmits_only_when_associated_witness :
  exists w' suf,
    post Sim.creds 6 "temperature" [] Sim.offline =
      (Ret false, w',
       (post_header ++ Sim.joined) ++
       EvPost (feed_url Sim.creds "temperature") (auth_header Sim.creds) []
         (Err Sim.transport_error) :: suf) /\
    exists pre', post_header ++ Sim.joined = pre' ++ [EvIsConnected true].
Proof.
  evaluate (post Sim.creds 6 "temperature" [] Sim.offline) Hrun.
  eexists _, _. split; [exact Hrun|].
  eapply (post_transmits_only_when_associated Sim.creds 6 "temperature" []
            Sim.offline _ _ _ (post_header ++ Sim.joined));
    [exact Hrun | reflexivity].
Defined.

(** A radio that does not associate in six attempts. *)
Lemma post_cut_off_only_in_connect_witness :
  exists w' evs,
    post Sim.creds 6 "temperature" [] stubborn = (OutOfFuel, w', evs) /\
    (6 <= 6)%nat /\
    exists pre body,
      evs = pre ++ connecting_log :: body /\ Forall assoc_event body /\
      associations body = 6%nat /\ ~ In (EvIsConnected true) body.
Proof.
  evaluate (post Sim.creds 6 "temperature" [] stubborn) Hrun.
  eexists _, _. split; [exact Hrun|]. split; [lia|].
  exact (post_cut_off_only_in_connect Sim.creds 6 "temperature" [] stubborn
           _ _ Hrun (le_n 6)).
Defined.

(** The sample reply, field by field. *)
Lemma refresh_reads_requested_layout_witness :
  is_digits "2023" = true /\ is_digits "05" = true /\ is_digits "01" = true /\
  is_digits "14" = true /\ is_digits "30" = true /\ is_digits "00" = true /\
  is_digits "121" = true /\ is_digits "1" = true /\ lacks " " "123" = true /\
  layout "2023" "05" "01" "14" "30" "00" "123" "121" "1" "+0000 UTC" =
    sample_reply /\
  exists evs,
    refresh_local_time Sim.creds 1 ∅
      (Sim.time_server
         (layout "2023" "05" "01" "14" "30" "00" "123" "121" "1"
            "+0000 UTC")) =
      (Ret {| tm_year := number "2023"; tm_mon := number "05";
              tm_mday := number "01"; tm_hour := number "14";
              tm_min := number "30"; tm_sec := number "00";
              tm_wday := number "1"; tm_yday := number "121";
              tm_isdst := None |},
       response_close (Sim.resp 200)
         (rtc_set_datetime
            {| tm_year := number "2023"; tm_mon := number "05";
               tm_mday := number "01"; tm_hour := number "14";
               tm_min := number "30"; tm_sec := number "00";
               tm_wday := number "1"; tm_yday := number "121";
               tm_isdst := None |}
            (Sim.time_server
               (layout "2023" "05" "01" "14" "30" "00" "123" "121" "1"
                  "+0000 UTC"))),
       evs) /\
    In (EvRtc {| tm_year := number "2023"; tm_mon := number "05";
                 tm_mday := number "01"; tm_hour := number "14";
                 tm_min := number "30"; tm_sec := number "00";
                 tm_wday := number "1"; tm_yday := number "121";
                 tm_isdst := None |}) evs.
Proof.
  do 10 (split; [reflexivity|]).
  apply (refresh_reads_requested_layout Sim.creds 1 ∅
           (Sim.time_server sample_reply) (Sim.time_server sample_reply)
           (Sim.time_server sample_reply) (Sim.time_server sample_reply)
           (Sim.time_server sample_reply)
           [connecting_log; EvIsConnected true] (Sim.resp 200) sample_reply
           "2023" "05" "01" "14" "30" "00" "123" "121" "1" "+0000 UTC");
    reflexivity.
Defined.

(** ** AIO.__init__: the control lines, the errors and the order of start-up *)

(** One step of a run of start-up, by cases on the board and on the
    answers of the vendor libraries. *)
Ltac init_step Hrun :=
  match type of Hrun with
  | context [Bringup.board ?n] =>
      let E := fresh "Hname" in
      destruct (Bringup.board n) as [?pin|] eqn:E
  | context [Bringup.digitalio_DigitalInOut ?p ?b] =>
      destruct (Bringup.digitalio_DigitalInOut p b) as [[[]|?e] ?b]
  | context [Bringup.busio_SPI ?p ?b] =>
      destruct (Bringup.busio_SPI p b) as [[[]|?e] ?b]
  | context [Bringup.esp32spi_ESP_SPIcontrol ?p ?b] =>
      destruct (Bringup.esp32spi_ESP_SPIcontrol p b) as [[[]|?e] ?b]
  | context [Bringup.esp_status ?p ?b] =>
      let E := fresh "Hstatus" in
      destruct (Bringup.esp_status p b) as [[?st|?e] ?b];
      [destruct (Z.eqb st Bringup.WL_IDLE_STATUS) eqn:E|]
  | context [Bringup.esp_firmware_version ?p ?b] =>
      destruct (Bringup.esp_firmware_version p b) as [[?fw|?e] ?b]
  | context [Bringup.esp_MAC_address ?p ?b] =>
      destruct (Bringup.esp_MAC_address p b) as [[?mac|?e] ?b]
  | context [Bringup.requests_set_interface ?p ?b] =>
      destruct (Bringup.requests_set_interface p b) as [[[]|?e] ?b]
  end;
  cbn [app] in Hrun.

Ltac init_run Hrun :=
  cbv beta iota zeta delta
    [Bringup.claim Bringup.start Bringup.bind Bringup.board_attr
     Bringup.DigitalInOut Bringup.call Bringup.logger Bringup.ret
     Bringup.raise] in Hrun;
  repeat init_step Hrun;
  try discriminate Hrun;
  injection Hrun as <- <- <-.

Section InitFacts.

Context {B : Type} `{Bringup.Board B}.

Lemma init_phases :
  Bringup.__init__ (B := B) =
  Bringup.bind
    (Bringup.try_except
       (Bringup.claim "ESP_CS" "ESP_BUSY" "ESP_RESET" true)
       Bringup.is_AttributeError
       (Bringup.claim "D10" "D9" "D6" false))
    Bringup.start.
Proof. reflexivity. Qed.

(** The three lines of a branch, when all three are there and free. *)
Lemma claim_done (a b c : string) (flag : bool) (s s' : B) pins evs :
  Bringup.claim a b c flag s = (Bringup.Done pins, s', evs) ->
  exists p1 p2 p3,
    pins = (p1, p2, p3, flag) /\
    Bringup.board (B := B) a = Some p1 /\
    Bringup.board (B := B) b = Some p2 /\
    Bringup.board (B := B) c = Some p3 /\
    evs = [Bringup.EvDigitalInOut p1 (Bringup.Done tt);
           Bringup.EvDigitalInOut p2 (Bringup.Done tt);
           Bringup.EvDigitalInOut p3 (Bringup.Done tt)].
Proof.
  intros Hrun. init_run Hrun. eauto 10.
Qed.

(** A branch that fails: a name is missing, or [DigitalInOut] raised; at
    most two lines were claimed before. *)
Lemma claim_failed (a b c : string) (flag : bool) (s s' : B) e evs :
  Bringup.claim a b c flag s = (Bringup.Failed e, s', evs) ->
  (length (Bringup.claimed evs) <= 2)%nat /\
  ((exists name,
      In name [a; b; c] /\ Bringup.board (B := B) name = None /\
      e = Bringup.no_attribute name) \/
   (exists pre pin,
      evs = pre ++ [Bringup.EvDigitalInOut pin (Bringup.Failed e)])).
Proof.
  intros Hrun. init_run Hrun.
  all: split; [cbn; lia|].
  all: first
    [ right;
      first [ exists []; eexists; reflexivity
            | eexists [_]; eexists; reflexivity
            | eexists [_; _]; eexists; reflexivity ]
    | left; eexists; split; [|split; [eassumption|reflexivity]];
      cbn; tauto ].
Qed.

(** The [try] statement: the lines of the board's own radio, or else
    those of a shield. *)
Lemma select_done (s s' : B) pins evs :
  Bringup.try_except
    (Bringup.claim "ESP_CS" "ESP_BUSY" "ESP_RESET" true)
    Bringup.is_AttributeError
    (Bringup.claim "D10" "D9" "D6" false) s = (Bringup.Done pins, s', evs) ->
  exists p1 p2 p3 flag abandoned,
    pins = (p1, p2, p3, flag) /\
    evs = abandoned ++
          [Bringup.EvDigitalInOut p1 (Bringup.Done tt);
           Bringup.EvDigitalInOut p2 (Bringup.Done tt);
           Bringup.EvDigitalInOut p3 (Bringup.Done tt)] /\
    (length (Bringup.claimed abandoned) <= 2)%nat /\
    (if flag
     then Bringup.board (B := B) "ESP_CS" = Some p1 /\
          Bringup.board (B := B) "ESP_BUSY" = Some p2 /\
          Bringup.board (B := B) "ESP_RESET" = Some p3 /\ abandoned = []
     else Bringup.board (B := B) "D10" = Some p1 /\
          Bringup.board (B := B) "D9" = Some p2 /\
          Bringup.board (B := B) "D6" = Some p3).
Proof.
  unfold Bringup.try_except.
  destruct (Bringup.claim "ESP_CS" "ESP_BUSY" "ESP_RESET" true s)
    as [[[pins1|e] s1] t1] eqn:Htry.
  - intros Heq. injection Heq as <- <- <-.
    destruct (claim_done _ _ _ _ _ _ _ _ Htry)
      as (p1 & p2 & p3 & -> & H1 & H2 & H3 & ->).
    exists p1, p2, p3, true, []. cbn. auto 10.
  - destruct (Bringup.is_AttributeError e); [|discriminate].
    destruct (Bringup.claim "D10" "D9" "D6" false s1)
      as [[[pins2|e2] s2] t2] eqn:Hexc; [|discriminate].
    intros Heq. injection Heq as <- <- <-.
    destruct (claim_done _ _ _ _ _ _ _ _ Hexc)
      as (p1 & p2 & p3 & -> & H1 & H2 & H3 & ->).
    destruct (claim_failed _ _ _ _ _ _ _ _ Htry) as [Hlen _].
    exists p1, p2, p3, false, t1. auto 10.
Qed.

Lemma select_failed (s s' : B) e evs :
  Bringup.try_except
    (Bringup.claim "ESP_CS" "ESP_BUSY" "ESP_RESET" true)
    Bringup.is_AttributeError
    (Bringup.claim "D10" "D9" "D6" false) s = (Bringup.Failed e, s', evs) ->
  (exists name,
     In name ["D10"; "D9"; "D6"] /\ Bringup.board (B := B) name = None /\
     e = Bringup.no_attribute name) \/
  (exists pre pin,
     evs = pre ++ [Bringup.EvDigitalInOut pin (Bringup.Failed e)]).
Proof.
  unfold Bringup.try_except.
  destruct (Bringup.claim "ESP_CS" "ESP_BUSY" "ESP_RESET" true s)
    as [[[pins1|e1] s1] t1] eqn:Htry; [discriminate|].
  destruct (Bringup.is_AttributeError e1) eqn:Hattr.
  - destruct (Bringup.claim "D10" "D9" "D6" false s1)
      as [[[pins2|e2] s2] t2] eqn:Hexc; [discriminate|].
    intros Heq. injection Heq as <- <- <-.
    destruct (claim_failed _ _ _ _ _ _ _ _ Hexc)
      as [_ [Hname|(pre & pin & ->)]]; [left; exact Hname|].
    right. exists (t1 ++ pre), pin. rewrite app_assoc. reflexivity.
  - intros Heq. injection Heq as <- <- <-.
    destruct (claim_failed _ _ _ _ _ _ _ _ Htry)
      as [_ [(name & _ & _ & ->)|Hvendor]]; [discriminate Hattr|].
    right. exact Hvendor.
Qed.

(** What follows the choice of the lines, when it returns. *)
Lemma start_done (p1 p2 p3 : Bringup.Pin) (flag : bool) (s s' : B) a evs :
  Bringup.start (p1, p2, p3, flag) s = (Bringup.Done a, s', evs) ->
  Bringup._onboard_esp a = flag /\
  Bringup.cs_dio (Bringup._esp a) = p1 /\
  Bringup.ready_dio (Bringup._esp a) = p2 /\
  Bringup.reset_dio (Bringup._esp a) = p3 /\
  Bringup.board (B := B) "SCK" =
    Some (Bringup.clock (Bringup.esp_spi (Bringup._esp a))) /\
  Bringup.board (B := B) "MOSI" =
    Some (Bringup.MOSI (Bringup.esp_spi (Bringup._esp a))) /\
  Bringup.board (B := B) "MISO" =
    Some (Bringup.MISO (Bringup.esp_spi (Bringup._esp a))) /\
  Bringup.claimed evs = [].
Proof.
  intros Hrun. init_run Hrun. all: cbn; auto 10.
Qed.

Lemma start_failed (pins : Bringup.Pin * Bringup.Pin * Bringup.Pin * bool)
    (s s' : B) e evs :
  Bringup.start pins s = (Bringup.Failed e, s', evs) ->
  (exists name,
     In name ["SCK"; "MOSI"; "MISO"] /\ Bringup.board (B := B) name = None /\
     e = Bringup.no_attribute name) \/
  (exists pre ev, evs = pre ++ [ev] /\ Bringup.failure_of ev = Some e).
Proof.
  destruct pins as [[[p1 p2] p3] flag].
  intros Hrun. init_run Hrun.
  all: first
    [ left; eexists; split; [|split; [eassumption|reflexivity]];
      cbn; tauto
    | right;
      first [ exists []; eexists; split; reflexivity
            | eexists [_]; eexists; split; reflexivity
            | eexists [_; _]; eexists; split; reflexivity
            | eexists [_; _; _]; eexists; split; reflexivity
            | eexists [_; _; _; _]; eexists; split; reflexivity
            | eexists [_; _; _; _; _]; eexists; split; reflexivity
            | eexists [_; _; _; _; _; _]; eexists; split; reflexivity
            | eexists [_; _; _; _; _; _; _]; eexists; split; reflexivity
            | eexists [_; _; _; _; _; _; _; _]; eexists; split;
              reflexivity ] ].
Qed.

Lemma claimed_app (l1 l2 : list Bringup.event) :
  Bringup.claimed (l1 ++ l2) = Bringup.claimed l1 ++ Bringup.claimed l2.
Proof.
  induction l1 as [|ev l1 IH]; [reflexivity|].
  destruct ev as [pin []| | | | | | |]; cbn; rewrite ?IH; reflexivity.
Qed.

(** X13.  When [__init__] returns, the radio object is built on the lines
    [ESP_CS], [ESP_BUSY] and [ESP_RESET] of the board and [onboard_esp] is
    [True], or it is built on [D10], [D9] and [D6] and [onboard_esp] is
    [False]; the latter whenever the board lacks one of the three [ESP_]
    names.  In the second case up to two lines claimed before the
    fallback stay claimed and unused.  The bus is on [SCK], [MOSI] and
    [MISO]. *)
Theorem init_selects_control_lines (s s' : B) (a : Bringup.AIO) evs :
  Bringup.__init__ s = (Bringup.Done a, s', evs) ->
  (if Bringup.onboard_esp a
   then Bringup.board (B := B) "ESP_CS" = Some (Bringup.cs_dio (Bringup._esp a)) /\
        Bringup.board (B := B) "ESP_BUSY" =
          Some (Bringup.ready_dio (Bringup._esp a)) /\
        Bringup.board (B := B) "ESP_RESET" =
          Some (Bringup.reset_dio (Bringup._esp a)) /\
        Bringup.claimed evs =
          [Bringup.cs_dio (Bringup._esp a); Bringup.ready_dio (Bringup._esp a);
           Bringup.reset_dio (Bringup._esp a)]
   else Bringup.board (B := B) "D10" = Some (Bringup.cs_dio (Bringup._esp a)) /\
        Bringup.board (B := B) "D9" =
          Some (Bringup.ready_dio (Bringup._esp a)) /\
        Bringup.board (B := B) "D6" =
          Some (Bringup.reset_dio (Bringup._esp a)) /\
        exists abandoned,
          (length abandoned <= 2)%nat /\
          Bringup.claimed evs =
            abandoned ++
            [Bringup.cs_dio (Bringup._esp a);
             Bringup.ready_dio (Bringup._esp a);
             Bringup.reset_dio (Bringup._esp a)]) /\
  (Bringup.board (B := B) "ESP_CS" = None \/
   Bringup.board (B := B) "ESP_BUSY" = None \/
   Bringup.board (B := B) "ESP_RESET" = None ->
   Bringup.onboard_esp a = false) /\
  Bringup.board (B := B) "SCK" =
    Some (Bringup.clock (Bringup.esp_spi (Bringup._esp a))) /\
  Bringup.board (B := B) "MOSI" =
    Some (Bringup.MOSI (Bringup.esp_spi (Bringup._esp a))) /\
  Bringup.board (B := B) "MISO" =
    Some (Bringup.MISO (Bringup.esp_spi (Bringup._esp a))).
Proof.
  rewrite init_phases. unfold Bringup.bind at 1.
  destruct (Bringup.try_except _ _ _ s) as [[[pins|e] s1] t1] eqn:Hsel;
    [|discriminate].
  destruct (select_done _ _ _ _ Hsel)
    as (p1 & p2 & p3 & flag & abandoned & -> & -> & Hlen & Hpins).
  destruct (Bringup.start (p1, p2, p3, flag) s1) as [[o s2] t2] eqn:Hst.
  intros Heq. injection Heq as -> <- <-.
  destruct (start_done _ _ _ _ _ _ _ _ Hst)
    as (Hflag & <- & <- & <- & Hsck & Hmosi & Hmiso & Hnone).
  unfold Bringup.onboard_esp. rewrite Hflag, !claimed_app, Hnone, app_nil_r.
  split; [|split; [|auto]].
  - destruct flag.
    + destruct Hpins as (H1 & H2 & H3 & ->). auto.
    + destruct Hpins as (H1 & H2 & H3).
      split; [exact H1|]. split; [exact H2|]. split; [exact H3|].
      exists (Bringup.claimed abandoned). split; [exact Hlen|reflexivity].
  - destruct flag; [|reflexivity].
    destruct Hpins as (H1 & H2 & H3 & _).
    intros [Hn|[Hn|Hn]]; congruence.
Qed.

(** X14.  [__init__] fails in two ways only: with the [AttributeError] of
    a name among [D10], [D9], [D6], [SCK], [MOSI] and [MISO] that the
    board lacks, never one of the [ESP_] names; or with the error of a
    vendor call, which is then the last interaction of the run. *)
Theorem init_fails_on_missing_name_or_vendor_error (s s' : B) e evs :
  Bringup.__init__ s = (Bringup.Failed e, s', evs) ->
  (exists name,
     In name ["D10"; "D9"; "D6"; "SCK"; "MOSI"; "MISO"] /\
     Bringup.board (B := B) name = None /\ e = Bringup.no_attribute name) \/
  (exists pre ev, evs = pre ++ [ev] /\ Bringup.failure_of ev = Some e).
Proof.
  rewrite init_phases. unfold Bringup.bind at 1.
  destruct (Bringup.try_except _ _ _ s) as [[[pins|e1] s1] t1] eqn:Hsel.
  - destruct (Bringup.start pins s1) as [[o s2] t2] eqn:Hst.
    intros Heq. injection Heq as -> <- <-.
    destruct (start_failed _ _ _ _ _ Hst)
      as [(name & Hin & Hnone & ->)|(pre & ev & -> & Hev)].
    + left. exists name. split; [cbn in *; tauto|auto].
    + right. exists (t1 ++ pre), ev. rewrite app_assoc. auto.
  - intros Heq. injection Heq as <- <- <-.
    destruct (select_failed _ _ _ _ Hsel)
      as [(name & Hin & Hnone & ->)|(pre & pin & ->)].
    + left. exists name. split; [cbn in *; tauto|auto].
    + right. eexists _, _. split; reflexivity.
Qed.

(** The choice of the lines talks to [DigitalInOut] only. *)
Lemma claim_events (a b c : string) (flag : bool) (s s' : B) out evs esp r :
  Bringup.claim a b c flag s = (out, s', evs) ->
  ~ In (Bringup.EvSetInterface esp r) evs.
Proof.
  intros Hrun Hin. init_run Hrun.
  all: cbn in Hin;
    repeat (destruct Hin as [Hin|Hin]; [discriminate Hin|]); exact Hin.
Qed.

Lemma select_events (s s' : B) out evs esp r :
  Bringup.try_except
    (Bringup.claim "ESP_CS" "ESP_BUSY" "ESP_RESET" true)
    Bringup.is_AttributeError
    (Bringup.claim "D10" "D9" "D6" false) s = (out, s', evs) ->
  ~ In (Bringup.EvSetInterface esp r) evs.
Proof.
  unfold Bringup.try_except.
  destruct (Bringup.claim "ESP_CS" "ESP_BUSY" "ESP_RESET" true s)
    as [[[pins1|e1] s1] t1] eqn:Htry.
  - intros Heq. injection Heq as <- <- <-. eapply claim_events; eauto.
  - destruct (Bringup.is_AttributeError e1).
    + destruct (Bringup.claim "D10" "D9" "D6" false s1)
        as [[o2 s2] t2] eqn:Hexc.
      intros Heq. injection Heq as <- <- <-. intros Hin.
      apply in_app_or in Hin. destruct Hin as [Hin|Hin];
        revert Hin; eapply claim_events; eauto.
    + intros Heq. injection Heq as <- <- <-. eapply claim_events; eauto.
Qed.

(** The binding of [requests] to the radio, in what follows the choice
    of the lines. *)
Lemma start_order (pins : Bringup.Pin * Bringup.Pin * Bringup.Pin * bool)
    (s s' : B) out evs esp r :
  Bringup.start pins s = (out, s', evs) ->
  In (Bringup.EvSetInterface esp r) evs ->
  exists pre st fw mac,
    evs = pre ++ [Bringup.EvSetInterface esp r] /\
    (forall esp' r', ~ In (Bringup.EvSetInterface esp' r') pre) /\
    In (Bringup.EvSPI (Bringup.esp_spi esp) (Bringup.Done tt)) pre /\
    In (Bringup.EvESP esp (Bringup.Done tt)) pre /\
    In (Bringup.EvStatus esp (Bringup.Done st)) pre /\
    In (Bringup.EvFirmware esp (Bringup.Done fw)) pre /\
    In (Bringup.EvMAC esp (Bringup.Done mac)) pre /\
    In (Bringup.EvLog INFO "MAC addr: %s" [Bringup.mac_text mac]) pre /\
    match r with
    | Bringup.Done _ => exists a, out = Bringup.Done a /\ Bringup._esp a = esp
    | Bringup.Failed e => out = Bringup.Failed e
    end.
Proof.
  destruct pins as [[[p1 p2] p3] flag].
  intros Hrun Hin. init_run Hrun.
  all: cbn in Hin;
    repeat (destruct Hin as [Hin|Hin]; [try discriminate Hin|]);
    try (exfalso; exact Hin).
  all: injection Hin as <- <-.
  all: first
    [ eexists [_; _; _; _; _; _; _; _], st, fw, mac; split; [reflexivity|]
    | eexists [_; _; _; _; _; _; _], st, fw, mac; split; [reflexivity|] ].
  all: split;
    [ intros esp' r' Hin'; cbn in Hin';
      repeat (destruct Hin' as [Hin'|Hin']; [discriminate Hin'|]);
      exact Hin' | ].
  all: cbn [In]; repeat (split; [auto 12|]); eauto.
Qed.

(** A run that returns has handed the radio it returns to [requests]. *)
Lemma start_returns (pins : Bringup.Pin * Bringup.Pin * Bringup.Pin * bool)
    (s s' : B) a evs :
  Bringup.start pins s = (Bringup.Done a, s', evs) ->
  In (Bringup.EvSetInterface (Bringup._esp a) (Bringup.Done tt)) evs.
Proof.
  destruct pins as [[[p1 p2] p3] flag].
  intros Hrun. init_run Hrun. all: cbn; auto 12.
Qed.

(** X15.  [__init__] hands the radio to [requests] as its last step.  A
    run that returns has called [requests.set_interface] on the radio it
    returns, successfully and as its last interaction.  Wherever the call
    is made, it is the last interaction and the only call of its kind; it
    comes after the bus and the radio object were built and after the
    radio answered the queries for its status, its firmware version and
    its MAC address, which is logged; and it decides the outcome: the run
    returns when the call succeeds and raises the error of the call when
    it fails. *)
Theorem init_binds_requests_last (s s' : B) out evs :
  Bringup.__init__ s = (out, s', evs) ->
  (forall a, out = Bringup.Done a ->
     exists pre,
       evs = pre ++
             [Bringup.EvSetInterface (Bringup._esp a) (Bringup.Done tt)]) /\
  (forall esp r, In (Bringup.EvSetInterface esp r) evs ->
     exists pre st fw mac,
       evs = pre ++ [Bringup.EvSetInterface esp r] /\
       (forall esp' r', ~ In (Bringup.EvSetInterface esp' r') pre) /\
       In (Bringup.EvSPI (Bringup.esp_spi esp) (Bringup.Done tt)) pre /\
       In (Bringup.EvESP esp (Bringup.Done tt)) pre /\
       In (Bringup.EvStatus esp (Bringup.Done st)) pre /\
       In (Bringup.EvFirmware esp (Bringup.Done fw)) pre /\
       In (Bringup.EvMAC esp (Bringup.Done mac)) pre /\
       In (Bringup.EvLog INFO "MAC addr: %s" [Bringup.mac_text mac]) pre /\
       match r with
       | Bringup.Done _ =>
           exists a, out = Bringup.Done a /\ Bringup._esp a = esp
       | Bringup.Failed e => out = Bringup.Failed e
       end).
Proof.
  rewrite init_phases. unfold Bringup.bind at 1.
  destruct (Bringup.try_except _ _ _ s) as [[[pins|e1] s1] t1] eqn:Hsel.
  - destruct (Bringup.start pins s1) as [[o s2] t2] eqn:Hst.
    intros Heq. injection Heq as <- <- <-.
    assert (Hcalls : forall esp r,
              In (Bringup.EvSetInterface esp r) (t1 ++ t2) ->
              exists pre st fw mac,
                t1 ++ t2 = pre ++ [Bringup.EvSetInterface esp r] /\
                (forall esp' r', ~ In (Bringup.EvSetInterface esp' r') pre) /\
                In (Bringup.EvSPI (Bringup.esp_spi esp) (Bringup.Done tt))
                  pre /\
                In (Bringup.EvESP esp (Bringup.Done tt)) pre /\
                In (Bringup.EvStatus esp (Bringup.Done st)) pre /\
                In (Bringup.EvFirmware esp (Bringup.Done fw)) pre /\
                In (Bringup.EvMAC esp (Bringup.Done mac)) pre /\
                In (Bringup.EvLog INFO "MAC addr: %s" [Bringup.mac_text mac])
                  pre /\
                match r with
                | Bringup.Done _ =>
                    exists a, o = Bringup.Done a /\ Bringup._esp a = esp
                | Bringup.Failed e => o = Bringup.Failed e
                end).
    { intros esp r Hin.
      apply in_app_or in Hin. destruct Hin as [Hin|Hin].
      { destruct (select_events _ _ _ _ _ _ Hsel Hin). }
      destruct (start_order _ _ _ _ _ _ _ Hst Hin)
        as (pre & st & fw & mac & -> & Hone & H1 & H2 & H3 & H4 & H5 & H6
            & H7).
      exists (t1 ++ pre), st, fw, mac.
      rewrite app_assoc. split; [reflexivity|]. split.
      { intros esp' r' Hin'. apply in_app_or in Hin'.
        destruct Hin' as [Hin'|Hin'];
          [exact (select_events _ _ _ _ _ _ Hsel Hin')
          |exact (Hone _ _ Hin')]. }
      repeat (split; [auto using in_or_app|]). exact H7. }
    split; [|exact Hcalls].
    intros a ->.
    destruct (Hcalls (Bringup._esp a) (Bringup.Done tt)) as (pre & _ & _ & _
      & Heq & _).
    { apply in_or_app. right. eapply start_returns; eauto. }
    exists pre. exact Heq.
  - intros Heq. injection Heq as <- <- <-. split; [discriminate|].
    intros esp r Hin. destruct (select_events _ _ _ _ _ _ Hsel Hin).
Qed.

End InitFacts.

(** ** The MAC address in the log *)

(** The field of a byte: its hexadecimal numeral, one digit below 16 and
    two from 16 on, which reads back as the byte. *)
Lemma mac_field (i : Byte.byte) :
  HexString.to_Z ("0x" +:+ py_slice (hex (Z.of_N (Byte.to_N i))) 2 4) =
    Z.of_N (Byte.to_N i) /\
  lacks ":" (py_slice (hex (Z.of_N (Byte.to_N i))) 2 4) = true /\
  String.length (py_slice (hex (Z.of_N (Byte.to_N i))) 2 4) =
    (if (Byte.to_N i <? 16)%N then 1 else 2)%nat.
Proof. destruct i; vm_compute; auto. Qed.

(** [split] undoes [join] on fields that do not hold the separator. *)
Lemma py_split_join (sep : ascii) (fields : list string) :
  fields <> [] -> Forall (fun f => lacks sep f = true) fields ->
  py_split sep (py_join (String sep "") fields) = fields.
Proof.
  intros Hne Hall. induction Hall as [|f fields Hf Hall IH]; [congruence|].
  destruct fields as [|g fields].
  - cbn. apply py_split_lacks. exact Hf.
  - change (py_join (String sep "") (f :: g :: fields))
      with (f +:+ String sep "" +:+ py_join (String sep "") (g :: fields)).
    rewrite append_cons, append_nil_l, (py_split_app_lacks _ _ _ Hf), IH;
      [reflexivity|discriminate].
Qed.

(** X16.  The text of the MAC address that [__init__] logs has one field
    for each byte, separated by colons: the hexadecimal numeral of the
    byte, which reads back as the byte, but without padding, so a byte
    below 16 gives a single digit. *)
Theorem mac_text_fields (mac : list Byte.byte) :
  mac <> [] ->
  map (fun f => HexString.to_Z ("0x" +:+ f))
    (py_split ":" (Bringup.mac_text mac)) =
    map (fun i => Z.of_N (Byte.to_N i)) mac /\
  map String.length (py_split ":" (Bringup.mac_text mac)) =
    map (fun i => if (Byte.to_N i <? 16)%N then 1%nat else 2%nat) mac.
Proof.
  intros Hne. unfold Bringup.mac_text.
  rewrite py_split_join.
  - rewrite !map_map. split; apply map_ext; intros i; apply (mac_field i).
  - destruct mac; [congruence|discriminate].
  - apply Forall_forall. intros f Hin.
    apply list_elem_of_In, in_map_iff in Hin. destruct Hin as (i & <- & _).
    apply (mac_field i).
Qed.

(** ** Start-up on the scripted kit *)

(** A board that defines [ESP_CS] only: the line is claimed, then the
    lines of a shield are used. *)
Lemma init_selects_control_lines_witness :
  exists a s' evs,
    @Bringup.__init__ Bringup.kit
      (Bringup.kit_board Bringup.partial_board Bringup.sample_mac)
      Bringup.power_on = (Bringup.Done a, s', evs) /\
    Bringup.onboard_esp a = false /\
    Bringup.claimed evs = ["PB14"; "PA18"; "PA20"; "PA15"] /\
    (if Bringup.onboard_esp a
     then @Bringup.board Bringup.kit
            (Bringup.kit_board Bringup.partial_board Bringup.sample_mac)
            "ESP_CS" = Some (Bringup.cs_dio (Bringup._esp a)) /\
          @Bringup.board Bringup.kit
            (Bringup.kit_board Bringup.partial_board Bringup.sample_mac)
            "ESP_BUSY" = Some (Bringup.ready_dio (Bringup._esp a)) /\
          @Bringup.board Bringup.kit
            (Bringup.kit_board Bringup.partial_board Bringup.sample_mac)
            "ESP_RESET" = Some (Bringup.reset_dio (Bringup._esp a)) /\
          Bringup.claimed evs =
            [Bringup.cs_dio (Bringup._esp a);
             Bringup.ready_dio (Bringup._esp a);
             Bringup.reset_dio (Bringup._esp a)]
     else @Bringup.board Bringup.kit
            (Bringup.kit_board Bringup.partial_board Bringup.sample_mac)
            "D10" = Some (Bringup.cs_dio (Bringup._esp a)) /\
          @Bringup.board Bringup.kit
            (Bringup.kit_board Bringup.partial_board Bringup.sample_mac)
            "D9" = Some (Bringup.ready_dio (Bringup._esp a)) /\
          @Bringup.board Bringup.kit
            (Bringup.kit_board Bringup.partial_board Bringup.sample_mac)
            "D6" = Some (Bringup.reset_dio (Bringup._esp a)) /\
          exists abandoned,
            (length abandoned <= 2)%nat /\
            Bringup.claimed evs =
              abandoned ++
              [Bringup.cs_dio (Bringup._esp a);
               Bringup.ready_dio (Bringup._esp a);
               Bringup.reset_dio (Bringup._esp a)]) /\
    (@Bringup.board Bringup.kit
       (Bringup.kit_board Bringup.partial_board Bringup.sample_mac)
       "ESP_CS" = None \/
     @Bringup.board Bringup.kit
       (Bringup.kit_board Bringup.partial_board Bringup.sample_mac)
       "ESP_BUSY" = None \/
     @Bringup.board Bringup.kit
       (Bringup.kit_board Bringup.partial_board Bringup.sample_mac)
       "ESP_RESET" = None ->
     Bringup.onboard_esp a = false) /\
    @Bringup.board Bringup.kit
      (Bringup.kit_board Bringup.partial_board Bringup.sample_mac) "SCK" =
      Some (Bringup.clock (Bringup.esp_spi (Bringup._esp a))) /\
    @Bringup.board Bringup.kit
      (Bringup.kit_board Bringup.partial_board Bringup.sample_mac) "MOSI" =
      Some (Bringup.MOSI (Bringup.esp_spi (Bringup._esp a))) /\
    @Bringup.board Bringup.kit
      (Bringup.kit_board Bringup.partial_board Bringup.sample_mac) "MISO" =
      Some (Bringup.MISO (Bringup.esp_spi (Bringup._esp a))).
Proof.
  evaluate (@Bringup.__init__ Bringup.kit
              (Bringup.kit_board Bringup.partial_board Bringup.sample_mac)
              Bringup.power_on) Hrun.
  eexists _, _, _. split; [exact Hrun|].
  split; [reflexivity|]. split; [reflexivity|].
  exact (@init_selects_control_lines Bringup.kit
           (Bringup.kit_board Bringup.partial_board Bringup.sample_mac)
           _ _ _ _ Hrun).
Defined.

(** A board with neither the radio lines nor the pins of a shield. *)
Lemma init_fails_on_missing_name_or_vendor_error_witness :
  exists s' evs,
    @Bringup.__init__ Bringup.kit
      (Bringup.kit_board Bringup.bare_board Bringup.sample_mac)
      Bringup.power_on = (Bringup.Failed (Bringup.no_attribute "D10"), s', evs) /\
    ((exists name,
        In name ["D10"; "D9"; "D6"; "SCK"; "MOSI"; "MISO"] /\
        @Bringup.board Bringup.kit
          (Bringup.kit_board Bringup.bare_board Bringup.sample_mac) name =
          None /\
        Bringup.no_attribute "D10" = Bringup.no_attribute name) \/
     (exists pre ev,
        evs = pre ++ [ev] /\
        Bringup.failure_of ev = Some (Bringup.no_attribute "D10"))).
Proof.
  evaluate (@Bringup.__init__ Bringup.kit
              (Bringup.kit_board Bringup.bare_board Bringup.sample_mac)
              Bringup.power_on) Hrun.
  eexists _, _. split; [exact Hrun|].
  exact (@init_fails_on_missing_name_or_vendor_error Bringup.kit
           (Bringup.kit_board Bringup.bare_board Bringup.sample_mac)
           _ _ _ _ Hrun).
Defined.

(** A board with the radio on board: the call returns the radio built on
    the board's own lines, after handing it to [requests]. *)
Lemma init_binds_requests_last_witness :
  exists s' evs,
    @Bringup.__init__ Bringup.kit
      (Bringup.kit_board Bringup.airlift_board Bringup.sample_mac)
      Bringup.power_on =
      (Bringup.Done {| Bringup._onboard_esp := true;
                       Bringup._esp := Bringup.airlift_radio |}, s', evs) /\
    In (Bringup.EvSetInterface Bringup.airlift_radio (Bringup.Done tt)) evs /\
    (forall a,
       Bringup.Done {| Bringup._onboard_esp := true;
                       Bringup._esp := Bringup.airlift_radio |} =
         Bringup.Done a ->
       exists pre,
         evs = pre ++
               [Bringup.EvSetInterface (Bringup._esp a) (Bringup.Done tt)]) /\
    (forall esp r, In (Bringup.EvSetInterface esp r) evs ->
       exists pre st fw mac,
         evs = pre ++ [Bringup.EvSetInterface esp r] /\
         (forall esp' r', ~ In (Bringup.EvSetInterface esp' r') pre) /\
         In (Bringup.EvSPI (Bringup.esp_spi esp) (Bringup.Done tt)) pre /\
         In (Bringup.EvESP esp (Bringup.Done tt)) pre /\
         In (Bringup.EvStatus esp (Bringup.Done st)) pre /\
         In (Bringup.EvFirmware esp (Bringup.Done fw)) pre /\
         In (Bringup.EvMAC esp (Bringup.Done mac)) pre /\
         In (Bringup.EvLog INFO "MAC addr: %s" [Bringup.mac_text mac]) pre /\
         match r with
         | Bringup.Done _ =>
             exists a,
               Bringup.Done {| Bringup._onboard_esp := true;
                               Bringup._esp := Bringup.airlift_radio |} =
                 Bringup.Done a /\
               Bringup._esp a = esp
         | Bringup.Failed e =>
             Bringup.Done {| Bringup._onboard_esp := true;
                             Bringup._esp := Bringup.airlift_radio |} =
               Bringup.Failed e
         end).
Proof.
  evaluate (@Bringup.__init__ Bringup.kit
              (Bringup.kit_board Bringup.airlift_board Bringup.sample_mac)
              Bringup.power_on) Hrun.
  eexists _, _. split; [exact Hrun|].
  split; [do 11 right; left; reflexivity|].
  exact (@init_binds_requests_last Bringup.kit
           (Bringup.kit_board Bringup.airlift_board Bringup.sample_mac)
           _ _ _ _ Hrun).
Defined.

(** The address 24:0a:c4:00:5f:09 is logged as 24:a:c4:0:5f:9. *)
Lemma mac_text_fields_witness :
  Bringup.sample_mac <> [] /\
  Bringup.mac_text Bringup.sample_mac = "24:a:c4:0:5f:9" /\
  map (fun f => HexString.to_Z ("0x" +:+ f))
    (py_split ":" (Bringup.mac_text Bringup.sample_mac)) =
    map (fun i => Z.of_N (Byte.to_N i)) Bringup.sample_mac /\
  map String.length (py_split ":" (Bringup.mac_text Bringup.sample_mac)) =
    map (fun i => if (Byte.to_N i <? 16)%N then 1%nat else 2%nat)
      Bringup.sample_mac.
Proof.
  split; [discriminate|]. split; [reflexivity|].
  apply (mac_text_fields Bringup.sample_mac). discriminate.
Defined.
